(** * zim_prioritisation: a shallow embedding of [bin/zim_prioritisation.py]

    The script reads an ANNOVAR multianno table and a Zimbabwe cohort
    frequency table, left-joins them on (Chr, Start, Ref, Alt), derives the
    gnomAD max columns and the impact tier, filters, and writes two TSV files.

    Modelling choices, all taken from the source and from what pandas does at
    the calls the source makes:
    - a Python/numpy float is a binary64 [float] of the kernel, so [nan],
      [infinity], division by zero and the comparisons are the IEEE ones;
    - a cell is a string, a float or a bool; a missing value is the float NaN,
      as pandas stores it, also inside a column of strings;
    - a DataFrame is its header (the column labels, in order, duplicates
      allowed) and its rows, each with its index label;
    - the script runs in a small monad that records what it prints and which
      tables it writes, and stops at the first exception;
    - the text-level library functions (pandas.read_csv, the float parser
      behind pandas.to_numeric, Python's repr of a list of strings) are the
      fields of a [Runtime]: every theorem holds for whatever they do. *)

From Stdlib Require Import String Ascii List Bool Arith Lia ZArith Floats DecimalString.
Import ListNotations.

Set Warnings "-inexact-float".
Open Scope string_scope.

(* ================================================================== *)
(** ** Python string methods used by the script *)
(* ================================================================== *)

Module PyStr.

(** [str.lower] on ASCII: 'A'..'Z' move to 'a'..'z', every other byte stays. *)
Definition lower_ascii (a : ascii) : ascii :=
  let n := nat_of_ascii a in
  if (65 <=? n)%nat && (n <=? 90)%nat then ascii_of_nat (n + 32) else a.

Fixpoint lower (s : string) : string :=
  match s with
  | EmptyString => EmptyString
  | String a t => String (lower_ascii a) (lower t)
  end.

(** [s.startswith(p)] *)
Definition startswith (s p : string) : bool := String.prefix p s.

(** [sub in s] *)
Fixpoint contains (sub s : string) : bool :=
  String.prefix sub s ||
  match s with
  | EmptyString => false
  | String _ t => contains sub t
  end.

(** [x in xs] for a list of strings *)
Definition mem (x : string) (xs : list string) : bool :=
  existsb (String.eqb x) xs.

(** [str(n)] for a non-negative int *)
Definition of_nat (n : nat) : string := NilZero.string_of_uint (Nat.to_uint n).

(** no label occurs twice *)
Fixpoint nodupb (xs : list string) : bool :=
  match xs with
  | [] => true
  | x :: t => negb (mem x t) && nodupb t
  end.

End PyStr.

(* ================================================================== *)
(** ** Cells, rows and frames *)
(* ================================================================== *)

Inductive cell : Type :=
| Str (s : string)
| Num (x : float)
| Bool (b : bool).

(** The missing value. *)
Definition NaN : cell := Num nan.

(** [Series.isna], element-wise *)
Definition isna (c : cell) : bool :=
  match c with
  | Num x => is_nan x
  | _ => false
  end.

Definition is_str (c : cell) : bool :=
  match c with
  | Str _ => true
  | _ => false
  end.

Definition is_bool (c : cell) : bool :=
  match c with
  | Bool _ => true
  | _ => false
  end.

Definition float_of_bool (b : bool) : float := if b then 1%float else 0%float.

(** A row maps column labels to cells; the order is the header's. *)
Definition row : Type := list (string * cell).

Record DataFrame : Type := mkDF {
  columns : list string;
  body : list (nat * row)
}.

(** A Series: values with their index labels. *)
Definition Series : Type := list (nat * cell).

Definition get (r : row) (c : string) : cell :=
  match find (fun kv => String.eqb (fst kv) c) r with
  | Some kv => snd kv
  | None => NaN
  end.

Fixpoint row_set (c : string) (v : cell) (r : row) : row :=
  match r with
  | [] => [(c, v)]
  | (k, w) :: r' =>
      if String.eqb k c then (k, v) :: r' else (k, w) :: row_set c v r'
  end.

Definition col_add (c : string) (cols : list string) : list string :=
  if PyStr.mem c cols then cols else (cols ++ [c])%list.

Definition index (df : DataFrame) : list nat := map fst (body df).

(** [len(df)] *)
Definition len (df : DataFrame) : nat := length (body df).

Definition values (df : DataFrame) (c : string) : list cell :=
  map (fun ir => get (snd ir) c) (body df).

(** [df[c] = f(row)]: the column is replaced, or appended when it is new. *)
Definition assign (c : string) (f : row -> cell) (df : DataFrame) : DataFrame :=
  mkDF (col_add c (columns df))
       (map (fun ir => (fst ir, row_set c (f (snd ir)) (snd ir))) (body df)).

(** [df.loc[mask, c] = v] with a mask on the same index. *)
Definition loc_set (mask : list bool) (c : string) (v : cell) (df : DataFrame)
  : DataFrame :=
  mkDF (columns df)
       (map (fun bir : bool * (nat * row) =>
              if fst bir
                        then (fst (snd bir), row_set c v (snd (snd bir)))
                        else snd bir)
            (combine mask (body df))).

(** [df[mask]] with a boolean mask on the same index: labels are kept. *)
Definition select_rows (mask : list bool) (df : DataFrame) : DataFrame :=
  mkDF (columns df)
       (map snd (filter (fun bir : bool * (nat * row) => fst bir)
                        (combine mask (body df)))).

(** [Series.reindex] lookup of one label. *)
Definition at_label (s : Series) (i : nat) : cell :=
  match find (fun p => Nat.eqb (fst p) i) s with
  | Some p => snd p
  | None => NaN
  end.

(** A row with a missing value under every label. *)
Definition nan_row (cols : list string) : row := map (fun k => (k, NaN)) cols.

(** [DataFrame._ensure_valid_index], which every column assignment goes
    through: a frame without rows that is assigned a non-empty Series takes
    the index of the Series, and each column it has is filled with missing
    values. *)
Definition _ensure_valid_index (s : Series) (df : DataFrame) : DataFrame :=
  match body df, s with
  | [], _ :: _ => mkDF (columns df) (map (fun p => (fst p, nan_row (columns df))) s)
  | _, _ => df
  end.

(** [df[c] = s] for a Series [s]: the frame gets an index if it has none,
    then the values are aligned on the index labels. *)
Definition assign_aligned (c : string) (s : Series) (df : DataFrame) : DataFrame :=
  let df := _ensure_valid_index s df in
  mkDF (col_add c (columns df))
       (map (fun ir => (fst ir, row_set c (at_label s (fst ir)) (snd ir))) (body df)).

(** [df.rename(columns=mapping)]: a dict, so the last entry of a key wins. *)
Definition renamed (mapping : list (string * string)) (c : string) : string :=
  match find (fun kv => String.eqb (fst kv) c) (rev mapping) with
  | Some kv => snd kv
  | None => c
  end.

Definition rename (mapping : list (string * string)) (df : DataFrame) : DataFrame :=
  mkDF (map (renamed mapping) (columns df))
       (map (fun ir => (fst ir, map (fun kv => (renamed mapping (fst kv), snd kv)) (snd ir)))
            (body df)).

(** [df[[n1, ..., nk]]] once every label is known to be present: each label
    brings every column that carries it. *)
Definition select_cols (names : list string) (df : DataFrame) : DataFrame :=
  mkDF (flat_map (fun n => filter (String.eqb n) (columns df)) names)
       (map (fun ir => (fst ir,
                        flat_map (fun n => filter (fun kv => String.eqb n (fst kv)) (snd ir))
                                 names))
            (body df)).

(** A column read by [read_csv] has dtype object exactly when it holds a
    string, or when the table has no row. *)
Definition is_object (cs : list cell) : bool :=
  match cs with
  | [] => true
  | _ => existsb is_str cs
  end.

(* ================================================================== *)
(** ** numpy / pandas numerics *)
(* ================================================================== *)

(** numpy's [maximum] as its float loops compute it. *)
Definition fmaximum (a b : float) : float :=
  if (b <=? a)%float || is_nan a then a else b.

(** [DataFrame.max(axis=1, skipna=True)] on one row (pandas' nanmax):
    missing values are replaced by -inf, the maximum is taken, and the
    result is nulled when every value was missing. *)
Definition nanmax (vs : list float) : float :=
  if forallb is_nan vs then nan
  else
    match map (fun v => if is_nan v then neg_infinity else v) vs with
    | [] => nan
    | x :: xs => fold_left fmaximum xs x
    end.

(** [Series.fillna(v)] *)
Definition fillna (v : float) (c : cell) : cell :=
  if isna c then Num v else c.

(** [Series.isin(terms)] *)
Definition isin (terms : list string) (c : cell) : bool :=
  match c with
  | Str s => PyStr.mem s terms
  | _ => false
  end.

(** [Series.str.contains(pat, na=False)] for a pattern without
    metacharacters, on one element of an object column. *)
Definition str_contains (pat : string) (c : cell) : bool :=
  match c with
  | Str s => PyStr.contains pat s
  | _ => false
  end.

(** Equality of join keys in [DataFrame.merge]: missing keys match each
    other. A number is a binary64 here, also where pandas holds an int64, so
    the model covers integer keys up to 2^53 (every genomic coordinate is);
    keys of different kinds never match. *)
Definition key_eqb (a b : cell) : bool :=
  match a, b with
  | Str s, Str t => String.eqb s t
  | Num x, Num y => (x =? y)%float || (is_nan x && is_nan y)
  | Bool p, Bool q => Bool.eqb p q
  | _, _ => false
  end.

Definition row_matches (on : list string) (l r : row) : bool :=
  forallb (fun k => key_eqb (get l k) (get r k)) on.

(* ================================================================== *)
(** ** The run monad: trace of effects, then an exception or a value *)
(* ================================================================== *)

(** The exceptions a run can end with. [SystemExit] carries the message
    the script builds, [KeyError] the label, [TypeError] the message of
    Python's own comparison. [ValueError] and [AttributeError] are raised
    inside pandas: their text changes with the version of the library and is
    not part of the model. *)
Inductive exn : Type :=
| SystemExit (msg : string)
| KeyError (key : string)
| ValueError
| TypeError (msg : string)
| AttributeError
| OSError (path : string).

Inductive event : Type :=
| Printed (line : string)
| Wrote (path : string) (df : DataFrame).

Definition M (A : Type) : Type := (list event * (exn + A))%type.

Definition ret {A} (a : A) : M A := ([], inr a).

Definition raise {A} (e : exn) : M A := ([], inl e).

Definition bind {A B} (m : M A) (k : A -> M B) : M B :=
  match m with
  | (tr, inl e) => (tr, inl e)
  | (tr, inr a) => ((tr ++ fst (k a))%list, snd (k a))
  end.

Definition print (s : string) : M unit := ([Printed s], inr tt).

Definition to_csv (path : string) (df : DataFrame) : M unit :=
  ([Wrote path df], inr tt).

Definition lift {A} (r : exn + A) : M A := ([], r).

Notation "x <- m ;; k" := (bind m (fun x => k))
  (at level 61, m at next level, right associativity).
Notation "m ;;; k" := (bind m (fun _ => k))
  (at level 61, right associativity).

(** What a run printed, and what it wrote. *)
Definition stdout (tr : list event) : list string :=
  flat_map (fun e => match e with Printed s => [s] | _ => [] end) tr.

Definition written (tr : list event) : list (string * DataFrame) :=
  flat_map (fun e => match e with Wrote p d => [(p, d)] | _ => [] end) tr.

(** [df[c]]: KeyError when the label is not in the header. *)
Definition getitem (df : DataFrame) (c : string) : M Series :=
  if PyStr.mem c (columns df)
  then ret (map (fun ir => (fst ir, get (snd ir) c)) (body df))
  else raise (KeyError c).

(** The operand of an ordering comparison with a float scalar; a string
    element has none (Python raises TypeError). *)
Definition comparable (c : cell) : option float :=
  match c with
  | Num x => Some x
  | Bool b => Some (float_of_bool b)
  | Str _ => None
  end.

Definition le_cell (t : float) (c : cell) : bool :=
  match comparable c with
  | Some x => (x <=? t)%float
  | None => false
  end.

Definition gt_cell (t : float) (c : cell) : bool :=
  match comparable c with
  | Some x => (t <? x)%float
  | None => false
  end.

Definition cmp_error : exn :=
  TypeError "'<=' not supported between instances of 'str' and 'float'".

(** [s <= t] *)
Definition series_le (s : Series) (t : float) : M (list bool) :=
  if existsb (fun p => is_str (snd p)) s
  then raise cmp_error
  else ret (map (fun p => le_cell t (snd p)) s).

(** [s > t] *)
Definition series_gt (s : Series) (t : float) : M Series :=
  if existsb (fun p => is_str (snd p)) s
  then raise cmp_error
  else ret (map (fun p => (fst p, Bool (gt_cell t (snd p)))) s).

(** [a & b], element-wise on the same index *)
Definition mask_and (a b : list bool) : list bool :=
  map (fun p => fst p && snd p) (combine a b).

Definition mask_or (a b : list bool) : list bool :=
  map (fun p => fst p || snd p) (combine a b).

(** A Python dict with string keys, in insertion order; a later entry of the
    same key replaces the earlier one. *)
Definition dict : Type := list (string * string).

Definition dict_has (d : dict) (k : string) : bool :=
  existsb (fun kv => String.eqb (fst kv) k) d.

(** [d[k]] *)
Definition dict_item (d : dict) (k : string) : M string :=
  match find (fun kv => String.eqb (fst kv) k) (rev d) with
  | Some kv => ret (snd kv)
  | None => raise (KeyError k)
  end.

(** [for x in xs: f(x)] *)
Fixpoint for_each {A} (xs : list A) (f : A -> M unit) : M unit :=
  match xs with
  | [] => ret tt
  | x :: t => f x ;;; for_each t f
  end.

(** [enumerate]: the fresh RangeIndex of a merge result. *)
Definition enumerate {A} (xs : list A) : list (nat * A) :=
  combine (seq 0 (length xs)) xs.

(** The element of a numeric column as a float. *)
Definition as_float (c : cell) : float :=
  match c with
  | Num x => x
  | Bool b => float_of_bool b
  | Str _ => nan
  end.

(* ================================================================== *)
(** ** [DataFrame.merge(right, on=..., how='left')] *)
(* ================================================================== *)

(** Labels of the right table that are not join keys. *)
Definition right_payload (on : list string) (right : DataFrame) : list string :=
  filter (fun c => negb (PyStr.mem c on)) (columns right).

(** A label present on both sides and not a key gets the suffix. *)
Definition suffix_x (on : list string) (right : DataFrame) (c : string) : string :=
  if negb (PyStr.mem c on) && PyStr.mem c (columns right) then c ++ "_x" else c.

Definition suffix_y (left : DataFrame) (c : string) : string :=
  if PyStr.mem c (columns left) then c ++ "_y" else c.

(** The rows a left row brings to the result: one per matching right row, in
    the right table's order, or one with the payload missing. *)
Definition joined (on : list string) (left right : DataFrame) (l : row) : list row :=
  let lpart := map (fun c => (suffix_x on right c, get l c)) (columns left) in
  match filter (row_matches on l) (map snd (body right)) with
  | [] => [(lpart ++ map (fun c => (suffix_y left c, NaN)) (right_payload on right))%list]
  | ms => map (fun r => (lpart ++ map (fun c => (suffix_y left c, get r c))
                                      (right_payload on right))%list) ms
  end.

(** Both tables non-empty and one key column numeric, the other object. *)
Definition dtype_clash (left right : DataFrame) (k : string) : bool :=
  match body left, body right with
  | _ :: _, _ :: _ =>
      negb (Bool.eqb (is_object (values left k)) (is_object (values right k)))
  | _, _ => false
  end.

(** The join of the script's call. A right table with a repeated label is
    refused with pandas' ValueError for a label that is not unique; pandas
    raises it for a repeated key label, and the model stops in the same way
    for any repeated label of the right table, since a frame with two columns
    under one name is outside what the rows of the model represent. *)
Definition merge_left (left right : DataFrame) (on : list string) : M DataFrame :=
  if negb (PyStr.nodupb (columns right)) then
    raise ValueError
  else
    for_each on (fun k =>
      if PyStr.mem k (columns left) && PyStr.mem k (columns right)
      then ret tt else raise (KeyError k)) ;;;
    if existsb (dtype_clash left right) on then raise ValueError
    else
      ret (mkDF (map (suffix_x on right) (columns left)
                   ++ map (suffix_y left) (right_payload on right))%list
                (enumerate (flat_map (fun ir => joined on left right (snd ir))
                                     (body left)))).

(* ================================================================== *)
(** ** The script *)
(* ================================================================== *)

(** What the script takes from Python and pandas at the level of text. *)
Record Runtime : Type := mkRuntime {
  (** [pd.read_csv(path, sep='\t', low_memory=...)]: the table parsed from
      the file at [path], or the exception of a missing or unreadable file. *)
  read_csv : string -> bool -> exn + DataFrame;
  (** The float a string parses to under [pd.to_numeric]; [None] when it is
      not numeric. *)
  float_of_string : string -> option float;
  (** Python's [repr] of a list of strings, as an f-string prints it. *)
  repr_list : list string -> string
}.

Section Script.

Variable py : Runtime.

(** [pd.to_numeric(s, errors='coerce')], element-wise, on a column of text,
    numbers and missing values: a number stays, a text is parsed or becomes
    missing. pandas leaves a column of dtype bool as it is; the theorems that
    read coerced cells are stated for columns without a Bool cell. *)
Definition to_numeric (c : cell) : float :=
  match c with
  | Num x => x
  | Bool b => float_of_bool b
  | Str s => match float_of_string py s with
             | Some x => x
             | None => nan
             end
  end.

Definition coerce (c : string) (df : DataFrame) : DataFrame :=
  assign c (fun r => Num (to_numeric (get r c))) df.

(** *** load_zim_db *)

Definition required : list string := ["chr"; "start"; "ref"; "alt"].

Definition missing_identity_msg (r : string) (df : DataFrame) : string :=
  "Zimbabwe DB file must contain a '" ++ r ++ "' column "
  ++ "(case-insensitive). Got: " ++ repr_list py (columns df).

Definition missing_frequency_msg : string :=
  "Zimbabwe DB must have zim_AF or zim_AC + zim_AN (case-insensitive).".

Definition zim_columns : list string := ["Chr"; "Start"; "Ref"; "Alt"; "zim_AF"].

(** Lines 31-48: make sure zim_AF exists, or compute it from AC/AN. *)
Definition ensure_zim_af (cols : dict) (df : DataFrame) : M DataFrame :=
  if negb (dict_has cols "zim_af") then
    if dict_has cols "zim_ac" && dict_has cols "zim_an" then
      c_ac <- dict_item cols "zim_ac" ;;
      c_an <- dict_item cols "zim_an" ;;
      let df1 := coerce c_ac df in
      let df2 := coerce c_an df1 in
      ret (assign "zim_AF"
             (fun r => Num (as_float (get r c_ac) / as_float (get r c_an))%float) df2)
    else raise (SystemExit missing_frequency_msg)
  else
    c_af <- dict_item cols "zim_af" ;;
    if negb (String.eqb c_af "zim_AF")
    then ret (rename [(c_af, "zim_AF")] df)
    else ret df.

(** The body of [load_zim_db] once the file is parsed. *)
Definition load_zim_frame (df : DataFrame) : M DataFrame :=
  let cols : dict := map (fun c => (PyStr.lower c, c)) (columns df) in
  for_each required (fun r =>
    if negb (dict_has cols r)
    then raise (SystemExit (missing_identity_msg r df))
    else ret tt) ;;;
  df1 <- ensure_zim_af cols df ;;
  k_chr <- dict_item cols "chr" ;;
  k_start <- dict_item cols "start" ;;
  k_ref <- dict_item cols "ref" ;;
  k_alt <- dict_item cols "alt" ;;
  let df2 := rename [(k_chr, "Chr"); (k_start, "Start"); (k_ref, "Ref"); (k_alt, "Alt")]
                    df1 in
  ret (select_cols zim_columns df2).

Definition load_zim_db (path : string) : M DataFrame :=
  df <- lift (read_csv py path true) ;;
  load_zim_frame df.

(** *** _make_gnomad_max_col *)

(** Lines 70-71: the loop that coerces each candidate. *)
Fixpoint coerce_all (candidates : list string) (df : DataFrame) : M DataFrame :=
  match candidates with
  | [] => ret df
  | c :: t => getitem df c ;;; coerce_all t (coerce c df)
  end.

Definition row_max (candidates : list string) (r : row) : cell :=
  Num (nanmax (map (fun c => as_float (get r c)) candidates)).

(** The table is updated in place in Python; here the updated table is
    returned next to the name. *)
Definition _make_gnomad_max_col (df : DataFrame) (candidates : list string)
  (new_name : string) : M (DataFrame * option string) :=
  match candidates with
  | [] => ret (df, None)
  | _ =>
      df1 <- coerce_all candidates df ;;
      ret (assign new_name (row_max candidates) df1, Some new_name)
  end.

(** *** prioritise *)

Definition core_columns : list string := ["Chr"; "Start"; "End"; "Ref"; "Alt"].

Definition missing_core_msg (col : string) : string :=
  "Missing required column '" ++ col ++ "' in multianno file.".

(** Lines 82-89. *)
Definition read_annotation (multianno_path : string) : M DataFrame :=
  print ("Reading ANNOVAR multianno file: " ++ multianno_path) ;;;
  ann <- lift (read_csv py multianno_path false) ;;
  print ("  n = " ++ PyStr.of_nat (len ann) ++ " variants before filtering") ;;;
  for_each core_columns (fun col =>
    if negb (PyStr.mem col (columns ann))
    then raise (SystemExit (missing_core_msg col))
    else ret tt) ;;;
  ret ann.

Definition gnomad_all_candidates (ann : DataFrame) : list string :=
  filter (fun c => PyStr.startswith c "AF"
                   && negb (PyStr.contains "afr" (PyStr.lower c)))
         (columns ann).

Definition gnomad_afr_candidates (ann : DataFrame) : list string :=
  filter (fun c => PyStr.contains "afr" (PyStr.lower c)
                   && PyStr.startswith c "AF")
         (columns ann).

Definition str_of_name (n : option string) : string :=
  match n with
  | Some s => s
  | None => "None"
  end.

(** Lines 95-109: both candidate lists are taken from the header as read,
    then the two max columns are built one after the other. *)
Definition gnomad_columns (ann : DataFrame)
  : M (DataFrame * option string * option string) :=
  let all_c := gnomad_all_candidates ann in
  let afr_c := gnomad_afr_candidates ann in
  r1 <- _make_gnomad_max_col ann all_c "gnomad_AF_max" ;;
  r2 <- _make_gnomad_max_col (fst r1) afr_c "gnomad_AFR_AF_max" ;;
  print "Using gnomAD columns:" ;;;
  print ("  global AF (max over " ++ repr_list py all_c ++ ") -> " ++ str_of_name (snd r1)) ;;;
  print ("  AFR AF   (max over " ++ repr_list py afr_c ++ ") -> " ++ str_of_name (snd r2)) ;;;
  ret (fst r2, snd r1, snd r2).

Definition on_keys : list string := ["Chr"; "Start"; "Ref"; "Alt"].

(** Lines 117-124: the left join, then zim_AF filled with 0.0. *)
Definition merge_zim (ann zim : DataFrame) : M DataFrame :=
  merged <- merge_left ann zim on_keys ;;
  getitem merged "zim_AF" ;;;
  ret (assign "zim_AF" (fun r => fillna 0 (get r "zim_AF")) merged).

Definition func_col : string := "Func.refGene".
Definition exonic_func_col : string := "ExonicFunc.refGene".

Definition lof_terms : list string :=
  ["frameshift_deletion"; "frameshift_insertion"; "frameshift_variant";
   "stopgain"; "stoploss"; "splicing"; "splice_site"].

Definition missense_terms : list string := ["nonsynonymous SNV"; "missense_variant"].

Definition synonymous_terms : list string := ["synonymous SNV"; "synonymous_variant"].

Definition impact_warning : string :=
  "WARNING: Func.refGene / ExonicFunc.refGene not found; "
  ++ "skipping consequence-based filters.".

Definition cond_lof (r : row) : bool :=
  isin lof_terms (get r exonic_func_col) || str_contains "splicing" (get r func_col).

Definition cond_missense (r : row) : bool := isin missense_terms (get r exonic_func_col).

Definition cond_synonymous (r : row) : bool :=
  isin synonymous_terms (get r exonic_func_col).

(** [Series.str]: only a column of dtype object has the accessor. *)
Definition str_accessor (df : DataFrame) (c : string) : M unit :=
  if is_object (values df c) then ret tt
  else raise AttributeError.

Definition mask_of (f : row -> bool) (df : DataFrame) : list bool :=
  map (fun ir => f (snd ir)) (body df).

(** Lines 127-152. *)
Definition impact_tier (merged : DataFrame) : M DataFrame :=
  if negb (PyStr.mem func_col (columns merged))
     || negb (PyStr.mem exonic_func_col (columns merged))
  then
    print impact_warning ;;;
    ret (assign "impact_tier" (fun _ => Str "unknown") merged)
  else
    str_accessor merged func_col ;;;
    let m_lof := mask_of cond_lof merged in
    let m_missense := mask_of cond_missense merged in
    let m_synonymous := mask_of cond_synonymous merged in
    let m0 := assign "impact_tier" (fun _ => Str "other") merged in
    let m1 := loc_set m_synonymous "impact_tier" (Str "synonymous") m0 in
    let m2 := loc_set m_missense "impact_tier" (Str "missense") m1 in
    ret (loc_set m_lof "impact_tier" (Str "LoF") m2).

(** One of the two gnomAD conjuncts of lines 155-163. *)
Definition freq_conjunct (merged : DataFrame) (name : option string)
  (threshold : float) (freq_mask : list bool) : M (list bool) :=
  match name with
  | None => ret freq_mask
  | Some g =>
      s <- getitem merged g ;;
      le <- series_le s threshold ;;
      ret (mask_and freq_mask (mask_or (map (fun p => isna (snd p)) s) le))
  end.

(** Lines 155-171. *)
Definition final_mask (merged : DataFrame) (gnomad_all gnomad_afr : option string)
  (max_gnomad_af max_gnomad_afr_af max_zim_af : float) : M (list bool) :=
  let freq_mask := repeat true (len merged) in
  freq_mask <- freq_conjunct merged gnomad_all max_gnomad_af freq_mask ;;
  freq_mask <- freq_conjunct merged gnomad_afr max_gnomad_afr_af freq_mask ;;
  s <- getitem merged "zim_AF" ;;
  zim_mask <- series_le s max_zim_af ;;
  s <- getitem merged "impact_tier" ;;
  let impact_mask := map (fun p => isin ["LoF"; "missense"] (snd p)) s in
  ret (mask_and (mask_and freq_mask zim_mask) impact_mask).

Definition flag_threshold : float := 0.01%float.

Definition flag_column (merged : DataFrame) (source : option string)
  (flag : string) (filtered : DataFrame) : M DataFrame :=
  match source with
  | None => ret filtered
  | Some g =>
      s <- getitem merged g ;;
      f <- series_gt s flag_threshold ;;
      ret (assign_aligned flag f filtered)
  end.

(** Lines 176-181. *)
Definition flags (merged : DataFrame) (gnomad_all gnomad_afr : option string)
  (filtered : DataFrame) : M DataFrame :=
  filtered <- flag_column merged (Some "zim_AF") "flag_high_zim_af" filtered ;;
  filtered <- flag_column merged gnomad_all "flag_common_gnomad" filtered ;;
  flag_column merged gnomad_afr "flag_common_gnomad_afr" filtered.

Definition out_all (out_prefix : string) : string := out_prefix ++ ".zim_annotated.tsv".
Definition out_filtered (out_prefix : string) : string :=
  out_prefix ++ ".zim_prioritised.tsv".

Definition prioritise (multianno_path zim_db_path out_prefix : string)
  (max_gnomad_af max_gnomad_afr_af max_zim_af : float) : M unit :=
  ann <- read_annotation multianno_path ;;
  g <- gnomad_columns ann ;;
  let ann := fst (fst g) in
  let gnomad_all := snd (fst g) in
  let gnomad_afr := snd g in
  print ("Reading Zimbabwe cohort DB: " ++ zim_db_path) ;;;
  zim <- load_zim_db zim_db_path ;;
  print ("  n = " ++ PyStr.of_nat (len zim) ++ " distinct cohort variants") ;;;
  merged <- merge_zim ann zim ;;
  merged <- impact_tier merged ;;
  mask <- final_mask merged gnomad_all gnomad_afr
                     max_gnomad_af max_gnomad_afr_af max_zim_af ;;
  let filtered := select_rows mask merged in
  print ("  n = " ++ PyStr.of_nat (len filtered)
         ++ " variants after global+AFR+Zimbabwe AF and impact filters") ;;;
  filtered <- flags merged gnomad_all gnomad_afr filtered ;;
  to_csv (out_all out_prefix) merged ;;;
  to_csv (out_filtered out_prefix) filtered ;;;
  print ("Wrote annotated file (with zim_AF)  : " ++ out_all out_prefix) ;;;
  print ("Wrote prioritised variant list      : " ++ out_filtered out_prefix).

(** *** main: the thresholds default to 0.01, 0.01 and 0.05 *)

Record Namespace : Type := mkArgs {
  multianno : string;
  zim_db : string;
  out_prefix_arg : string;
  max_gnomad_af_arg : option float;
  max_gnomad_afr_af_arg : option float;
  max_zim_af_arg : option float
}.

Definition default (d : float) (o : option float) : float :=
  match o with
  | Some x => x
  | None => d
  end.

Definition main (args : Namespace) : M unit :=
  prioritise (multianno args) (zim_db args) (out_prefix_arg args)
             (default 0.01%float (max_gnomad_af_arg args))
             (default 0.01%float (max_gnomad_afr_af_arg args))
             (default 0.05%float (max_zim_af_arg args)).

End Script.


(* ================================================================== *)
(** ** The predicates the filter is specified by *)
(* ================================================================== *)

(** The frequency predicate for one source: trivially true when the max
    column was not created, else the value is missing or within threshold. *)
Definition freq_ok (name : option string) (threshold : float) (r : row) : bool :=
  match name with
  | None => true
  | Some g => isna (get r g) || le_cell threshold (get r g)
  end.

Definition cohort_ok (max_zim_af : float) (r : row) : bool :=
  le_cell max_zim_af (get r "zim_AF").

Definition impact_ok (r : row) : bool :=
  isin ["LoF"; "missense"] (get r "impact_tier").

(** The name a max column gets, [None] when there is no candidate. *)
Definition created (candidates : list string) (new_name : string) : option string :=
  match candidates with
  | [] => None
  | _ => Some new_name
  end.

(** The impact tier by precedence: LoF over missense over synonymous over
    other. *)
Definition tier_by_precedence (r : row) : string :=
  if cond_lof r then "LoF"
  else if cond_missense r then "missense"
  else if cond_synonymous r then "synonymous"
  else "other".

(** [m] is the maximum of the values of [vs] that are not missing, and is
    missing when there is none. *)
Definition is_max_of_present (vs : list float) (m : float) : Prop :=
  match filter (fun v => negb (is_nan v)) vs with
  | [] => is_nan m = true
  | present => In m present /\ forall v, In v present -> (v <=? m)%float = true
  end.

(** The conjunction of the three predicates. *)
Definition keep (ga gr : option string) (t1 t2 t3 : float) (r : row) : bool :=
  freq_ok ga t1 r && freq_ok gr t2 r && cohort_ok t3 r && impact_ok r.

(** A computation that prints and writes nothing. *)
Definition silent {A} (m : M A) : Prop := fst m = [].

(** A computation that writes no file. *)
Definition quiet {A} (m : M A) : Prop := written (fst m) = [].

(** The flag column computed from the merged table: the fixed threshold. *)
Definition flag_series (merged : DataFrame) (g : string) : Series :=
  map (fun ir => (fst ir, Bool (gt_cell flag_threshold (get (snd ir) g)))) (body merged).

Definition with_flag (merged : DataFrame) (source : option string) (flag : string)
  (filtered : DataFrame) : DataFrame :=
  match source with
  | None => filtered
  | Some g => assign_aligned flag (flag_series merged g) filtered
  end.

(** The rows a flag is attached to: those of the frame, or, for a frame
    without rows, one row of missing values per row of the merged table. *)
Definition reindexed (merged f : DataFrame) : list (nat * row) :=
  match body f with
  | [] => map (fun ir => (fst ir, nan_row (columns f))) (body merged)
  | rows => rows
  end.

(** One flag on one row with the index label [i]. *)
Definition flag_row (merged : DataFrame) (source : option string) (flag : string)
  (i : nat) (r : row) : row :=
  match source with
  | None => r
  | Some g => row_set flag (at_label (flag_series merged g) i) r
  end.

(** The three flags of lines 176-181 on one row. *)
Definition flagged (merged : DataFrame) (ga gr : option string) (i : nat) (r : row)
  : row :=
  flag_row merged gr "flag_common_gnomad_afr" i
    (flag_row merged ga "flag_common_gnomad" i
       (flag_row merged (Some "zim_AF") "flag_high_zim_af" i r)).

Section Frames.

Variable py : Runtime.

(** The table after the loop of lines 70-71. *)
Definition coerced (candidates : list string) (df : DataFrame) : DataFrame :=
  fold_left (fun d c => coerce py c d) candidates df.

(** The same loop on one row. *)
Definition coerce_row (candidates : list string) (r : row) : row :=
  fold_left (fun q c => row_set c (Num (to_numeric py (get q c))) q) candidates r.

(** The table [_make_gnomad_max_col] leaves behind. *)
Definition max_col_frame (df : DataFrame) (candidates : list string)
  (new_name : string) : DataFrame :=
  match candidates with
  | [] => df
  | _ => assign new_name (row_max candidates) (coerced candidates df)
  end.

(** The same on one row. *)
Definition max_col_row (candidates : list string) (new_name : string) (r : row)
  : row :=
  match candidates with
  | [] => r
  | _ => row_set new_name (row_max candidates (coerce_row candidates r))
                 (coerce_row candidates r)
  end.

(** The annotation table once both max columns are built. *)
Definition with_max_columns (ann : DataFrame) : DataFrame :=
  max_col_frame
    (max_col_frame ann (gnomad_all_candidates ann) "gnomad_AF_max")
    (gnomad_afr_candidates ann) "gnomad_AFR_AF_max".

Definition gnomad_all_name (ann : DataFrame) : option string :=
  created (gnomad_all_candidates ann) "gnomad_AF_max".

Definition gnomad_afr_name (ann : DataFrame) : option string :=
  created (gnomad_afr_candidates ann) "gnomad_AFR_AF_max".

End Frames.

(** The rows of [merged] that pass the filter: [merged[final_mask]]. *)
Definition selected (merged : DataFrame) (ga gr : option string) (t1 t2 t3 : float)
  : list (nat * row) :=
  filter (fun ir => keep ga gr t1 t2 t3 (snd ir)) (body merged).

(** The prioritised table: the kept rows of [merged], then the flags. *)
Definition prioritised_of (merged : DataFrame) (ga gr : option string)
  (t1 t2 t3 : float) : DataFrame :=
  with_flag merged gr "flag_common_gnomad_afr"
    (with_flag merged ga "flag_common_gnomad"
       (with_flag merged (Some "zim_AF") "flag_high_zim_af"
          (mkDF (columns merged)
                (filter (fun ir => keep ga gr t1 t2 t3 (snd ir)) (body merged))))).

(** The dict of line 21, keyed by the lower-cased label. *)
Definition lowered (df : DataFrame) : dict :=
  map (fun c => (PyStr.lower c, c)) (columns df).

(** The rename of lines 51-56. *)
Definition standard_names (k_chr k_start k_ref k_alt : string) : dict :=
  [(k_chr, "Chr"); (k_start, "Start"); (k_ref, "Ref"); (k_alt, "Alt")].



(** The cohort frequencies a row of the annotation table is joined with:
    one per matching cohort row, or one missing value. *)
Definition joined_freqs (zim : DataFrame) (l : row) : list cell :=
  match filter (row_matches on_keys l) (map snd (body zim)) with
  | [] => [NaN]
  | ms => map (fun z => get z "zim_AF") ms
  end.

(** The rows of the joined table that come from one annotation row, after
    zim_AF is filled. *)
Definition joined_zim (ann zim : DataFrame) (l : row) : list row :=
  map (fun v => (map (fun c => (c, get l c)) (columns ann)
                 ++ [("zim_AF", fillna 0 v)])%list)
      (joined_freqs zim l).

(** A row of the annotated output: the cells of an annotation row, the
    filled cohort frequency, and the impact tier. *)
Definition annotated_row (cols : list string) (l : row) (freq : cell) (tier : string)
  : row :=
  row_set "impact_tier" (Str tier)
          (map (fun c => (c, get l c)) cols ++ [("zim_AF", fillna 0 freq)])%list.

(** A column that is in the header and holds no string: the comparisons
    with a float are defined on it. *)
Definition comparable_column (df : DataFrame) (c : string) : Prop :=
  PyStr.mem c (columns df) = true
  /\ forall ir, In ir (body df) -> is_str (get (snd ir) c) = false.

(* ================================================================== *)
(** ** Predicates on runs and tables used by the properties of the script *)
(* ================================================================== *)

(** A run that either stops on an exception having written nothing, or
    completes having written exactly the files [p1] and [p2], in this order. *)
Definition all_or_nothing (p1 p2 : string) (m : M unit) : Prop :=
  (exists e, snd m = inl e /\ written (fst m) = [])
  \/ (snd m = inr tt /\ map fst (written (fst m)) = [p1; p2]).

(** Two runs that end the same way and whose first written file is the same. *)
Definition same_annotated (m m' : M unit) : Prop :=
  snd m = snd m' /\ hd_error (written (fst m)) = hd_error (written (fst m')).

(** Two silent computations that raise the same exception, or both return. *)
Definition same_status {A B} (m : M A) (m' : M B) : Prop :=
  silent m /\ silent m'
  /\ match snd m, snd m' with
     | inl e, inl e' => e = e'
     | inr _, inr _ => True
     | _, _ => False
     end.

(** The label a created column adds to a header. *)
Definition names_of (o : option string) : list string :=
  match o with
  | Some s => [s]
  | None => []
  end.

(** The flag a max column brings, when the column was created. *)
Definition flag_of (o : option string) (flag : string) : list string :=
  match o with
  | Some _ => [flag]
  | None => []
  end.

(** The labels the script gives to the columns it adds, zim_AF apart. *)
Definition generated_columns : list string :=
  ["gnomad_AF_max"; "gnomad_AFR_AF_max"; "impact_tier";
   "flag_high_zim_af"; "flag_common_gnomad"; "flag_common_gnomad_afr"].

(** The cohort rows an annotation row is joined with. *)
Definition matching (zim : DataFrame) (l : row) : list row :=
  filter (row_matches on_keys l) (map snd (body zim)).

(** A table whose rows hold one cell per label of the header, in the
    header's order: what [read_csv] returns. *)
Definition keyed (df : DataFrame) : Prop :=
  forall ir, In ir (body df) -> map fst (snd ir) = columns df.

(** The row [r'] holds the cells of [r] under every label that is not one of
    the three flags. *)
Definition carries (r' r : row) : Prop :=
  forall c, c <> "flag_high_zim_af" -> c <> "flag_common_gnomad" ->
            c <> "flag_common_gnomad_afr" -> get r' c = get r c.

(** The flags of the row [r'] are the comparisons of the cells of [r0] with
    the fixed 0.01: zim_AF always, a max column when it was created. *)
Definition flags_from (ga gr : option string) (r' r0 : row) : Prop :=
  get r' "flag_high_zim_af" = Bool (gt_cell flag_threshold (get r0 "zim_AF"))
  /\ (forall g, ga = Some g ->
        get r' "flag_common_gnomad" = Bool (gt_cell flag_threshold (get r0 g)))
  /\ (forall g, gr = Some g ->
        get r' "flag_common_gnomad_afr" = Bool (gt_cell flag_threshold (get r0 g))).

(** A row without a value: every cell that is not a flag is missing. *)
Definition blank (r : row) : Prop :=
  forall c, c <> "flag_high_zim_af" -> c <> "flag_common_gnomad" ->
            c <> "flag_common_gnomad_afr" -> get r c = NaN.

(* ================================================================== *)
(** ** Concrete tables and a concrete runtime, for examples *)
(* ================================================================== *)

Module Fixtures.

(** A table as [read_csv] returns it: rows against the header, RangeIndex. *)
Definition frame (cols : list string) (rows : list (list cell)) : DataFrame :=
  mkDF cols (enumerate (map (fun r => combine cols r) rows)).

Definition ann_header : list string :=
  ["Chr"; "Start"; "End"; "Ref"; "Alt"; "ExonicFunc.refGene"; "Func.refGene";
   "AF_global"; "AF_afr"].

(** The row of the end-to-end scenario. *)
Definition ann_stopgain : DataFrame :=
  frame ann_header
    [[Num 1; Num 100; Num 100; Str "A"; Str "T"; Str "stopgain"; Str "exonic";
      Num 0.001; Num 0.0005]].

(** The same variant without the Func.refGene column. *)
Definition ann_no_func : DataFrame :=
  frame ["Chr"; "Start"; "End"; "Ref"; "Alt"; "ExonicFunc.refGene"; "AF_global"]
    [[Num 1; Num 100; Num 100; Str "A"; Str "T"; Str "stopgain"; Num 0.001]].

(** An annotation table without Chr. *)
Definition ann_no_chr : DataFrame :=
  frame ["Start"; "End"; "Ref"; "Alt"; "Gene"]
    [[Num 100; Num 100; Str "A"; Str "T"; Str "BRCA2"]].

Definition zim_empty : DataFrame := frame ["Chr"; "Start"; "Ref"; "Alt"; "zim_AF"] [].

Definition zim_hit : DataFrame :=
  frame ["chr"; "START"; "Ref"; "Alt"; "zim_af"]
    [[Num 1; Num 100; Str "A"; Str "T"; Num 0.10]].

(** Allele count 5 over allele number 0. *)
Definition zim_count_over_zero : DataFrame :=
  frame ["Chr"; "Start"; "Ref"; "Alt"; "zim_AC"; "zim_AN"]
    [[Num 1; Num 100; Str "A"; Str "T"; Num 5; Num 0]].

(** Allele count 0 over allele number 0. *)
Definition zim_zero_over_zero : DataFrame :=
  frame ["Chr"; "Start"; "Ref"; "Alt"; "zim_AC"; "zim_AN"]
    [[Num 1; Num 100; Str "A"; Str "T"; Num 0; Num 0]].

(** Two labels that differ only by case. *)
Definition zim_two_chr : DataFrame :=
  frame ["Chr"; "chr"; "Start"; "Ref"; "Alt"; "zim_AF"]
    [[Num 1; Num 1; Num 100; Str "A"; Str "T"; Num 0.10]].

Definition zim_no_alt : DataFrame :=
  frame ["Chr"; "Start"; "Ref"; "zim_AF"] [[Num 1; Num 100; Str "A"; Num 0.10]].

(** Files by path. *)
Definition disk (files : list (string * DataFrame)) (path : string)
  (low_memory : bool) : exn + DataFrame :=
  match find (fun f => String.eqb (fst f) path) files with
  | Some f => inr (snd f)
  | None => inl (OSError path)
  end.

Definition parse_table : list (string * float) :=
  [("0.001", 0.001%float); ("0.02", 0.02%float); ("0.5", 0.5%float)].

Definition parse (s : string) : option float :=
  match find (fun p => String.eqb (fst p) s) parse_table with
  | Some p => Some (snd p)
  | None => None
  end.

Definition repr (xs : list string) : string :=
  "[" ++ String.concat ", " (map (fun s => "'" ++ s ++ "'") xs) ++ "]".

Definition runtime (files : list (string * DataFrame)) : Runtime :=
  mkRuntime (disk files) parse repr.

(** A table with three candidate columns: 0.001, missing and "0.02" on the
    first row, nothing but missing and non-numeric text on the second. *)
Definition af_table : DataFrame :=
  frame ["AF"; "AF_exome"; "AF_genome"]
    [[Num 0.001; NaN; Str "0.02"]; [NaN; Str "."; NaN]].

(** Two files on disk, and a run with the default thresholds. *)
Definition scenario (ann zim : DataFrame) : Runtime :=
  runtime [("ann.txt", ann); ("zim.tsv", zim)].

Definition run (ann zim : DataFrame) : M unit :=
  prioritise (scenario ann zim) "ann.txt" "zim.tsv" "out"
             0.01%float 0.01%float 0.05%float.

(** The same two files under other names. *)
Definition scenario' (ann zim : DataFrame) : Runtime :=
  runtime [("/data/multianno.txt", ann); ("/data/cohort.tsv", zim)].

Definition run' (ann zim : DataFrame) : M unit :=
  prioritise (scenario' ann zim) "/data/multianno.txt" "/data/cohort.tsv" "/tmp/x"
             0.01%float 0.01%float 0.05%float.

(** The cohort table as the loader returns it. *)
Definition loaded (zim : DataFrame) : DataFrame :=
  match snd (load_zim_db (scenario zim_empty zim) "zim.tsv") with
  | inr z => z
  | inl _ => mkDF [] []
  end.

(** The two tables a run wrote, and the only row of a one-row table. *)
Definition annotated (m : M unit) : DataFrame :=
  match written (fst m) with
  | w :: _ => snd w
  | [] => mkDF [] []
  end.

Definition prioritised (m : M unit) : DataFrame :=
  match written (fst m) with
  | _ :: w :: _ => snd w
  | _ => mkDF [] []
  end.

Definition only_row (df : DataFrame) : row :=
  match body df with
  | ir :: _ => snd ir
  | [] => []
  end.

(** The end-to-end variant twice in the cohort table. *)
Definition zim_twice : DataFrame :=
  frame ["Chr"; "Start"; "Ref"; "Alt"; "zim_AF"]
    [[Num 1; Num 100; Str "A"; Str "T"; Num 0.02];
     [Num 1; Num 100; Str "A"; Str "T"; Num 0.5]].

(** A cohort table whose frequency is text. *)
Definition zim_text : DataFrame :=
  frame ["Chr"; "Start"; "Ref"; "Alt"; "zim_AF"]
    [[Num 1; Num 100; Str "A"; Str "T"; Str "."]].

(** An annotation that already has a zim_AF column. *)
Definition ann_with_zim_af : DataFrame :=
  frame ["Chr"; "Start"; "End"; "Ref"; "Alt"; "ExonicFunc.refGene"; "Func.refGene";
         "zim_AF"]
    [[Num 1; Num 100; Num 100; Str "A"; Str "T"; Str "stopgain"; Str "exonic";
      Num 0]].

(** An annotation whose Func.refGene cells are all missing. *)
Definition ann_func_missing : DataFrame :=
  frame ["Chr"; "Start"; "End"; "Ref"; "Alt"; "ExonicFunc.refGene"; "Func.refGene"]
    [[Num 1; Num 100; Num 100; Str "A"; Str "T"; Str "stopgain"; NaN]].

(** A run with thresholds of its own. *)
Definition run_with (ann zim : DataFrame) (t1 t2 t3 : float) : M unit :=
  prioritise (scenario ann zim) "ann.txt" "zim.tsv" "out" t1 t2 t3.

(** The joined table of a scenario, before the impact tier. *)
Definition joined_table (ann zim : DataFrame) : DataFrame :=
  match snd (merge_zim (with_max_columns (scenario ann zim) ann) (loaded zim)) with
  | inr d => d
  | inl _ => mkDF [] []
  end.

(** The joined table with its impact tier. *)
Definition tiered_table (ann zim : DataFrame) : DataFrame :=
  match snd (impact_tier (joined_table ann zim)) with
  | inr d => d
  | inl _ => mkDF [] []
  end.

(** A cohort file, and the table loaded from it saved under another name. *)
Definition reload (zim : DataFrame) : Runtime :=
  runtime [("zim.tsv", zim); ("standard.tsv", loaded zim)].

(** The command line with nothing but the three required arguments. *)
Definition args_default : Namespace :=
  mkArgs "ann.txt" "zim.tsv" "out" None None None.


(** Two variants: the cohort table [zim_hit] has the first, at frequency
    0.10, and not the second. *)
Definition ann_pair : DataFrame :=
  frame ann_header
    [[Num 1; Num 100; Num 100; Str "A"; Str "T"; Str "stopgain"; Str "exonic";
      Num 0.001; Num 0.0005];
     [Num 1; Num 200; Num 200; Str "G"; Str "C"; Str "nonsynonymous SNV";
      Str "exonic"; Num 0.002; NaN]].

(** One row per case of the classification: a stopgain, a missense and a
    synonymous variant in an exon, a synonymous and a missense variant at a
    splice site, a variant with an unlisted consequence, and a synonymous
    variant whose Func.refGene is missing. *)
Definition ann_tiers : DataFrame :=
  frame ["Chr"; "Start"; "End"; "Ref"; "Alt"; "ExonicFunc.refGene"; "Func.refGene"]
    [[Num 1; Num 100; Num 100; Str "A"; Str "T"; Str "stopgain"; Str "exonic"];
     [Num 1; Num 200; Num 200; Str "A"; Str "T"; Str "nonsynonymous SNV"; Str "exonic"];
     [Num 1; Num 300; Num 300; Str "A"; Str "T"; Str "synonymous SNV"; Str "exonic"];
     [Num 1; Num 400; Num 400; Str "A"; Str "T"; Str "synonymous SNV";
      Str "exonic;splicing"];
     [Num 1; Num 500; Num 500; Str "A"; Str "T"; Str "nonsynonymous SNV";
      Str "splicing"];
     [Num 1; Num 600; Num 600; Str "A"; Str "T"; Str "."; Str "intronic"];
     [Num 1; Num 700; Num 700; Str "A"; Str "T"; Str "synonymous SNV"; NaN]].


(** The labels chr and Chr in this order: the dict of line 21 keeps the
    second. *)
Definition zim_chr_then_Chr : DataFrame :=
  frame ["chr"; "Chr"; "Start"; "Ref"; "Alt"; "zim_AF"]
    [[Num 2; Num 1; Num 100; Str "A"; Str "T"; Num 0.10]].

(** The rows of a run's annotated table that pass its filter. *)
Definition passing (ann : DataFrame) (m : M unit) (t1 t2 t3 : float)
  : list (nat * row) :=
  selected (annotated m) (gnomad_all_name ann) (gnomad_afr_name ann) t1 t2 t3.

(** A column of a table, top to bottom. *)
Definition column (df : DataFrame) (c : string) : list cell := values df c.

End Fixtures.
(* ================================================================== *)
(** ** Facts about binary64 comparisons and division *)
(* ================================================================== *)

Module F.

Lemma is_nan_spec x : is_nan x = true <-> Prim2SF x = S754_nan.
Proof.
  unfold is_nan. rewrite eqb_spec. unfold SFeqb.
  destruct (Prim2SF x) as [s|s| |s m e]; simpl; try destruct s; simpl;
    rewrite ?Z.compare_refl, ?Pos.compare_cont_refl; simpl; split; congruence.
Qed.

Lemma not_nan_spec x : is_nan x = false <-> Prim2SF x <> S754_nan.
Proof.
  rewrite <- is_nan_spec. destruct (is_nan x); split; congruence.
Qed.

Ltac sf_cmp :=
  repeat match goal with
  | |- context [Z.compare ?a ?b] => destruct (Z.compare_spec a b)
  | |- context [Pos.compare_cont Eq ?a ?b] =>
      change (Pos.compare_cont Eq a b) with (Pos.compare a b);
      destruct (Pos.compare_spec a b)
  | H : context [Z.compare ?a ?b] |- _ => destruct (Z.compare_spec a b)
  | H : context [Pos.compare_cont Eq ?a ?b] |- _ =>
      change (Pos.compare_cont Eq a b) with (Pos.compare a b) in H;
      destruct (Pos.compare_spec a b)
  end; simpl in *; subst; try congruence; try lia.

Lemma SFleb_trans a b c :
  SFleb a b = true -> SFleb b c = true -> SFleb a c = true.
Proof.
  unfold SFleb, SFcompare.
  destruct a as [s1|s1| |s1 m1 e1], b as [s2|s2| |s2 m2 e2], c as [s3|s3| |s3 m3 e3];
    try destruct s1; try destruct s2; try destruct s3; simpl; try congruence;
    intros H1 H2; sf_cmp.
Qed.

Lemma SFleb_total a b :
  a <> S754_nan -> b <> S754_nan -> SFleb a b = false -> SFleb b a = true.
Proof.
  unfold SFleb, SFcompare.
  destruct a as [s1|s1| |s1 m1 e1], b as [s2|s2| |s2 m2 e2];
    try destruct s1; try destruct s2; simpl; try congruence; intros H1 H2 H3; sf_cmp.
Qed.

Lemma SFleb_refl a : a <> S754_nan -> SFleb a a = true.
Proof.
  unfold SFleb, SFcompare.
  destruct a as [s|s| |s m e]; try destruct s; simpl; try congruence; intros _;
    rewrite ?Z.compare_refl, ?Pos.compare_cont_refl; reflexivity.
Qed.

Lemma leb_trans x y z :
  (x <=? y)%float = true -> (y <=? z)%float = true -> (x <=? z)%float = true.
Proof. rewrite !leb_spec. apply SFleb_trans. Qed.

Lemma leb_total x y :
  is_nan x = false -> is_nan y = false ->
  (x <=? y)%float = false -> (y <=? x)%float = true.
Proof. rewrite !leb_spec, !not_nan_spec. apply SFleb_total. Qed.

Lemma leb_refl x : is_nan x = false -> (x <=? x)%float = true.
Proof. rewrite leb_spec, not_nan_spec. apply SFleb_refl. Qed.

(** A comparison with a missing operand is false. *)
Lemma leb_nan_l x y : is_nan x = true -> (x <=? y)%float = false.
Proof. rewrite leb_spec, is_nan_spec. intros ->. reflexivity. Qed.

Lemma leb_nan_r x y : is_nan y = true -> (x <=? y)%float = false.
Proof.
  rewrite leb_spec, is_nan_spec. intros ->.
  unfold SFleb, SFcompare. destruct (Prim2SF x); reflexivity.
Qed.

Lemma ltb_nan_r x y : is_nan y = true -> (x <? y)%float = false.
Proof.
  rewrite ltb_spec, is_nan_spec. intros ->.
  unfold SFltb, SFcompare. destruct (Prim2SF x); reflexivity.
Qed.

Lemma leb_not_nan x y :
  (x <=? y)%float = true -> is_nan x = false /\ is_nan y = false.
Proof.
  intros H. split.
  - destruct (is_nan x) eqn:E; [|reflexivity]. now rewrite (leb_nan_l x y E) in H.
  - destruct (is_nan y) eqn:E; [|reflexivity]. now rewrite (leb_nan_r x y E) in H.
Qed.

(** Nothing but -inf is below -inf. *)
Lemma leb_neg_infinity x : (x <=? neg_infinity)%float = true -> x = neg_infinity.
Proof.
  rewrite leb_spec. intros H. apply Prim2SF_inj.
  change (Prim2SF neg_infinity) with (S754_infinity true) in *.
  unfold SFleb, SFcompare in H.
  destruct (Prim2SF x) as [s|s| |s m e]; try destruct s; simpl in H; congruence.
Qed.

Lemma neg_infinity_leb x : is_nan x = false -> (neg_infinity <=? x)%float = true.
Proof.
  rewrite leb_spec, not_nan_spec.
  change (Prim2SF neg_infinity) with (S754_infinity true).
  unfold SFleb, SFcompare.
  destruct (Prim2SF x) as [s|s| |s m e]; try destruct s; simpl; congruence.
Qed.

Lemma div_nan_l x y : is_nan x = true -> is_nan (x / y) = true.
Proof. rewrite !is_nan_spec, div_spec. intros ->. reflexivity. Qed.

Lemma div_nan_r x y : is_nan y = true -> is_nan (x / y) = true.
Proof.
  rewrite !is_nan_spec, div_spec. intros ->.
  unfold SF64div, SFdiv. destruct (Prim2SF x); reflexivity.
Qed.

(** 0/0, with either sign of zero, is missing. *)
Lemma div_zero_zero x y :
  (x =? 0)%float = true -> (y =? 0)%float = true -> is_nan (x / y) = true.
Proof.
  rewrite !eqb_spec, is_nan_spec, div_spec.
  change (Prim2SF 0) with (S754_zero false).
  unfold SFeqb, SFcompare, SF64div, SFdiv.
  destruct (Prim2SF x) as [s|s| |s m e], (Prim2SF y) as [s'|s'| |s' m' e'];
    try destruct s; try destruct s'; simpl; congruence.
Qed.

End F.

(* ================================================================== *)
(** ** The run monad *)
(* ================================================================== *)

Lemma bind_inr {A B} (m : M A) (k : A -> M B) tr b :
  bind m k = (tr, inr b) ->
  exists tr1 a tr2, m = (tr1, inr a) /\ k a = (tr2, inr b) /\ tr = (tr1 ++ tr2)%list.
Proof.
  unfold bind. destruct m as [tr1 [e|a]]; [discriminate|].
  destruct (k a) as [tr2 r] eqn:E. simpl. intros H. injection H as <- ->.
  now exists tr1, a, tr2.
Qed.

Lemma bind_ok {A B} (m : M A) (k : A -> M B) tr a :
  m = (tr, inr a) -> bind m k = ((tr ++ fst (k a))%list, snd (k a)).
Proof. intros ->. reflexivity. Qed.

Lemma bind_fail {A B} (m : M A) (k : A -> M B) tr e :
  m = (tr, inl e) -> bind m k = (tr, inl e).
Proof. intros ->. reflexivity. Qed.

Lemma silent_ret {A} (a : A) : silent (ret a).
Proof. reflexivity. Qed.

Lemma silent_raise {A} e : silent (@raise A e).
Proof. reflexivity. Qed.

Lemma silent_lift {A} (r : exn + A) : silent (lift r).
Proof. reflexivity. Qed.

Lemma silent_bind {A B} (m : M A) (k : A -> M B) :
  silent m -> (forall a, silent (k a)) -> silent (bind m k).
Proof.
  unfold silent, bind. destruct m as [tr [e|a]]; simpl; intros -> H; [reflexivity|].
  apply H.
Qed.

Lemma silent_for_each {A} (xs : list A) f :
  (forall x, silent (f x)) -> silent (for_each xs f).
Proof.
  intros H. induction xs as [|x t IH]; simpl; [apply silent_ret|].
  apply silent_bind; auto.
Qed.

Ltac silence :=
  repeat first
    [ apply silent_ret | apply silent_raise | apply silent_lift
    | apply silent_bind; [|intros ?]
    | apply silent_for_each; intros ?
    | match goal with
      | |- silent (if ?b then _ else _) => destruct b
      | |- silent (match ?x with _ => _ end) => destruct x
      end ].

Lemma silent_getitem df c : silent (getitem df c).
Proof. unfold getitem. silence. Qed.

Lemma silent_series_le s t : silent (series_le s t).
Proof. unfold series_le. silence. Qed.

Lemma silent_series_gt s t : silent (series_gt s t).
Proof. unfold series_gt. silence. Qed.

Lemma silent_dict_item d k : silent (dict_item d k).
Proof. unfold dict_item. silence. Qed.

Lemma silent_merge_left l r on : silent (merge_left l r on).
Proof. unfold merge_left. silence. Qed.

(** A silent computation that succeeds has the empty trace. *)
Lemma silent_inv {A} (m : M A) tr r : silent m -> m = (tr, r) -> tr = [].
Proof. unfold silent. intros H ->. exact H. Qed.

Lemma written_app t1 t2 : written (t1 ++ t2) = (written t1 ++ written t2)%list.
Proof. unfold written. apply flat_map_app. Qed.

Lemma stdout_app t1 t2 : stdout (t1 ++ t2) = (stdout t1 ++ stdout t2)%list.
Proof. unfold stdout. apply flat_map_app. Qed.

(* ================================================================== *)
(** ** Lists, masks and rows *)
(* ================================================================== *)

Lemma combine_map_same {A B C} (f : A -> B) (g : A -> C) l :
  combine (map f l) (map g l) = map (fun x => (f x, g x)) l.
Proof. induction l as [|x l IH]; simpl; [reflexivity|]. now rewrite IH. Qed.

Lemma combine_map_l {A B} (f : A -> B) l :
  combine (map f l) l = map (fun x => (f x, x)) l.
Proof. induction l as [|x l IH]; simpl; [reflexivity|]. now rewrite IH. Qed.

Lemma mask_and_map {A} (f g : A -> bool) l :
  mask_and (map f l) (map g l) = map (fun x => f x && g x) l.
Proof. unfold mask_and. now rewrite combine_map_same, map_map. Qed.

Lemma mask_or_map {A} (f g : A -> bool) l :
  mask_or (map f l) (map g l) = map (fun x => f x || g x) l.
Proof. unfold mask_or. now rewrite combine_map_same, map_map. Qed.

Lemma repeat_true_map {A} (l : list A) :
  repeat true (length l) = map (fun _ => true) l.
Proof. induction l as [|x l IH]; simpl; [reflexivity|]. now rewrite IH. Qed.

Lemma select_rows_map (f : nat * row -> bool) df :
  select_rows (map f (body df)) df = mkDF (columns df) (filter f (body df)).
Proof.
  unfold select_rows. f_equal. rewrite combine_map_l.
  induction (body df) as [|x l IH]; simpl; [reflexivity|].
  destruct (f x); simpl; now rewrite IH.
Qed.

Lemma loc_set_map (f : nat * row -> bool) c v cols (l : list (nat * row)) :
  loc_set (map f l) c v (mkDF cols l)
  = mkDF cols (map (fun ir => if f ir then (fst ir, row_set c v (snd ir)) else ir) l).
Proof.
  unfold loc_set. simpl. f_equal. rewrite combine_map_l, map_map. reflexivity.
Qed.

Lemma get_row_set_eq c v r : get (row_set c v r) c = v.
Proof.
  unfold get. induction r as [|[k w] r IH]; simpl.
  - now rewrite String.eqb_refl.
  - destruct (String.eqb k c) eqn:E; simpl; rewrite E; [reflexivity|exact IH].
Qed.

Lemma get_row_set_neq c c' v r : c <> c' -> get (row_set c v r) c' = get r c'.
Proof.
  intros N. unfold get. induction r as [|[k w] r IH]; simpl.
  - destruct (String.eqb c c') eqn:E; [apply String.eqb_eq in E; contradiction|reflexivity].
  - destruct (String.eqb k c) eqn:E; simpl.
    + apply String.eqb_eq in E. subst k.
      destruct (String.eqb c c') eqn:E'; [apply String.eqb_eq in E'; contradiction|reflexivity].
    + destruct (String.eqb k c'); [reflexivity|exact IH].
Qed.

Lemma mem_In x xs : PyStr.mem x xs = true <-> In x xs.
Proof.
  unfold PyStr.mem. rewrite existsb_exists. split.
  - intros (y & Hy & E). apply String.eqb_eq in E. now subst.
  - intros H. exists x. split; [exact H|apply String.eqb_refl].
Qed.

Lemma mem_false x xs : PyStr.mem x xs = false <-> ~ In x xs.
Proof.
  rewrite <- mem_In. destruct (PyStr.mem x xs); split; congruence.
Qed.

Lemma index_assign c f df : index (assign c f df) = index df.
Proof. unfold index, assign. simpl. rewrite map_map. reflexivity. Qed.

Lemma map_fst_combine {A B} (l : list A) (l' : list B) :
  length l = length l' -> map fst (combine l l') = l.
Proof.
  revert l'. induction l as [|x l IH]; intros [|y l'] H; simpl in *;
    try reflexivity; try discriminate.
  f_equal. apply IH. now injection H.
Qed.

Lemma map_snd_combine {A B} (l : list A) (l' : list B) :
  length l = length l' -> map snd (combine l l') = l'.
Proof.
  revert l'. induction l as [|x l IH]; intros [|y l'] H; simpl in *;
    try reflexivity; try discriminate.
  f_equal. apply IH. now injection H.
Qed.

Lemma index_enumerate {A} (xs : list A) :
  map fst (enumerate xs) = seq 0 (length xs).
Proof. unfold enumerate. apply map_fst_combine. now rewrite length_seq. Qed.

Lemma rows_enumerate {A} (xs : list A) : map snd (enumerate xs) = xs.
Proof. unfold enumerate. apply map_snd_combine. now rewrite length_seq. Qed.

Lemma NoDup_index_enumerate {A} (xs : list A) : NoDup (map fst (enumerate xs)).
Proof. rewrite index_enumerate. apply seq_NoDup. Qed.

(* ================================================================== *)
(** ** What each stage of the script computes *)
(* ================================================================== *)

Lemma silent_quiet {A} (m : M A) : silent m -> quiet m.
Proof. unfold silent, quiet. intros ->. reflexivity. Qed.

Lemma quiet_print s : quiet (print s).
Proof. reflexivity. Qed.

Lemma quiet_bind {A B} (m : M A) (k : A -> M B) :
  quiet m -> (forall a, quiet (k a)) -> quiet (bind m k).
Proof.
  unfold quiet, bind. destruct m as [tr [e|a]]; simpl; intros Hm Hk; [exact Hm|].
  rewrite written_app, Hm. apply Hk.
Qed.

Lemma quiet_inv {A} (m : M A) tr r : quiet m -> m = (tr, r) -> written tr = [].
Proof. unfold quiet. intros H ->. exact H. Qed.

Ltac bind_inv H :=
  let tr1 := fresh "tr" in
  let a := fresh "a" in
  let tr2 := fresh "tr" in
  let H1 := fresh "S" in
  let H2 := fresh "K" in
  let E := fresh "Etr" in
  apply bind_inr in H; destruct H as (tr1 & a & tr2 & H1 & H2 & E).

Tactic Notation "bind_name" hyp(H) "as" ident(a) ident(S) ident(K) :=
  let tr1 := fresh "tr" in
  let tr2 := fresh "tr" in
  let E := fresh "Etr" in
  apply bind_inr in H; destruct H as (tr1 & a & tr2 & S & K & E).

(** One [print] or [to_csv] step: the event is known, the value is [tt]. *)
Ltac effect_inv H K :=
  let tr1 := fresh "tr" in
  let tr2 := fresh "tr" in
  let E := fresh "Etr" in
  let u := fresh "u" in
  let S := fresh "S" in
  apply bind_inr in H; destruct H as (tr1 & u & tr2 & S & K & E);
  first [unfold print in S | unfold to_csv in S];
  injection S as <- _; clear u.

Lemma getitem_inr df c tr s :
  getitem df c = (tr, inr s) ->
  s = map (fun ir => (fst ir, get (snd ir) c)) (body df)
  /\ PyStr.mem c (columns df) = true /\ tr = [].
Proof.
  unfold getitem. destruct (PyStr.mem c (columns df)); [|discriminate].
  intros H. injection H as <- <-. auto.
Qed.

Lemma getitem_ok df c :
  PyStr.mem c (columns df) = true ->
  getitem df c = ([], inr (map (fun ir => (fst ir, get (snd ir) c)) (body df))).
Proof. unfold getitem. now intros ->. Qed.

Lemma series_le_inr s t tr m :
  series_le s t = (tr, inr m) ->
  m = map (fun p => le_cell t (snd p)) s
  /\ existsb (fun p => is_str (snd p)) s = false /\ tr = [].
Proof.
  unfold series_le. destruct (existsb _ s); [discriminate|].
  intros H. injection H as <- <-. auto.
Qed.

Lemma series_gt_inr s t tr m :
  series_gt s t = (tr, inr m) ->
  m = map (fun p => (fst p, Bool (gt_cell t (snd p)))) s
  /\ existsb (fun p => is_str (snd p)) s = false /\ tr = [].
Proof.
  unfold series_gt. destruct (existsb _ s); [discriminate|].
  intros H. injection H as <- <-. auto.
Qed.

Lemma freq_conjunct_inr merged name t (f : nat * row -> bool) tr m :
  freq_conjunct merged name t (map f (body merged)) = (tr, inr m) ->
  m = map (fun ir => f ir && freq_ok name t (snd ir)) (body merged).
Proof.
  unfold freq_conjunct, freq_ok. destruct name as [g|].
  - intros H. bind_inv H. bind_inv K.
    apply getitem_inr in S as (-> & _ & _).
    apply series_le_inr in S0 as (-> & _ & _).
    injection K0 as <- <-.
    rewrite !map_map. simpl.
    rewrite (mask_or_map (fun ir => isna (get (snd ir) g))
                         (fun ir => le_cell t (get (snd ir) g))).
    now rewrite mask_and_map.
  - intros H. injection H as <- <-.
    apply map_ext. intros ir. now rewrite andb_true_r.
Qed.

Lemma final_mask_inr merged ga gr t1 t2 t3 tr mask :
  final_mask merged ga gr t1 t2 t3 = (tr, inr mask) ->
  mask = map (fun ir => keep ga gr t1 t2 t3 (snd ir)) (body merged).
Proof.
  unfold final_mask, len. rewrite repeat_true_map. intros H.
  bind_inv H. apply freq_conjunct_inr in S. subst a.
  bind_inv K. apply freq_conjunct_inr in S. subst a.
  bind_inv K0. apply getitem_inr in S as (-> & _ & _).
  bind_inv K. apply series_le_inr in S as (-> & _ & _).
  bind_inv K0. apply getitem_inr in S as (-> & _ & _).
  injection K as <- <-.
  rewrite !map_map. simpl.
  rewrite !mask_and_map. apply map_ext. intros ir.
  unfold keep, cohort_ok, impact_ok. reflexivity.
Qed.

Lemma flag_column_inr merged source flag f0 tr f :
  flag_column merged source flag f0 = (tr, inr f) ->
  f = with_flag merged source flag f0 /\ tr = [].
Proof.
  unfold flag_column, with_flag. destruct source as [g|].
  - intros H. bind_inv H. bind_inv K.
    apply getitem_inr in S as (-> & _ & ->).
    apply series_gt_inr in S0 as (-> & _ & ->).
    injection K0 as <- <-. subst. rewrite map_map. split; reflexivity.
  - intros H. injection H as <- <-. auto.
Qed.

Lemma flags_inr merged ga gr f0 tr f :
  flags merged ga gr f0 = (tr, inr f) ->
  f = with_flag merged gr "flag_common_gnomad_afr"
        (with_flag merged ga "flag_common_gnomad"
           (with_flag merged (Some "zim_AF") "flag_high_zim_af" f0))
  /\ tr = [].
Proof.
  unfold flags. intros H. bind_inv H. bind_inv K.
  apply flag_column_inr in S as (-> & ->).
  apply flag_column_inr in S0 as (-> & ->).
  apply flag_column_inr in K0 as (-> & ->).
  subst. auto.
Qed.

Lemma at_label_map (h : row -> cell) (l : list (nat * row)) i r :
  NoDup (map fst l) -> In (i, r) l ->
  at_label (map (fun ir => (fst ir, h (snd ir))) l) i = h r.
Proof.
  unfold at_label. induction l as [|[j q] l IH]; simpl; [contradiction|].
  intros ND [E|Hin].
  - injection E as -> ->. now rewrite Nat.eqb_refl.
  - inversion ND as [|? ? Hnot ND']; subst.
    destruct (Nat.eqb j i) eqn:E.
    + apply Nat.eqb_eq in E. subst j. exfalso. apply Hnot.
      change i with (fst (i, r)). now apply in_map.
    + now apply IH.
Qed.

Lemma row_set_row_set c v w r : row_set c v (row_set c w r) = row_set c v r.
Proof.
  induction r as [|[k x] r IH]; simpl.
  - now rewrite String.eqb_refl.
  - destruct (String.eqb k c) eqn:E; simpl; rewrite E; [reflexivity|now rewrite IH].
Qed.

Lemma loc_set_map2 (f : row -> bool) (g : row -> row) c v cols
  (l : list (nat * row)) :
  loc_set (map (fun ir => f (snd ir)) l) c v
          (mkDF cols (map (fun ir => (fst ir, g (snd ir))) l))
  = mkDF cols (map (fun ir => (fst ir, (fun r => if f r then row_set c v (g r)
                                                 else g r) (snd ir))) l).
Proof.
  unfold loc_set. simpl. f_equal. rewrite combine_map_same, map_map.
  apply map_ext. intros ir. simpl. now destruct (f (snd ir)).
Qed.

(** The four assignments of lines 149-152 amount to one, by precedence. *)
Lemma impact_assignments merged :
  let m0 := assign "impact_tier" (fun _ => Str "other") merged in
  let m1 := loc_set (mask_of cond_synonymous merged) "impact_tier" (Str "synonymous") m0 in
  let m2 := loc_set (mask_of cond_missense merged) "impact_tier" (Str "missense") m1 in
  loc_set (mask_of cond_lof merged) "impact_tier" (Str "LoF") m2
  = assign "impact_tier" (fun r => Str (tier_by_precedence r)) merged.
Proof.
  unfold mask_of, assign, loc_set. simpl.
  repeat (rewrite combine_map_same, map_map).
  f_equal. apply map_ext. intros [i r]. simpl.
  unfold tier_by_precedence.
  destruct (cond_lof r), (cond_missense r), (cond_synonymous r); simpl;
    now rewrite ?row_set_row_set.
Qed.

Lemma impact_tier_inr merged0 tr merged :
  impact_tier merged0 = (tr, inr merged) ->
  (PyStr.mem func_col (columns merged0) && PyStr.mem exonic_func_col (columns merged0)
   = false ->
   merged = assign "impact_tier" (fun _ => Str "unknown") merged0
   /\ tr = [Printed impact_warning])
  /\ (PyStr.mem func_col (columns merged0) && PyStr.mem exonic_func_col (columns merged0)
      = true ->
      merged = assign "impact_tier" (fun r => Str (tier_by_precedence r)) merged0
      /\ tr = []).
Proof.
  unfold impact_tier.
  destruct (PyStr.mem func_col (columns merged0)),
           (PyStr.mem exonic_func_col (columns merged0)); simpl; intros H;
    split; try discriminate; intros _.
  - bind_inv H. injection K as <- <-. rewrite impact_assignments.
    unfold str_accessor in S. destruct (is_object _); [|discriminate].
    injection S as <- <-. subst. auto.
  - injection H as <- <-. auto.
  - injection H as <- <-. auto.
  - injection H as <- <-. auto.
Qed.

Lemma quiet_impact_tier merged : quiet (impact_tier merged).
Proof.
  unfold impact_tier.
  destruct (negb _ || negb _).
  - apply quiet_bind; [apply quiet_print|]. intros _. apply silent_quiet, silent_ret.
  - apply silent_quiet. unfold str_accessor. silence.
Qed.

Lemma for_each_inr {A} (xs : list A) (f : A -> M unit) tr :
  (forall x, silent (f x)) ->
  for_each xs f = (tr, inr tt) ->
  tr = [] /\ forall x, In x xs -> f x = ([], inr tt).
Proof.
  intros Hs. revert tr. induction xs as [|x t IH]; simpl; intros tr H.
  - injection H as <-. split; [reflexivity|contradiction].
  - bind_inv H. destruct a.
    pose proof (silent_inv _ _ _ (Hs x) S) as ->.
    apply IH in K as (-> & Ht). subst. split; [reflexivity|].
    intros y [<-|Hy]; auto.
Qed.

Lemma merge_left_inr l r on tr j :
  merge_left l r on = (tr, inr j) ->
  j = mkDF (map (suffix_x on r) (columns l) ++ map (suffix_y l) (right_payload on r))%list
           (enumerate (flat_map (fun ir => joined on l r (snd ir)) (body l)))
  /\ PyStr.nodupb (columns r) = true
  /\ (forall k, In k on -> PyStr.mem k (columns l) = true /\ PyStr.mem k (columns r) = true)
  /\ existsb (dtype_clash l r) on = false
  /\ tr = [].
Proof.
  unfold merge_left. destruct (PyStr.nodupb (columns r)); simpl; [|discriminate].
  intros H. bind_inv H. destruct a.
  apply for_each_inr in S as (-> & Hk);
    [|intros k; destruct (_ && _); [apply silent_ret|apply silent_raise]].
  destruct (existsb (dtype_clash l r) on); [discriminate|].
  injection K as <- <-. subst. repeat split; auto.
  - specialize (Hk k H). destruct (PyStr.mem k (columns l)); [reflexivity|discriminate].
  - specialize (Hk k H). destruct (PyStr.mem k (columns l)); simpl in Hk; [|discriminate].
    destruct (PyStr.mem k (columns r)); [reflexivity|discriminate].
Qed.

Lemma merge_zim_inr ann zim tr merged0 :
  merge_zim ann zim = (tr, inr merged0) ->
  exists j, merge_left ann zim on_keys = ([], inr j)
            /\ PyStr.mem "zim_AF" (columns j) = true
            /\ merged0 = assign "zim_AF" (fun r => fillna 0 (get r "zim_AF")) j
            /\ tr = [].
Proof.
  unfold merge_zim. intros H. bind_inv H. bind_inv K.
  pose proof (merge_left_inr _ _ _ _ _ S) as (_ & _ & _ & _ & ->).
  apply getitem_inr in S0 as (_ & Hm & ->).
  injection K0 as <- <-. subst. exists a. auto.
Qed.

Lemma silent_merge_zim ann zim : silent (merge_zim ann zim).
Proof.
  unfold merge_zim. silence; [apply silent_merge_left|apply silent_getitem].
Qed.

Section Stages.

Variable py : Runtime.

Lemma columns_coerce c df :
  In c (columns df) -> columns (coerce py c df) = columns df.
Proof.
  intros H. unfold coerce, assign, col_add. simpl.
  apply mem_In in H. now rewrite H.
Qed.

Lemma coerce_all_ok candidates df :
  (forall c, In c candidates -> In c (columns df)) ->
  coerce_all py candidates df = ([], inr (coerced py candidates df)).
Proof.
  revert df. induction candidates as [|c t IH]; intros df H; simpl; [reflexivity|].
  rewrite (bind_ok _ _ [] _ (getitem_ok df c (proj2 (mem_In _ _) (H c (or_introl eq_refl))))).
  simpl. rewrite IH; [reflexivity|].
  intros c' Hc'. rewrite columns_coerce; auto with datatypes.
Qed.

Lemma coerce_all_inr candidates df tr df' :
  coerce_all py candidates df = (tr, inr df') ->
  df' = coerced py candidates df /\ tr = []
  /\ forall c, In c candidates -> In c (columns df).
Proof.
  revert df tr. induction candidates as [|c t IH]; intros df tr H; simpl in *.
  - injection H as <- <-. repeat split. contradiction.
  - bind_inv H. apply getitem_inr in S as (_ & Hm & ->).
    apply IH in K as (-> & -> & Ht). subst. repeat split.
    intros c' [<-|Hc']; [now apply mem_In|].
    rewrite <- (columns_coerce c df); [now apply Ht|now apply mem_In].
Qed.

Lemma make_max_col_ok df candidates new_name :
  (forall c, In c candidates -> In c (columns df)) ->
  _make_gnomad_max_col py df candidates new_name
  = ([], inr (max_col_frame py df candidates new_name, created candidates new_name)).
Proof.
  intros H. unfold _make_gnomad_max_col, max_col_frame, created.
  destruct candidates as [|c t]; [reflexivity|].
  now rewrite (bind_ok _ _ [] _ (coerce_all_ok _ df H)).
Qed.

Lemma make_max_col_inr df candidates new_name tr r :
  _make_gnomad_max_col py df candidates new_name = (tr, inr r) ->
  r = (max_col_frame py df candidates new_name, created candidates new_name)
  /\ tr = [] /\ forall c, In c candidates -> In c (columns df).
Proof.
  unfold _make_gnomad_max_col, max_col_frame, created.
  destruct candidates as [|c t].
  - intros H. injection H as <- <-. repeat split. contradiction.
  - intros H. bind_inv H. apply coerce_all_inr in S as (-> & -> & Hc).
    injection K as <- <-. subst. auto.
Qed.

Lemma columns_coerced candidates df :
  (forall c, In c candidates -> In c (columns df)) ->
  columns (coerced py candidates df) = columns df.
Proof.
  revert df. induction candidates as [|c t IH]; intros df H; simpl; [reflexivity|].
  rewrite IH.
  - apply columns_coerce. auto with datatypes.
  - intros c' Hc'. rewrite columns_coerce; auto with datatypes.
Qed.

Lemma In_col_add c c' cols : In c' cols -> In c' (col_add c cols).
Proof.
  unfold col_add. destruct (PyStr.mem c cols); [auto|]. intros H.
  apply in_or_app. now left.
Qed.

Lemma In_col_add_inv c c' cols : In c' (col_add c cols) -> c' = c \/ In c' cols.
Proof.
  unfold col_add. destruct (PyStr.mem c cols); [auto|]. intros H.
  apply in_app_or in H as [H|[H|[]]]; auto.
Qed.

Lemma ann_columns_max_col df candidates new_name c :
  (forall k, In k candidates -> In k (columns df)) ->
  In c (columns df) -> In c (columns (max_col_frame py df candidates new_name)).
Proof.
  intros Hc H. unfold max_col_frame. destruct candidates as [|k t]; [exact H|].
  unfold assign. cbn [columns]. apply In_col_add.
  rewrite columns_coerced; [exact H|exact Hc].
Qed.

Lemma all_candidates_in ann c :
  In c (gnomad_all_candidates ann) -> In c (columns ann).
Proof. unfold gnomad_all_candidates. intros H. now apply filter_In in H. Qed.

Lemma afr_candidates_in ann c :
  In c (gnomad_afr_candidates ann) -> In c (columns ann).
Proof. unfold gnomad_afr_candidates. intros H. now apply filter_In in H. Qed.

(** Lines 95-109 never raise: the candidates are labels of the table. *)
Lemma gnomad_columns_ok ann :
  exists tr, gnomad_columns py ann
             = (tr, inr (with_max_columns py ann, gnomad_all_name ann,
                         gnomad_afr_name ann))
             /\ written tr = [].
Proof.
  unfold gnomad_columns.
  rewrite (bind_ok _ _ [] _ (make_max_col_ok ann _ "gnomad_AF_max" (all_candidates_in ann))).
  cbn [fst snd app].
  erewrite (bind_ok _ _ [] _ (make_max_col_ok _ _ "gnomad_AFR_AF_max" _)).
  cbn [fst snd app bind print ret].
  eexists. split; reflexivity.
  Unshelve.
  intros c Hc. apply ann_columns_max_col; [apply all_candidates_in|].
  now apply afr_candidates_in.
Qed.

Lemma read_annotation_inr ap tr ann :
  read_annotation py ap = (tr, inr ann) ->
  read_csv py ap false = inr ann
  /\ (forall c, In c core_columns -> PyStr.mem c (columns ann) = true)
  /\ written tr = [].
Proof.
  unfold read_annotation. intros H.
  bind_inv H. bind_inv K. bind_inv K0. bind_inv K. destruct a2.
  injection K0 as <- <-.
  unfold lift in S0. injection S0 as <- ->.
  apply for_each_inr in S2 as (-> & Hc);
    [|intros c; destruct (negb _); [apply silent_raise|apply silent_ret]].
  unfold print in S, S1. injection S as <- _. injection S1 as <- _.
  subst. repeat split; auto.
  intros c Hin. specialize (Hc c Hin).
  destruct (PyStr.mem c (columns a0)); [reflexivity|discriminate].
Qed.

Lemma silent_ensure_zim_af cols df : silent (ensure_zim_af py cols df).
Proof. unfold ensure_zim_af. silence; apply silent_dict_item. Qed.

Lemma silent_load_zim_frame df : silent (load_zim_frame py df).
Proof.
  unfold load_zim_frame. silence;
    try apply silent_dict_item; apply silent_ensure_zim_af.
Qed.

Lemma silent_load_zim_db path : silent (load_zim_db py path).
Proof.
  unfold load_zim_db.
  apply silent_bind; [apply silent_lift|intros df; apply silent_load_zim_frame].
Qed.

Lemma silent_final_mask merged ga gr t1 t2 t3 :
  silent (final_mask merged ga gr t1 t2 t3).
Proof.
  unfold final_mask, freq_conjunct.
  silence; try apply silent_getitem; apply silent_series_le.
Qed.

(** A successful run, stage by stage. *)
Lemma prioritise_inr ap zp pre t1 t2 t3 tr :
  prioritise py ap zp pre t1 t2 t3 = (tr, inr tt) ->
  exists ann zim merged0 merged tr_z tr_i,
    read_csv py ap false = inr ann
    /\ (forall c, In c core_columns -> PyStr.mem c (columns ann) = true)
    /\ load_zim_db py zp = (tr_z, inr zim)
    /\ merge_zim (with_max_columns py ann) zim = ([], inr merged0)
    /\ impact_tier merged0 = (tr_i, inr merged)
    /\ written tr
       = [(out_all pre, merged);
          (out_filtered pre,
           prioritised_of merged (gnomad_all_name ann) (gnomad_afr_name ann)
                          t1 t2 t3)]
    /\ (forall e, In e tr_i -> In e tr).
Proof.
  unfold prioritise. intros H.
  bind_name H as ann Sa K.
  apply read_annotation_inr in Sa as (Hread & Hcore & Wa).
  destruct (gnomad_columns_ok ann) as (tr_g & Hg & Wg).
  bind_name K as g Sg K1. rewrite Hg in Sg. injection Sg as <- <-. cbn [fst snd] in K1.
  effect_inv K1 K2.
  bind_name K2 as zim Sz K3.
  effect_inv K3 K4.
  bind_name K4 as merged0 Sm K5.
  pose proof (silent_inv _ _ _ (silent_merge_zim _ _) Sm) as ->.
  bind_name K5 as merged Si K6.
  bind_name K6 as mask Sk K7.
  pose proof (silent_inv _ _ _ (silent_final_mask _ _ _ _ _ _) Sk) as ->.
  apply final_mask_inr in Sk. subst mask.
  effect_inv K7 K8.
  bind_name K8 as filtered Sf K9.
  apply flags_inr in Sf as (-> & ->).
  rewrite select_rows_map in K9.
  effect_inv K9 K10. effect_inv K10 K11. effect_inv K11 K12.
  unfold print in K12. injection K12 as <-.
  pose proof (silent_inv _ _ _ (silent_load_zim_db zp) Sz) as Ez.
  pose proof (quiet_inv _ _ _ (quiet_impact_tier merged0) Si) as Wi.
  subst. exists ann, zim, merged0, merged, [], tr6.
  repeat split; auto.
  - rewrite !written_app, Wa, Wg, Wi. reflexivity.
  - intros e He. rewrite !in_app_iff. tauto.
Qed.

Lemma NoDup_fst_unique {A B} (l : list (A * B)) i r r' :
  NoDup (map fst l) -> In (i, r) l -> In (i, r') l -> r = r'.
Proof.
  induction l as [|[j q] l IH]; simpl; [contradiction|].
  intros ND H1 H2. inversion ND as [|? ? Hnot ND']; subst.
  destruct H1 as [E1|H1], H2 as [E2|H2].
  - congruence.
  - injection E1 as -> ->. exfalso. apply Hnot.
    change i with (fst (i, r')). now apply in_map.
  - injection E2 as -> ->. exfalso. apply Hnot.
    change i with (fst (i, r)). now apply in_map.
  - now apply IH.
Qed.

Lemma index_impact_tier merged0 tr merged :
  impact_tier merged0 = (tr, inr merged) -> index merged = index merged0.
Proof.
  intros H. apply impact_tier_inr in H as (Hno & Hyes).
  destruct (PyStr.mem func_col (columns merged0)
            && PyStr.mem exonic_func_col (columns merged0)).
  - destruct (Hyes eq_refl) as (-> & _). apply index_assign.
  - destruct (Hno eq_refl) as (-> & _). apply index_assign.
Qed.

Lemma index_merge_zim ann zim tr merged0 :
  merge_zim ann zim = (tr, inr merged0) ->
  index merged0 = seq 0 (len merged0).
Proof.
  intros H. apply merge_zim_inr in H as (j & Hj & _ & -> & _).
  apply merge_left_inr in Hj as (-> & _).
  rewrite index_assign. unfold len, assign, index. cbn [body].
  rewrite length_map, index_enumerate. f_equal.
  unfold enumerate. rewrite length_combine, length_seq. lia.
Qed.

Lemma NoDup_index_merged ann zim tr merged0 tr' merged :
  merge_zim ann zim = (tr, inr merged0) ->
  impact_tier merged0 = (tr', inr merged) ->
  NoDup (index merged).
Proof.
  intros Hm Hi. rewrite (index_impact_tier _ _ _ Hi), (index_merge_zim _ _ _ _ Hm).
  apply seq_NoDup.
Qed.

Lemma freq_ok_created candidates name t r :
  freq_ok (created candidates name) t r = true
  <-> (candidates <> [] -> isna (get r name) = true \/ le_cell t (get r name) = true).
Proof.
  unfold freq_ok, created. destruct candidates as [|c l].
  - split; [intros _ H; now contradiction H|reflexivity].
  - rewrite orb_true_iff. split; [auto|]. intros H. apply H. discriminate.
Qed.

End Stages.

(* ================================================================== *)
(** ** The row-wise maximum *)
(* ================================================================== *)

Lemma fold_fmaximum xs : forall x,
  (forall w, In w (x :: xs) -> is_nan w = false) ->
  In (fold_left fmaximum xs x) (x :: xs)
  /\ forall w, In w (x :: xs) -> (w <=? fold_left fmaximum xs x)%float = true.
Proof.
  induction xs as [|y xs IH]; intros x Hn.
  - simpl. split; [now left|]. intros w [<-|[]]. apply F.leb_refl. apply Hn. now left.
  - cbn [fold_left]. unfold fmaximum at 2 4.
    rewrite (Hn x (or_introl eq_refl)), orb_false_r.
    destruct (y <=? x)%float eqn:E.
    + destruct (IH x) as (Hin & Hub).
      { intros w [<-|Hw]; apply Hn; [now left|right; now right]. }
      split.
      * destruct Hin as [<-|Hin]; [now left|right; now right].
      * intros w [<-|[<-|Hw]].
        -- apply Hub. now left.
        -- apply (F.leb_trans _ x); [exact E|apply Hub; now left].
        -- apply Hub. now right.
    + destruct (IH y) as (Hin & Hub).
      { intros w Hw. apply Hn. now right. }
      split; [now right|].
      intros w [<-|Hw]; [|now apply Hub].
      apply (F.leb_trans _ y); [|apply Hub; now left].
      apply F.leb_total; [apply Hn; right; now left|apply Hn; now left|exact E].
Qed.

Lemma forallb_nan_present vs :
  forallb is_nan vs = true <-> filter (fun v => negb (is_nan v)) vs = [].
Proof.
  induction vs as [|v vs IH]; simpl; [tauto|].
  destruct (is_nan v); simpl; [exact IH|]. split; discriminate.
Qed.

(** pandas' nanmax is the maximum of the values that are present. *)
Lemma nanmax_is_max vs : is_max_of_present vs (nanmax vs).
Proof.
  unfold is_max_of_present, nanmax.
  destruct (forallb is_nan vs) eqn:A.
  - apply forallb_nan_present in A. now rewrite A.
  - set (repl := fun v => if is_nan v then neg_infinity else v).
    assert (Hrepl : forall w, In w (map repl vs) -> is_nan w = false).
    { intros w Hw. apply in_map_iff in Hw as (v & <- & _). unfold repl.
      destruct (is_nan v) eqn:E; [reflexivity|exact E]. }
    assert (Hsub : forall v, In v (filter (fun v => negb (is_nan v)) vs) ->
                             In v (map repl vs) /\ is_nan v = false).
    { intros v Hv. apply filter_In in Hv as (Hv & Hp).
      apply negb_true_iff in Hp. split; [|exact Hp].
      apply in_map_iff. exists v. unfold repl. now rewrite Hp. }
    destruct (filter (fun v => negb (is_nan v)) vs) as [|u present] eqn:P.
    { apply forallb_nan_present in P. congruence. }
    destruct (map repl vs) as [|x xs] eqn:W.
    { destruct (Hsub u (or_introl eq_refl)) as ([] & _). }
    destruct (fold_fmaximum xs x Hrepl) as (Hin & Hub).
    split.
    + rewrite <- W in Hin. apply in_map_iff in Hin as (v & Ev & Hv).
      unfold repl in Ev. destruct (is_nan v) eqn:E.
      * rewrite <- Ev.
        assert (Hu : (u <=? neg_infinity)%float = true).
        { rewrite Ev. apply Hub. apply Hsub. now left. }
        apply F.leb_neg_infinity in Hu. rewrite <- Hu. now left.
      * rewrite <- Ev, <- P. apply filter_In. split; [exact Hv|now rewrite E].
    + intros v Hv. apply Hub. now apply Hsub.
Qed.

Section MaxColumn.

Variable py : Runtime.

Lemma body_coerced candidates : forall df,
  body (coerced py candidates df)
  = map (fun ir => (fst ir, coerce_row py candidates (snd ir))) (body df).
Proof.
  induction candidates as [|c t IH]; intros df.
  - cbn. rewrite <- (map_id (body df)) at 1. apply map_ext. now intros [i r].
  - change (coerced py (c :: t) df) with (coerced py t (coerce py c df)).
    rewrite IH. unfold coerce, assign. cbn [body].
    rewrite map_map. reflexivity.
Qed.

Lemma get_coerce_row candidates c : forall r,
  get (coerce_row py candidates r) c
  = if PyStr.mem c candidates then Num (to_numeric py (get r c)) else get r c.
Proof.
  induction candidates as [|k t IH]; intros r; [reflexivity|].
  cbn [coerce_row fold_left]. unfold coerce_row in IH. rewrite IH.
  unfold PyStr.mem. cbn [existsb]. fold (PyStr.mem c t).
  destruct (String.eqb c k) eqn:E.
  - apply String.eqb_eq in E. subst k. rewrite get_row_set_eq. cbn [orb to_numeric].
    now destruct (PyStr.mem c t).
  - assert (k <> c) by (intros ->; now rewrite String.eqb_refl in E).
    now rewrite get_row_set_neq.
Qed.

Lemma row_max_coerce_row candidates r :
  row_max candidates (coerce_row py candidates r)
  = Num (nanmax (map (fun c => to_numeric py (get r c)) candidates)).
Proof.
  unfold row_max. do 2 f_equal. apply map_ext_in. intros c Hc.
  rewrite get_coerce_row. apply mem_In in Hc. now rewrite Hc.
Qed.

Lemma Forall2_map_graph {A B} (R : A -> B -> Prop) (f : A -> B) l :
  (forall x, In x l -> R x (f x)) -> Forall2 R l (map f l).
Proof.
  induction l as [|x l IH]; intros H; simpl; constructor.
  - apply H. now left.
  - apply IH. intros y Hy. apply H. now right.
Qed.

(** C3. Max-column builder: for a non-empty list of candidate columns of
    the table, whose cells are text, numbers or missing values (no Bool
    cell: a column of dtype bool is not touched by pd.to_numeric), the builder
    returns the new name and a table with the same rows in which every
    candidate cell is the numeric coercion of the original (a string that is
    not numeric becomes missing) and the new column holds, row by row, the
    maximum of the coerced candidate values that are not missing, and a
    missing value when all of them are missing; for the empty list it returns
    the table unchanged and no name. *)
Theorem C3_max_column df candidates new_name :
  (forall c, In c candidates -> In c (columns df)) ->
  (forall ir c, In ir (body df) -> In c candidates ->
                is_bool (get (snd ir) c) = false) ->
  (candidates = [] ->
   _make_gnomad_max_col py df candidates new_name = ([], inr (df, None)))
  /\ (candidates <> [] ->
      exists df',
        _make_gnomad_max_col py df candidates new_name
        = ([], inr (df', Some new_name))
        /\ columns df' = col_add new_name (columns df)
        /\ Forall2
             (fun old new =>
                fst new = fst old
                /\ (forall c, In c candidates -> c <> new_name ->
                      get (snd new) c = Num (to_numeric py (get (snd old) c))
                      /\ forall s, get (snd old) c = Str s ->
                                   float_of_string py s = None ->
                                   isna (get (snd new) c) = true)
                /\ exists m,
                     get (snd new) new_name = Num m
                     /\ is_max_of_present
                          (map (fun c => to_numeric py (get (snd old) c)) candidates) m)
             (body df) (body df')).
Proof.
  intros Hc _. split.
  - intros ->. reflexivity.
  - intros Hne. rewrite (make_max_col_ok py df candidates new_name Hc).
    unfold max_col_frame, created.
    destruct candidates as [|k t] eqn:E; [congruence|]. rewrite <- E in *.
    eexists. split; [reflexivity|]. split.
    + unfold assign. cbn [columns]. now rewrite columns_coerced.
    + unfold assign. cbn [body]. rewrite body_coerced, map_map. cbn [fst snd].
      apply Forall2_map_graph. intros [i r] _. cbn [fst snd].
      split; [reflexivity|]. split.
      * intros c Hin Hneq.
        assert (G : get (row_set new_name (row_max candidates (coerce_row py candidates r))
                                 (coerce_row py candidates r)) c
                    = Num (to_numeric py (get r c))).
        { rewrite get_row_set_neq by congruence. rewrite get_coerce_row.
          apply mem_In in Hin. now rewrite Hin. }
        split; [exact G|]. intros s Hs Hp. rewrite G, Hs. cbn. now rewrite Hp.
      * rewrite get_row_set_eq, row_max_coerce_row. eexists. split; [reflexivity|].
        apply nanmax_is_max.
Qed.

End MaxColumn.

(* ================================================================== *)
(** ** The cohort table loader *)
(* ================================================================== *)

Lemma lift_bind {A B} (a : A) (k : A -> M B) : bind (lift (inr a)) k = k a.
Proof. unfold bind, lift. cbn. now destruct (k a). Qed.

Lemma ret_bind {A B} (a : A) (k : A -> M B) : bind (ret a) k = k a.
Proof. unfold bind, ret. cbn. now destruct (k a). Qed.

Lemma raise_bind {A B} e (k : A -> M B) : bind (raise e) k = raise e.
Proof. reflexivity. Qed.

Lemma eqb_sym_str a b : String.eqb a b = String.eqb b a.
Proof.
  destruct (String.eqb a b) eqn:E, (String.eqb b a) eqn:E'; try reflexivity.
  - apply String.eqb_eq in E. subst. now rewrite String.eqb_refl in E'.
  - apply String.eqb_eq in E'. subst. now rewrite String.eqb_refl in E.
Qed.

Lemma existsb_map_ext {A B} (f : B -> bool) (g : A -> B) (h : A -> bool) l :
  (forall x, f (g x) = h x) -> existsb f (map g l) = existsb h l.
Proof.
  intros H. induction l as [|x l IH]; simpl; [reflexivity|]. now rewrite H, IH.
Qed.

Lemma dict_has_lowered df k :
  dict_has (lowered df) k = PyStr.mem k (map PyStr.lower (columns df)).
Proof.
  unfold dict_has, lowered, PyStr.mem.
  rewrite (existsb_map_ext _ _ (fun c => String.eqb (PyStr.lower c) k)) by reflexivity.
  rewrite (existsb_map_ext _ PyStr.lower (fun c => String.eqb (PyStr.lower c) k));
    [reflexivity|]. intros c. apply eqb_sym_str.
Qed.

Lemma dict_item_inr d k tr c :
  dict_item d k = (tr, inr c) -> In (k, c) d /\ tr = [].
Proof.
  unfold dict_item. destruct (find _ (rev d)) as [[k' c']|] eqn:E; [|discriminate].
  intros H. injection H as <- <-. apply find_some in E as (Hin & Ek).
  apply String.eqb_eq in Ek. simpl in Ek. subst k'.
  split; [now apply in_rev|reflexivity].
Qed.


Lemma In_lowered df k c :
  In (k, c) (lowered df) -> In c (columns df) /\ PyStr.lower c = k.
Proof.
  unfold lowered. intros H. apply in_map_iff in H as (c' & E & Hin).
  injection E as <- <-. auto.
Qed.

Section Loader.

Variable py : Runtime.

Lemma ensure_zim_af_inr df tr df1 :
  ensure_zim_af py (lowered df) df = (tr, inr df1) ->
  tr = []
  /\ ((dict_has (lowered df) "zim_af" = false
       /\ exists c_ac c_an,
            In ("zim_ac", c_ac) (lowered df) /\ In ("zim_an", c_an) (lowered df)
            /\ df1 = assign "zim_AF"
                       (fun r => Num (as_float (get r c_ac) / as_float (get r c_an))%float)
                       (coerce py c_an (coerce py c_ac df)))
      \/ (dict_has (lowered df) "zim_af" = true
          /\ exists c_af,
               In ("zim_af", c_af) (lowered df)
               /\ df1 = if String.eqb c_af "zim_AF" then df
                        else rename [(c_af, "zim_AF")] df)).
Proof.
  unfold ensure_zim_af. destruct (dict_has (lowered df) "zim_af") eqn:Haf; cbn [negb].
  - intros H. bind_name H as c_af S K.
    apply dict_item_inr in S as (Hin & ->).
    split; [destruct (String.eqb c_af "zim_AF"); now injection K as <- _|].
    right. split; [reflexivity|]. exists c_af. split; [exact Hin|].
    destruct (String.eqb c_af "zim_AF"); cbn [negb] in K; now injection K as _ <-.
  - destruct (dict_has (lowered df) "zim_ac" && dict_has (lowered df) "zim_an");
      [|discriminate].
    intros H. bind_name H as c_ac S K. bind_name K as c_an S' K'.
    apply dict_item_inr in S as (Hac & ->). apply dict_item_inr in S' as (Han & ->).
    injection K' as <- <-. subst. split; [reflexivity|].
    left. split; [reflexivity|]. now exists c_ac, c_an.
Qed.

Lemma load_zim_frame_inr df tr zim :
  load_zim_frame py df = (tr, inr zim) ->
  tr = []
  /\ exists df1 k_chr k_start k_ref k_alt,
       ensure_zim_af py (lowered df) df = ([], inr df1)
       /\ In ("chr", k_chr) (lowered df) /\ In ("start", k_start) (lowered df)
       /\ In ("ref", k_ref) (lowered df) /\ In ("alt", k_alt) (lowered df)
       /\ zim = select_cols zim_columns
                  (rename (standard_names k_chr k_start k_ref k_alt) df1).
Proof.
  unfold load_zim_frame. fold (lowered df). intros H.
  bind_name H as u S K. destruct u.
  apply for_each_inr in S as (-> & _);
    [|intros r; destruct (negb _); [apply silent_raise|apply silent_ret]].
  bind_name K as df1 S1 K1.
  pose proof (ensure_zim_af_inr _ _ _ S1) as (-> & _).
  bind_name K1 as k_chr S2 K2. apply dict_item_inr in S2 as (H1 & ->).
  bind_name K2 as k_start S3 K3. apply dict_item_inr in S3 as (H2 & ->).
  bind_name K3 as k_ref S4 K4. apply dict_item_inr in S4 as (H3 & ->).
  bind_name K4 as k_alt S5 K5. apply dict_item_inr in S5 as (H4 & ->).
  injection K5 as <- <-. subst. split; [reflexivity|].
  exists df1, k_chr, k_start, k_ref, k_alt. auto 10.
Qed.

Lemma load_zim_db_inr path tr zim :
  load_zim_db py path = (tr, inr zim) ->
  exists df, read_csv py path true = inr df /\ load_zim_frame py df = ([], inr zim).
Proof.
  unfold load_zim_db. intros H. bind_name H as df S K.
  unfold lift in S. injection S as <- S. exists df. split; [exact S|].
  now pose proof (load_zim_frame_inr _ _ _ K) as (-> & _).
Qed.

Lemma renamed_cases mapping c :
  renamed mapping c = c \/ In (c, renamed mapping c) mapping.
Proof.
  unfold renamed. destruct (find _ (rev mapping)) as [[k n]|] eqn:E; [|now left].
  right. apply find_some in E as (Hin & Ek). apply String.eqb_eq in Ek. simpl in Ek.
  subst k. now apply in_rev.
Qed.

Lemma renamed_lower mapping c :
  (forall k n, In (k, n) mapping -> PyStr.lower k = PyStr.lower n) ->
  PyStr.lower (renamed mapping c) = PyStr.lower c.
Proof.
  intros H. destruct (renamed_cases mapping c) as [->|Hin]; [reflexivity|].
  symmetry. now apply H.
Qed.

Lemma renamed_notin mapping c : ~ In c (map fst mapping) -> renamed mapping c = c.
Proof.
  intros H. destruct (renamed_cases mapping c) as [E|Hin]; [exact E|].
  exfalso. apply H. change c with (fst (c, renamed mapping c)). now apply in_map.
Qed.

Lemma renamed_key mapping k n :
  NoDup (map fst mapping) -> In (k, n) mapping -> renamed mapping k = n.
Proof.
  intros ND Hin. destruct (renamed_cases mapping k) as [E|Hin'].
  - unfold renamed in *. destruct (find _ (rev mapping)) as [[k' n']|] eqn:F.
    + apply find_some in F as (Hin' & Ek). apply String.eqb_eq in Ek. simpl in Ek.
      subst k'. apply in_rev in Hin'. apply (NoDup_fst_unique _ _ _ _ ND Hin' Hin).
    + exfalso. assert (X := find_none _ _ F (k, n)). cbn in X.
      rewrite String.eqb_refl in X. apply Bool.diff_true_false, X. now apply -> in_rev.
  - apply (NoDup_fst_unique _ _ _ _ ND Hin' Hin).
Qed.

Lemma NoDup_map_lower l : NoDup (map PyStr.lower l) -> NoDup l.
Proof. apply NoDup_map_inv. Qed.

Lemma In_col_add_self c cols : In c (col_add c cols).
Proof.
  unfold col_add. destruct (PyStr.mem c cols) eqn:E; [now apply mem_In|].
  apply in_or_app. right. now left.
Qed.

Lemma standard_names_lower k_chr k_start k_ref k_alt :
  PyStr.lower k_chr = "chr" -> PyStr.lower k_start = "start" ->
  PyStr.lower k_ref = "ref" -> PyStr.lower k_alt = "alt" ->
  (forall k n, In (k, n) (standard_names k_chr k_start k_ref k_alt) ->
               PyStr.lower k = PyStr.lower n)
  /\ NoDup (map fst (standard_names k_chr k_start k_ref k_alt)).
Proof.
  intros H1 H2 H3 H4. split.
  - intros k n [E|[E|[E|[E|[]]]]]; injection E as <- <-; assumption.
  - apply NoDup_map_lower. cbn. rewrite H1, H2, H3, H4.
    repeat constructor; cbn; intuition discriminate.
Qed.

(** The header after lines 31-48: zim_AF is there, the other labels stay,
    and labels stay distinct up to case when they were. *)
Lemma ensure_zim_af_columns df df1 :
  ensure_zim_af py (lowered df) df = ([], inr df1) ->
  In "zim_AF" (columns df1)
  /\ (forall c, In c (columns df) -> PyStr.lower c <> "zim_af" -> In c (columns df1))
  /\ (NoDup (map PyStr.lower (columns df)) -> NoDup (map PyStr.lower (columns df1))).
Proof.
  intros H. apply ensure_zim_af_inr in H as (_ & [(Haf & c_ac & c_an & Hac & Han & ->)
                                                |(Haf & c_af & Hin & ->)]).
  - apply In_lowered in Hac as (Hac & _). apply In_lowered in Han as (Han & _).
    assert (E : columns (assign "zim_AF"
                  (fun r => Num (as_float (get r c_ac) / as_float (get r c_an))%float)
                  (coerce py c_an (coerce py c_ac df)))
                = col_add "zim_AF" (columns df)).
    { unfold assign. cbn [columns]. rewrite columns_coerce; rewrite columns_coerce; auto. }
    rewrite E. split; [apply In_col_add_self|]. split.
    + intros c Hc _. now apply In_col_add.
    + intros ND. unfold col_add. destruct (PyStr.mem "zim_AF" (columns df)); [exact ND|].
      rewrite map_app. cbn. rewrite dict_has_lowered in Haf. apply mem_false in Haf.
      apply NoDup_app; [exact ND|repeat constructor; intros []|].
      intros x Hx [<-|[]]. contradiction.
  - apply In_lowered in Hin as (Hin & Hl).
    destruct (String.eqb c_af "zim_AF") eqn:E.
    + apply String.eqb_eq in E. subst c_af. auto.
    + unfold rename. cbn [columns].
      assert (R : renamed [(c_af, "zim_AF")] c_af = "zim_AF").
      { unfold renamed. cbn. now rewrite String.eqb_refl. }
      split; [|split].
      * apply in_map_iff. exists c_af. split; [exact R|exact Hin].
      * intros c Hc Hn. apply in_map_iff. exists c. split; [|exact Hc].
        apply renamed_notin. cbn. intros [->|[]]. contradiction.
      * intros ND. rewrite map_map.
        erewrite map_ext; [exact ND|]. intros c. apply renamed_lower.
        intros k n [Ek|[]]. injection Ek as <- <-. exact Hl.
Qed.

(** The header the loader selects from: the five standard labels are there. *)
Lemma load_zim_frame_columns df tr zim :
  load_zim_frame py df = (tr, inr zim) ->
  exists cols2,
    columns zim = flat_map (fun n => filter (String.eqb n) cols2) zim_columns
    /\ (forall n, In n zim_columns -> In n cols2)
    /\ (NoDup (map PyStr.lower (columns df)) -> NoDup cols2).
Proof.
  intros H. apply load_zim_frame_inr in H
    as (_ & df1 & k_chr & k_start & k_ref & k_alt & He & H1 & H2 & H3 & H4 & ->).
  apply In_lowered in H1 as (I1 & L1). apply In_lowered in H2 as (I2 & L2).
  apply In_lowered in H3 as (I3 & L3). apply In_lowered in H4 as (I4 & L4).
  destruct (standard_names_lower _ _ _ _ L1 L2 L3 L4) as (Hlow & ND).
  destruct (ensure_zim_af_columns _ _ He) as (Haf & Hkeep & Hnd).
  set (sn := standard_names k_chr k_start k_ref k_alt) in *.
  exists (map (renamed sn) (columns df1)).
  split; [reflexivity|]. split.
  - assert (K : forall k n, In (k, n) sn -> In k (columns df) ->
                            PyStr.lower k <> "zim_af" -> In n (map (renamed sn) (columns df1))).
    { intros k n Hin Hk Hl. apply in_map_iff. exists k.
      split; [exact (renamed_key sn k n ND Hin)|now apply Hkeep]. }
    intros n [<-|[<-|[<-|[<-|[<-|[]]]]]].
    + apply (K k_chr); [now left|exact I1|rewrite L1; discriminate].
    + apply (K k_start); [right; now left|exact I2|rewrite L2; discriminate].
    + apply (K k_ref); [do 2 right; now left|exact I3|rewrite L3; discriminate].
    + apply (K k_alt); [do 3 right; now left|exact I4|rewrite L4; discriminate].
    + apply in_map_iff. exists "zim_AF". split; [|exact Haf].
      apply renamed_notin.
      cbn. intros [E|[E|[E|[E|[]]]]]; subst; discriminate.
  - intros NDl. apply NoDup_map_lower. rewrite map_map.
    erewrite map_ext; [apply Hnd, NDl|]. intros c. now apply renamed_lower.
Qed.

Lemma filter_eqb_all n l x : In x (filter (String.eqb n) l) -> x = n.
Proof. intros H. apply filter_In in H as (_ & E). apply String.eqb_eq in E. auto. Qed.

Lemma filter_eqb_singleton n l :
  In n l -> NoDup (filter (String.eqb n) l) -> filter (String.eqb n) l = [n].
Proof.
  intros Hin ND.
  assert (Hn : In n (filter (String.eqb n) l))
    by (apply filter_In; split; [exact Hin|apply String.eqb_refl]).
  pose proof (filter_eqb_all n l) as Hall.
  destruct (filter (String.eqb n) l) as [|x [|y rest]]; [contradiction| |].
  - now rewrite (Hall x (or_introl eq_refl)).
  - exfalso. rewrite (Hall x), (Hall y) in ND by (cbn; auto).
    inversion ND as [|? ? Hnot _]. apply Hnot. now left.
Qed.

(** Five columns exactly, once no label of the result repeats. *)
Lemma five_columns cols2 :
  (forall n, In n zim_columns -> In n cols2) ->
  NoDup (flat_map (fun n => filter (String.eqb n) cols2) zim_columns) ->
  flat_map (fun n => filter (String.eqb n) cols2) zim_columns = zim_columns.
Proof.
  intros Hp ND. cbn [flat_map zim_columns] in *.
  rewrite app_nil_r in *.
  pose proof (NoDup_app_remove_r _ _ ND) as N1.
  pose proof (NoDup_app_remove_l _ _ ND) as ND2.
  pose proof (NoDup_app_remove_r _ _ ND2) as N2.
  pose proof (NoDup_app_remove_l _ _ ND2) as ND3.
  pose proof (NoDup_app_remove_r _ _ ND3) as N3.
  pose proof (NoDup_app_remove_l _ _ ND3) as ND4.
  pose proof (NoDup_app_remove_r _ _ ND4) as N4.
  pose proof (NoDup_app_remove_l _ _ ND4) as N5.
  rewrite !filter_eqb_singleton; auto; apply Hp; cbn; auto 10.
Qed.

Lemma nodupb_NoDup l : PyStr.nodupb l = true <-> NoDup l.
Proof.
  induction l as [|x l IH]; cbn.
  - split; [constructor|reflexivity].
  - rewrite andb_true_iff, negb_true_iff, mem_false, IH. split.
    + intros (H1 & H2). now constructor.
    + intros H. inversion H. auto.
Qed.

Lemma get_skip (a b : row) n :
  (forall kv, In kv a -> fst kv <> n) -> get (a ++ b)%list n = get b n.
Proof.
  intros H. unfold get. induction a as [|[k v] a IH]; [reflexivity|]. cbn.
  destruct (String.eqb k n) eqn:E.
  - apply String.eqb_eq in E. exfalso. apply (H (k, v)); [now left|exact E].
  - apply IH. intros kv Hkv. apply H. now right.
Qed.

Lemma get_filter_self (r : row) n :
  get (filter (fun kv => String.eqb n (fst kv)) r) n = get r n.
Proof.
  unfold get. induction r as [|[k v] r IH]; [reflexivity|]. cbn.
  rewrite (eqb_sym_str n k). destruct (String.eqb k n) eqn:E; cbn; [now rewrite E|exact IH].
Qed.

Lemma get_map_keys (f : string -> string) (r : row) n :
  (forall k, f k = n <-> k = n) ->
  get (map (fun kv => (f (fst kv), snd kv)) r) n = get r n.
Proof.
  intros H. unfold get. induction r as [|[k v] r IH]; [reflexivity|]. cbn.
  destruct (String.eqb k n) eqn:E.
  - apply String.eqb_eq in E. subst k. rewrite (proj2 (H n) eq_refl).
    now rewrite String.eqb_refl.
  - destruct (String.eqb (f k) n) eqn:E'; [|exact IH].
    apply String.eqb_eq in E'. apply (proj1 (H k)) in E'. subst k.
    now rewrite String.eqb_refl in E.
Qed.

(** The zim_AF cell survives the selection of the five standard columns. *)
Lemma get_select_zim_af (r : row) :
  get (flat_map (fun n => filter (fun kv => String.eqb n (fst kv)) r) zim_columns)
      "zim_AF"
  = get r "zim_AF".
Proof.
  cbn [flat_map zim_columns]. rewrite app_nil_r.
  rewrite !get_skip; [apply get_filter_self| | | |];
    intros kv Hkv; apply filter_In in Hkv as (_ & E);
    apply String.eqb_eq in E; rewrite <- E; discriminate.
Qed.

Lemma get_standard_names_zim_af k_chr k_start k_ref k_alt (r : row) :
  PyStr.lower k_chr = "chr" -> PyStr.lower k_start = "start" ->
  PyStr.lower k_ref = "ref" -> PyStr.lower k_alt = "alt" ->
  get (map (fun kv => (renamed (standard_names k_chr k_start k_ref k_alt) (fst kv), snd kv))
           r) "zim_AF"
  = get r "zim_AF".
Proof.
  intros L1 L2 L3 L4. apply get_map_keys. intros k. split.
  - intros E. destruct (renamed_cases (standard_names k_chr k_start k_ref k_alt) k)
      as [E'|Hin]; [congruence|].
    rewrite E in Hin. destruct Hin as [X|[X|[X|[X|[]]]]]; discriminate.
  - intros ->. apply renamed_notin.
    cbn. intros [E|[E|[E|[E|[]]]]]; subst; discriminate.
Qed.






Lemma bind_nil {A B} (a : A) (k : A -> M B) : bind ([], inr a) k = k a.
Proof. apply ret_bind. Qed.





Lemma col_add_fresh c cols : ~ In c cols -> col_add c cols = (cols ++ [c])%list.
Proof. intros H. unfold col_add. apply mem_false in H. now rewrite H. Qed.







End Loader.

(* ================================================================== *)
(** ** The shape of the joined table *)
(* ================================================================== *)

Lemma enumerate_map {A B} (g : A -> B) (xs : list A) :
  map (fun ir => (fst ir, g (snd ir))) (enumerate xs) = enumerate (map g xs).
Proof.
  unfold enumerate. rewrite length_map. generalize (seq 0 (length xs)).
  induction xs as [|x xs IH]; intros [|n ns]; cbn; try reflexivity.
  now rewrite IH.
Qed.

Lemma map_flat_map {A B C} (g : B -> C) (f : A -> list B) l :
  map g (flat_map f l) = flat_map (fun x => map g (f x)) l.
Proof.
  induction l as [|x l IH]; cbn; [reflexivity|]. now rewrite map_app, IH.
Qed.

Lemma flat_map_ext_in {A B} (f g : A -> list B) l :
  (forall x, In x l -> f x = g x) -> flat_map f l = flat_map g l.
Proof.
  induction l as [|x l IH]; intros H; cbn; [reflexivity|].
  rewrite H by now left. rewrite IH; [reflexivity|]. intros y Hy. apply H. now right.
Qed.

Lemma row_set_skip (a b : row) c v :
  (forall kv, In kv a -> fst kv <> c) ->
  row_set c v (a ++ b)%list = (a ++ row_set c v b)%list.
Proof.
  intros H. induction a as [|[k w] a IH]; [reflexivity|]. cbn.
  destruct (String.eqb k c) eqn:E.
  - apply String.eqb_eq in E. exfalso. apply (H (k, w)); [now left|exact E].
  - rewrite IH; [reflexivity|]. intros kv Hkv. apply H. now right.
Qed.

(** Which labels carry a suffix when the right table has the five standard
    columns: zim_AF alone. *)
Lemma suffix_x_standard right c :
  columns right = zim_columns ->
  suffix_x on_keys right c = if String.eqb c "zim_AF" then "zim_AF_x" else c.
Proof.
  intros E. unfold suffix_x. rewrite E.
  destruct (String.eqb c "zim_AF") eqn:Z.
  - apply String.eqb_eq in Z. subst c. reflexivity.
  - destruct (negb (PyStr.mem c on_keys) && PyStr.mem c zim_columns) eqn:B;
      [|reflexivity].
    apply andb_true_iff in B as (B1 & B2). apply mem_In in B2.
    destruct B2 as [<-|[<-|[<-|[<-|[<-|[]]]]]]; discriminate.
Qed.

Lemma right_payload_standard right :
  columns right = zim_columns -> right_payload on_keys right = ["zim_AF"].
Proof. intros E. unfold right_payload. rewrite E. reflexivity. Qed.

Section Join.

Variable py : Runtime.

(** A loaded cohort table that the merge accepts has the five columns. *)
Lemma loaded_columns zp tr_z zim left tr j :
  load_zim_db py zp = (tr_z, inr zim) ->
  merge_left left zim on_keys = (tr, inr j) ->
  columns zim = zim_columns.
Proof.
  intros Hz Hm. apply load_zim_db_inr in Hz as (df & _ & Hz).
  destruct (load_zim_frame_columns _ _ _ _ Hz) as (cols2 & E & Hp & _).
  apply merge_left_inr in Hm as (_ & ND & _).
  apply nodupb_NoDup in ND. rewrite E in *. now apply five_columns.
Qed.

(** The join of lines 117-124, spelled out: no label is suffixed, the
    header gains zim_AF, and each annotation row brings its joined rows. *)
Lemma merged_shape zp tr_z zim ann tr merged0 :
  load_zim_db py zp = (tr_z, inr zim) ->
  merge_zim ann zim = (tr, inr merged0) ->
  columns zim = zim_columns
  /\ ~ In "zim_AF" (columns ann)
  /\ merged0 = mkDF (columns ann ++ ["zim_AF"])%list
                    (enumerate (flat_map (fun ir => joined_zim ann zim (snd ir))
                                         (body ann))).
Proof.
  intros Hz Hm. apply merge_zim_inr in Hm as (j & Hj & Hmem & -> & _).
  pose proof (loaded_columns _ _ _ _ _ _ Hz Hj) as E.
  apply merge_left_inr in Hj as (-> & _).
  cbn [columns] in Hmem. rewrite (right_payload_standard _ E) in *.
  assert (Hno : ~ In "zim_AF" (columns ann)).
  { intros Hin. apply mem_In in Hmem. apply in_app_or in Hmem as [H|H].
    - apply in_map_iff in H as (c & Ec & _).
      rewrite (suffix_x_standard _ c E) in Ec.
      destruct (String.eqb c "zim_AF") eqn:Z; [discriminate|].
      subst c. discriminate.
    - cbn in H. unfold suffix_y in H. apply mem_In in Hin. rewrite Hin in H.
      destruct H as [H|[]]. discriminate. }
  assert (Hx : forall c, In c (columns ann) -> suffix_x on_keys zim c = c).
  { intros c Hc. rewrite (suffix_x_standard _ c E).
    destruct (String.eqb c "zim_AF") eqn:Z; [|reflexivity].
    apply String.eqb_eq in Z. subst c. contradiction. }
  assert (Hy : suffix_y ann "zim_AF" = "zim_AF").
  { unfold suffix_y. apply mem_false in Hno. now rewrite Hno. }
  split; [exact E|]. split; [exact Hno|].
  unfold assign. cbn [columns body map]. rewrite Hy.
  rewrite (map_ext_in _ (fun c => c) _ Hx), map_id.
  f_equal.
  - unfold col_add. rewrite (proj2 (mem_In "zim_AF" _)); [reflexivity|].
    apply in_or_app. right. now left.
  - rewrite (enumerate_map (fun r => row_set "zim_AF" (fillna 0 (get r "zim_AF")) r)).
    f_equal. rewrite map_flat_map.
    apply flat_map_ext_in. intros [i l] _. cbn [snd].
    unfold joined, joined_zim, joined_freqs.
    rewrite (right_payload_standard _ E). cbn [map]. rewrite Hy.
    rewrite (map_ext_in _ (fun c => (c, get l c)) (columns ann))
      by (intros c Hc; now rewrite (Hx c Hc)).
    assert (Hk : forall kv, In kv (map (fun c => (c, get l c)) (columns ann)) ->
                            fst kv <> "zim_AF").
    { intros kv Hkv. apply in_map_iff in Hkv as (c & <- & Hc). cbn. now intros ->. }
    assert (Hrow : forall v,
      row_set "zim_AF"
        (fillna 0 (get (map (fun c => (c, get l c)) (columns ann) ++ [("zim_AF", v)])%list
                       "zim_AF"))
        (map (fun c => (c, get l c)) (columns ann) ++ [("zim_AF", v)])%list
      = (map (fun c => (c, get l c)) (columns ann) ++ [("zim_AF", fillna 0 v)])%list).
    { intros v. rewrite (get_skip _ _ _ Hk), (row_set_skip _ _ _ _ Hk). reflexivity. }
    destruct (filter (row_matches on_keys l) (map snd (body zim))) as [|z ms].
    + cbn [map]. now rewrite Hrow.
    + cbn [map]. rewrite Hrow, !map_map. f_equal. apply map_ext. intros z'. apply Hrow.
Qed.

End Join.

(* ================================================================== *)
(** ** The annotation table with its max columns *)
(* ================================================================== *)

Section Annotation.

Variable py : Runtime.

Lemma body_max_col_frame df candidates new_name :
  body (max_col_frame py df candidates new_name)
  = map (fun ir => (fst ir, max_col_row py candidates new_name (snd ir))) (body df).
Proof.
  unfold max_col_frame, max_col_row. destruct candidates as [|c t].
  - rewrite <- (map_id (body df)) at 1. apply map_ext. now intros [i r].
  - unfold assign. cbn [body]. rewrite body_coerced, map_map. reflexivity.
Qed.

Lemma columns_max_col_frame df candidates new_name c :
  (forall k, In k candidates -> In k (columns df)) ->
  In c (columns (max_col_frame py df candidates new_name)) ->
  In c (columns df) \/ (candidates <> [] /\ c = new_name).
Proof.
  intros Hc. unfold max_col_frame. destruct candidates as [|k t]; [auto|].
  unfold assign. cbn [columns]. rewrite columns_coerced by exact Hc.
  intros H. apply In_col_add_inv in H as [->|H]; [right|now left].
  split; [discriminate|reflexivity].
Qed.

Lemma created_in_columns df candidates new_name g :
  created candidates new_name = Some g ->
  In g (columns (max_col_frame py df candidates new_name)).
Proof.
  unfold created, max_col_frame. destruct candidates as [|k t]; [discriminate|].
  intros E. injection E as <-. unfold assign. cbn [columns]. apply In_col_add_self.
Qed.

(** A cell outside the candidates and the new column is untouched. *)
Lemma get_max_col_row_other candidates new_name r c :
  c <> new_name -> PyStr.mem c candidates = false ->
  get (max_col_row py candidates new_name r) c = get r c.
Proof.
  intros N Hm. unfold max_col_row. destruct candidates as [|k t]; [reflexivity|].
  rewrite get_row_set_neq by congruence. rewrite get_coerce_row. now rewrite Hm.
Qed.

(** The new column holds a float. *)
Lemma get_max_col_row_new candidates new_name r g :
  created candidates new_name = Some g ->
  is_str (get (max_col_row py candidates new_name r) g) = false.
Proof.
  unfold created, max_col_row. destruct candidates as [|k t]; [discriminate|].
  intros E. injection E as <-. now rewrite get_row_set_eq.
Qed.

(** A coerced or untouched cell that was no string is no string. *)
Lemma is_str_max_col_row candidates new_name r c :
  is_str (get r c) = false ->
  is_str (get (max_col_row py candidates new_name r) c) = false.
Proof.
  intros H. unfold max_col_row. destruct candidates as [|k t]; [exact H|].
  destruct (String.eqb new_name c) eqn:E.
  - apply String.eqb_eq in E. subst c. now rewrite get_row_set_eq.
  - rewrite get_row_set_neq by (intros ->; now rewrite String.eqb_refl in E).
    rewrite get_coerce_row. now destruct (PyStr.mem c (k :: t)).
Qed.

Lemma body_with_max_columns ann :
  body (with_max_columns py ann)
  = map (fun ir => (fst ir,
                    max_col_row py (gnomad_afr_candidates ann) "gnomad_AFR_AF_max"
                      (max_col_row py (gnomad_all_candidates ann) "gnomad_AF_max"
                         (snd ir))))
        (body ann).
Proof.
  unfold with_max_columns. rewrite !body_max_col_frame, map_map. reflexivity.
Qed.

Lemma columns_with_max_columns ann c :
  In c (columns (with_max_columns py ann)) ->
  In c (columns ann) \/ c = "gnomad_AF_max" \/ c = "gnomad_AFR_AF_max".
Proof.
  unfold with_max_columns. intros H.
  apply columns_max_col_frame in H as [H|(_ & ->)]; [|auto|].
  - apply columns_max_col_frame in H as [H|(_ & ->)]; auto.
    apply all_candidates_in.
  - intros k Hk. apply ann_columns_max_col; [apply all_candidates_in|].
    now apply afr_candidates_in.
Qed.

Lemma columns_with_max_columns_incl ann c :
  In c (columns ann) -> In c (columns (with_max_columns py ann)).
Proof.
  intros H. unfold with_max_columns.
  apply ann_columns_max_col.
  - intros k Hk. apply ann_columns_max_col; [apply all_candidates_in|].
    now apply afr_candidates_in.
  - apply ann_columns_max_col; [apply all_candidates_in|exact H].
Qed.

(** A candidate starts with AF, so no identity column is one. *)
Lemma key_not_candidate ann k :
  In k core_columns ->
  PyStr.mem k (gnomad_all_candidates ann) = false
  /\ PyStr.mem k (gnomad_afr_candidates ann) = false.
Proof.
  intros Hk. split; apply mem_false; intros H;
    unfold gnomad_all_candidates, gnomad_afr_candidates in H;
    apply filter_In in H as (_ & B);
    destruct Hk as [<-|[<-|[<-|[<-|[<-|[]]]]]]; cbn in B;
    rewrite ?andb_false_r in B; discriminate.
Qed.

(** The identity cells of a row are those read from the file. *)
Lemma get_key_with_max_columns ann k r :
  In k core_columns ->
  get (max_col_row py (gnomad_afr_candidates ann) "gnomad_AFR_AF_max"
         (max_col_row py (gnomad_all_candidates ann) "gnomad_AF_max" r)) k
  = get r k.
Proof.
  intros Hk. destruct (key_not_candidate ann k Hk) as (H1 & H2).
  rewrite !get_max_col_row_other; auto;
    destruct Hk as [<-|[<-|[<-|[<-|[<-|[]]]]]]; discriminate.
Qed.

(** The created max columns hold floats on every row. *)
Lemma max_columns_numeric ann g r :
  gnomad_all_name ann = Some g \/ gnomad_afr_name ann = Some g ->
  is_str (get (max_col_row py (gnomad_afr_candidates ann) "gnomad_AFR_AF_max"
                 (max_col_row py (gnomad_all_candidates ann) "gnomad_AF_max" r)) g)
  = false.
Proof.
  intros [H|H].
  - apply is_str_max_col_row. now apply get_max_col_row_new.
  - now apply get_max_col_row_new.
Qed.

Lemma max_columns_present ann g :
  gnomad_all_name ann = Some g \/ gnomad_afr_name ann = Some g ->
  In g (columns (with_max_columns py ann)).
Proof.
  unfold with_max_columns. intros [H|H].
  - apply ann_columns_max_col.
    + intros k Hk. apply ann_columns_max_col; [apply all_candidates_in|].
      now apply afr_candidates_in.
    + now apply created_in_columns.
  - now apply created_in_columns.
Qed.

End Annotation.

(* ================================================================== *)
(** ** The rows of the annotated output *)
(* ================================================================== *)

Lemma In_enumerate {A} (xs : list A) i x : In (i, x) (enumerate xs) -> In x xs.
Proof. unfold enumerate. apply in_combine_r. Qed.

Lemma enumerate_In {A} (xs : list A) x : In x xs -> exists i, In (i, x) (enumerate xs).
Proof.
  intros H. rewrite <- (rows_enumerate xs) in H.
  apply in_map_iff in H as ([i y] & E & Hin). cbn in E. subst y. now exists i.
Qed.

Lemma get_lpart (l b : row) cols k :
  In k cols -> get (map (fun c => (c, get l c)) cols ++ b)%list k = get l k.
Proof.
  unfold get at 1. induction cols as [|c cols IH]; [contradiction|].
  intros H. cbn. destruct (String.eqb c k) eqn:E.
  - apply String.eqb_eq in E. now subst.
  - apply IH. destruct H as [->|H]; [now rewrite String.eqb_refl in E|exact H].
Qed.

Lemma lpart_keys (l : row) cols c :
  ~ In c cols ->
  forall kv, In kv (map (fun c => (c, get l c)) cols) -> fst kv <> c.
Proof.
  intros N kv H. apply in_map_iff in H as (c' & <- & Hc). cbn. now intros ->.
Qed.

Lemma get_annotated_tier cols l freq tier :
  get (annotated_row cols l freq tier) "impact_tier" = Str tier.
Proof. apply get_row_set_eq. Qed.

Lemma get_annotated_freq cols l freq tier :
  ~ In "zim_AF" cols ->
  get (annotated_row cols l freq tier) "zim_AF" = fillna 0 freq.
Proof.
  intros N. unfold annotated_row. rewrite get_row_set_neq by discriminate.
  rewrite (get_skip _ _ _ (lpart_keys l cols _ N)). unfold get. cbn. reflexivity.
Qed.

Lemma get_annotated_left cols l freq tier k :
  In k cols -> k <> "impact_tier" ->
  get (annotated_row cols l freq tier) k = get l k.
Proof.
  intros H N. unfold annotated_row. rewrite get_row_set_neq by congruence.
  now apply get_lpart.
Qed.

Lemma impact_tier_assign merged0 tr merged :
  impact_tier merged0 = (tr, inr merged) ->
  exists F, merged = assign "impact_tier" (fun r => Str (F r)) merged0.
Proof.
  intros H. apply impact_tier_inr in H as (Hno & Hyes).
  destruct (PyStr.mem func_col (columns merged0)
            && PyStr.mem exonic_func_col (columns merged0)).
  - destruct (Hyes eq_refl) as (-> & _). now exists tier_by_precedence.
  - destruct (Hno eq_refl) as (-> & _). now exists (fun _ => "unknown").
Qed.

Section Annotated.

Variable py : Runtime.

(** Every row of the annotated output comes from an annotation row and one
    of the cohort frequencies it is joined with. *)
Lemma annotated_row_inv zp tr_z zim ann tr merged0 tr_i merged i r :
  load_zim_db py zp = (tr_z, inr zim) ->
  merge_zim ann zim = (tr, inr merged0) ->
  impact_tier merged0 = (tr_i, inr merged) ->
  In (i, r) (body merged) ->
  exists l v tier,
    In l (map snd (body ann)) /\ In v (joined_freqs zim l)
    /\ r = annotated_row (columns ann) l v tier.
Proof.
  intros Hz Hm Hi Hin.
  destruct (merged_shape py _ _ _ _ _ _ Hz Hm) as (_ & _ & ->).
  apply impact_tier_assign in Hi as (F & ->).
  unfold assign in Hin. cbn [body] in Hin.
  apply in_map_iff in Hin as ([j jr] & E & Hin). cbn in E. injection E as <- <-.
  apply In_enumerate in Hin. apply in_flat_map in Hin as ([i0 l] & Hl & Hjr).
  cbn [snd] in Hjr. unfold joined_zim in Hjr.
  apply in_map_iff in Hjr as (v & <- & Hv).
  exists l, v, (F (map (fun c => (c, get l c)) (columns ann)
                   ++ [("zim_AF", fillna 0 v)])%list).
  split; [|split; [exact Hv|reflexivity]].
  change l with (snd (i0, l)). now apply in_map.
Qed.

(** And every annotation row, with each of its joined frequencies, is a row
    of the annotated output. *)
Lemma annotated_row_intro zp tr_z zim ann tr merged0 tr_i merged l v :
  load_zim_db py zp = (tr_z, inr zim) ->
  merge_zim ann zim = (tr, inr merged0) ->
  impact_tier merged0 = (tr_i, inr merged) ->
  In l (map snd (body ann)) -> In v (joined_freqs zim l) ->
  exists i tier, In (i, annotated_row (columns ann) l v tier) (body merged).
Proof.
  intros Hz Hm Hi Hl Hv.
  destruct (merged_shape py _ _ _ _ _ _ Hz Hm) as (_ & _ & ->).
  apply impact_tier_assign in Hi as (F & ->).
  apply in_map_iff in Hl as ([i0 l0] & E & Hl). cbn in E. subst l0.
  set (jr := (map (fun c => (c, get l c)) (columns ann)
              ++ [("zim_AF", fillna 0 v)])%list).
  assert (Hjr : In jr (flat_map (fun ir => joined_zim ann zim (snd ir)) (body ann))).
  { apply in_flat_map. exists (i0, l). split; [exact Hl|].
    cbn [snd]. unfold joined_zim. apply in_map_iff. now exists v. }
  apply enumerate_In in Hjr as (i & Hi).
  exists i, (F jr). unfold assign. cbn [body]. apply in_map_iff.
  exists (i, jr). split; [reflexivity|exact Hi].
Qed.

End Annotated.

Lemma joined_freqs_nonempty zim l : joined_freqs zim l <> [].
Proof.
  unfold joined_freqs.
  destruct (filter (row_matches on_keys l) (map snd (body zim))); discriminate.
Qed.

Lemma joined_freqs_unmatched zim l :
  (forall z, In z (body zim) -> row_matches on_keys l (snd z) = false) ->
  joined_freqs zim l = [NaN].
Proof.
  intros H. unfold joined_freqs.
  destruct (filter (row_matches on_keys l) (map snd (body zim))) as [|z ms] eqn:E;
    [reflexivity|].
  assert (Hz : In z (filter (row_matches on_keys l) (map snd (body zim))))
    by (rewrite E; now left).
  apply filter_In in Hz as (Hz & M). apply in_map_iff in Hz as (iz & <- & Hz).
  now rewrite (H iz Hz) in M.
Qed.

Lemma joined_freqs_matched zim l z :
  In z (body zim) -> row_matches on_keys l (snd z) = true ->
  In (get (snd z) "zim_AF") (joined_freqs zim l).
Proof.
  intros Hz M. unfold joined_freqs.
  assert (Hf : In (snd z) (filter (row_matches on_keys l) (map snd (body zim))))
    by (apply filter_In; split; [now apply in_map|exact M]).
  destruct (filter (row_matches on_keys l) (map snd (body zim))) as [|z0 ms];
    [contradiction|].
  apply in_map_iff. now exists (snd z).
Qed.

Lemma row_matches_ext l l' z :
  (forall k, In k on_keys -> get l k = get l' k) ->
  row_matches on_keys l z = row_matches on_keys l' z.
Proof.
  intros H. unfold row_matches, on_keys. cbn [forallb].
  rewrite !H by (cbn; auto 10). reflexivity.
Qed.

(* ================================================================== *)
(** ** The joined cohort frequency *)
(* ================================================================== *)

Section CohortFrequency.

Variable py : Runtime.

(** What a successful run tells about its annotated output. *)
Lemma run_annotated ap zp pre t1 t2 t3 tr ann zim tr_z :
  prioritise py ap zp pre t1 t2 t3 = (tr, inr tt) ->
  read_csv py ap false = inr ann ->
  load_zim_db py zp = (tr_z, inr zim) ->
  exists merged0 merged tr_i,
    merge_zim (with_max_columns py ann) zim = ([], inr merged0)
    /\ impact_tier merged0 = (tr_i, inr merged)
    /\ (forall c, In c core_columns -> In c (columns ann))
    /\ written tr
       = [(out_all pre, merged);
          (out_filtered pre,
           prioritised_of merged (gnomad_all_name ann) (gnomad_afr_name ann) t1 t2 t3)]
    /\ (forall e, In e tr_i -> In e tr).
Proof.
  intros H Hr Hz.
  apply prioritise_inr in H
    as (ann' & zim' & merged0 & merged & tr_z' & tr_i
        & Hr' & Hcore & Hz' & Hm & Hi & Hw & Htr).
  rewrite Hr in Hr'. injection Hr' as <-.
  rewrite Hz in Hz'. injection Hz' as <- <-.
  exists merged0, merged, tr_i. repeat split; auto.
  intros c Hc. apply mem_In. now apply Hcore.
Qed.

Lemma on_keys_core k : In k on_keys -> In k core_columns.
Proof. cbn. intuition. Qed.

Lemma on_keys_not_tier k : In k on_keys -> k <> "impact_tier".
Proof. intros [<-|[<-|[<-|[<-|[]]]]]; discriminate. Qed.

(** C2. Cohort frequency default: in every successful run, a row of the
    annotated output whose (Chr, Start, Ref, Alt) cells match no row of the
    loaded cohort table has zim_AF equal to the float 0.0, not a missing
    value; and every annotation row without a match has such a row in the
    annotated output, with its identity cells. *)
Theorem C2_cohort_frequency_default ap zp pre t1 t2 t3 tr ann zim tr_z :
  prioritise py ap zp pre t1 t2 t3 = (tr, inr tt) ->
  read_csv py ap false = inr ann ->
  load_zim_db py zp = (tr_z, inr zim) ->
  exists merged filtered,
    written tr = [(out_all pre, merged); (out_filtered pre, filtered)]
    /\ (forall i r, In (i, r) (body merged) ->
          (forall z, In z (body zim) -> row_matches on_keys r (snd z) = false) ->
          get r "zim_AF" = Num 0%float /\ isna (get r "zim_AF") = false)
    /\ (forall a, In a (body ann) ->
          (forall z, In z (body zim) -> row_matches on_keys (snd a) (snd z) = false) ->
          exists i r, In (i, r) (body merged)
                      /\ (forall k, In k on_keys -> get r k = get (snd a) k)
                      /\ get r "zim_AF" = Num 0%float).
Proof.
  intros H Hr Hz.
  destruct (run_annotated _ _ _ _ _ _ _ _ _ _ H Hr Hz)
    as (merged0 & merged & tr_i & Hm & Hi & Hcore & Hw & _).
  destruct (merged_shape py _ _ _ _ _ _ Hz Hm) as (_ & Hno & _).
  assert (Hkeys : forall k, In k on_keys -> In k (columns (with_max_columns py ann))).
  { intros k Hk. apply columns_with_max_columns_incl, Hcore, on_keys_core, Hk. }
  eexists merged, _. split; [exact Hw|]. split.
  - intros i r Hin Hun.
    destruct (annotated_row_inv py _ _ _ _ _ _ _ _ _ _ Hz Hm Hi Hin)
      as (l & v & tier & Hl & Hv & ->).
    rewrite joined_freqs_unmatched in Hv.
    + destruct Hv as [<-|[]]. rewrite get_annotated_freq by exact Hno.
      split; reflexivity.
    + intros z Hzin. rewrite <- (Hun z Hzin). apply row_matches_ext.
      intros k Hk. symmetry. apply get_annotated_left; [now apply Hkeys|].
      now apply on_keys_not_tier.
  - intros [i0 l0] Ha Hun. cbn [snd] in *.
    set (l := max_col_row py (gnomad_afr_candidates ann) "gnomad_AFR_AF_max"
                (max_col_row py (gnomad_all_candidates ann) "gnomad_AF_max" l0)).
    assert (Hl : In l (map snd (body (with_max_columns py ann)))).
    { rewrite body_with_max_columns, map_map. cbn [snd].
      apply in_map_iff. now exists (i0, l0). }
    assert (Hk : forall k, In k on_keys -> get l k = get l0 k).
    { intros k Hk. apply get_key_with_max_columns. now apply on_keys_core. }
    assert (Hv : In NaN (joined_freqs zim l)).
    { rewrite joined_freqs_unmatched; [now left|].
      intros z Hzin. rewrite <- (Hun z Hzin). now apply row_matches_ext. }
    destruct (annotated_row_intro py _ _ _ _ _ _ _ _ _ _ Hz Hm Hi Hl Hv)
      as (i & tier & Hin).
    exists i, (annotated_row (columns (with_max_columns py ann)) l NaN tier).
    split; [exact Hin|]. split.
    + intros k Hkk. rewrite get_annotated_left;
        [now apply Hk|now apply Hkeys|now apply on_keys_not_tier].
    + now rewrite get_annotated_freq by exact Hno.
Qed.

(** C10 (amended). A matched cohort row whose frequency is missing is
    joined as 0.0: in every successful run, an annotation row that matches a
    row of the loaded cohort table whose zim_AF is missing has a row in the
    annotated output with its identity cells and zim_AF equal to 0.0, which
    passes the cohort predicate for every threshold t with 0 <= t. A derived
    frequency count/number is missing when the coerced count or number is
    missing (a string that is not numeric coerces to missing) or when both
    are zero. *)
Theorem C10_missing_matched_frequency ap zp pre t1 t2 t3 tr ann zim tr_z :
  prioritise py ap zp pre t1 t2 t3 = (tr, inr tt) ->
  read_csv py ap false = inr ann ->
  load_zim_db py zp = (tr_z, inr zim) ->
  (exists merged filtered,
     written tr = [(out_all pre, merged); (out_filtered pre, filtered)]
     /\ forall a z, In a (body ann) -> In z (body zim) ->
          row_matches on_keys (snd a) (snd z) = true ->
          isna (get (snd z) "zim_AF") = true ->
          exists i r, In (i, r) (body merged)
                      /\ (forall k, In k on_keys -> get r k = get (snd a) k)
                      /\ get r "zim_AF" = Num 0%float
                      /\ forall t, (0 <=? t)%float = true -> cohort_ok t r = true)
  /\ (forall count number : cell,
        is_nan (to_numeric py count) = true
        \/ is_nan (to_numeric py number) = true
        \/ ((to_numeric py count =? 0)%float = true
            /\ (to_numeric py number =? 0)%float = true) ->
        is_nan (to_numeric py count / to_numeric py number) = true)
  /\ (forall s, float_of_string py s = None -> is_nan (to_numeric py (Str s)) = true).
Proof.
  intros H Hr Hz. split; [|split].
  - destruct (run_annotated _ _ _ _ _ _ _ _ _ _ H Hr Hz)
      as (merged0 & merged & tr_i & Hm & Hi & Hcore & Hw & _).
    destruct (merged_shape py _ _ _ _ _ _ Hz Hm) as (_ & Hno & _).
    assert (Hkeys : forall k, In k on_keys -> In k (columns (with_max_columns py ann))).
    { intros k Hk. apply columns_with_max_columns_incl, Hcore, on_keys_core, Hk. }
    eexists merged, _. split; [exact Hw|].
    intros [i0 l0] z Ha Hzin M Hna. cbn [snd] in *.
    set (l := max_col_row py (gnomad_afr_candidates ann) "gnomad_AFR_AF_max"
                (max_col_row py (gnomad_all_candidates ann) "gnomad_AF_max" l0)).
    assert (Hl : In l (map snd (body (with_max_columns py ann)))).
    { rewrite body_with_max_columns, map_map. cbn [snd].
      apply in_map_iff. now exists (i0, l0). }
    assert (Hk : forall k, In k on_keys -> get l k = get l0 k).
    { intros k Hk. apply get_key_with_max_columns. now apply on_keys_core. }
    assert (Hv : In (get (snd z) "zim_AF") (joined_freqs zim l)).
    { apply joined_freqs_matched; [exact Hzin|].
      rewrite <- M. now apply row_matches_ext. }
    destruct (annotated_row_intro py _ _ _ _ _ _ _ _ _ _ Hz Hm Hi Hl Hv)
      as (i & tier & Hin).
    eexists i, _. split; [exact Hin|].
    assert (Hf : get (annotated_row (columns (with_max_columns py ann)) l
                        (get (snd z) "zim_AF") tier) "zim_AF" = Num 0%float).
    { rewrite get_annotated_freq by exact Hno. unfold fillna. now rewrite Hna. }
    split; [|split; [exact Hf|]].
    + intros k Hkk. rewrite get_annotated_left;
        [now apply Hk|now apply Hkeys|now apply on_keys_not_tier].
    + intros t Ht. unfold cohort_ok. rewrite Hf. exact Ht.
  - intros count number [Hc|[Hn|(Hc & Hn)]].
    + now apply F.div_nan_l.
    + now apply F.div_nan_r.
    + now apply F.div_zero_zero.
  - intros s Hs. cbn. now rewrite Hs.
Qed.

End CohortFrequency.

(* ================================================================== *)
(** ** Impact tier and debug flags *)
(* ================================================================== *)

Lemma stopgain_is_lof r :
  get r exonic_func_col = Str "stopgain" -> tier_by_precedence r = "LoF".
Proof.
  intros H. unfold tier_by_precedence, cond_lof. rewrite H. reflexivity.
Qed.

(** C4 (amended). Impact precedence: when both consequence columns are
    present and Func.refGene is a column of strings, so that its [.str]
    accessor exists,
    the classification returns the table with impact_tier set on every row
    to the tier by precedence, which is what the four assignments, default
    other, then synonymous, then missense, then LoF, each overriding the
    earlier, amount to; no other cell changes; in particular a row whose
    ExonicFunc.refGene is stopgain is LoF. *)
Theorem C4_impact_precedence merged :
  PyStr.mem func_col (columns merged) = true ->
  PyStr.mem exonic_func_col (columns merged) = true ->
  is_object (values merged func_col) = true ->
  exists merged',
    impact_tier merged = ([], inr merged')
    /\ merged'
       = loc_set (mask_of cond_lof merged) "impact_tier" (Str "LoF")
           (loc_set (mask_of cond_missense merged) "impact_tier" (Str "missense")
              (loc_set (mask_of cond_synonymous merged) "impact_tier" (Str "synonymous")
                 (assign "impact_tier" (fun _ => Str "other") merged)))
    /\ Forall2
         (fun old new =>
            fst new = fst old
            /\ get (snd new) "impact_tier" = Str (tier_by_precedence (snd old))
            /\ (forall c, c <> "impact_tier" -> get (snd new) c = get (snd old) c)
            /\ (get (snd old) exonic_func_col = Str "stopgain" ->
                get (snd new) "impact_tier" = Str "LoF"))
         (body merged) (body merged').
Proof.
  intros Hf He Ho. eexists. split; [|split; [reflexivity|]].
  - unfold impact_tier, str_accessor. rewrite Hf, He, Ho. cbn [negb orb].
    now rewrite ret_bind.
  - rewrite (impact_assignments merged). unfold assign. cbn [body].
    apply Forall2_map_graph. intros [i r] _. cbn [fst snd].
    split; [reflexivity|]. split; [apply get_row_set_eq|]. split.
    + intros c Hc. apply get_row_set_neq. congruence.
    + intros Hs. now rewrite get_row_set_eq, (stopgain_is_lof r Hs).
Qed.

Lemma columns_ensure_valid_index s df :
  columns (_ensure_valid_index s df) = columns df.
Proof. unfold _ensure_valid_index. destruct (body df), s; reflexivity. Qed.

Lemma body_ensure_valid_index_empty s df :
  body df = [] ->
  body (_ensure_valid_index s df) = map (fun p => (fst p, nan_row (columns df))) s.
Proof.
  intros E. unfold _ensure_valid_index. rewrite E. destruct s; [exact E|reflexivity].
Qed.

Lemma ensure_valid_index_rows s df : body df <> [] -> _ensure_valid_index s df = df.
Proof.
  intros N. unfold _ensure_valid_index. destruct (body df); [congruence|reflexivity].
Qed.

Lemma columns_assign_aligned c s df :
  columns (assign_aligned c s df) = col_add c (columns df).
Proof.
  unfold assign_aligned. cbn [columns]. now rewrite columns_ensure_valid_index.
Qed.

(** A flag is set on the rows of the frame, or, when the frame has none, on
    one row of missing values per row of the merged table. *)
Lemma body_with_flag merged source flag f :
  body (with_flag merged source flag f)
  = map (fun ir => (fst ir, flag_row merged source flag (fst ir) (snd ir)))
        (match source with
         | None => body f
         | Some _ => reindexed merged f
         end).
Proof.
  unfold with_flag, flag_row, reindexed. destruct source as [g|].
  - unfold assign_aligned. cbn [body].
    destruct (body f) as [|x rows] eqn:E.
    + rewrite (body_ensure_valid_index_empty _ _ E). unfold flag_series at 2.
      rewrite !map_map. reflexivity.
    + rewrite ensure_valid_index_rows by congruence. now rewrite E.
  - rewrite <- (map_id (body f)) at 1. apply map_ext. now intros [i r].
Qed.

Lemma reindexed_rows merged f :
  (body f = [] -> body merged = []) -> reindexed merged f = body f.
Proof.
  unfold reindexed. destruct (body f) as [|x rows]; [|reflexivity].
  intros H. now rewrite (H eq_refl).
Qed.

Lemma body_with_flag_rows merged source flag f :
  (body f = [] -> body merged = []) ->
  body (with_flag merged source flag f)
  = map (fun ir => (fst ir, flag_row merged source flag (fst ir) (snd ir))) (body f).
Proof.
  intros H. rewrite body_with_flag. destruct source; [|reflexivity].
  now rewrite reindexed_rows.
Qed.

Lemma reindexed_nil merged f : reindexed merged f = [] -> body merged = [].
Proof.
  unfold reindexed. destruct (body f) as [|x rows]; [|discriminate].
  now destruct (body merged).
Qed.

(** The rows of the prioritised table: the selected rows with their flags,
    or, when no row is selected, a row of missing values with its flags for
    every row of the merged table. *)
Lemma body_prioritised_of merged ga gr t1 t2 t3 :
  body (prioritised_of merged ga gr t1 t2 t3)
  = map (fun ir => (fst ir, flagged merged ga gr (fst ir) (snd ir)))
        (reindexed merged (mkDF (columns merged) (selected merged ga gr t1 t2 t3))).
Proof.
  unfold prioritised_of. fold (selected merged ga gr t1 t2 t3).
  set (f0 := mkDF (columns merged) (selected merged ga gr t1 t2 t3)).
  set (f1 := with_flag merged (Some "zim_AF") "flag_high_zim_af" f0).
  set (f2 := with_flag merged ga "flag_common_gnomad" f1).
  assert (B1 : body f1
               = map (fun ir => (fst ir, flag_row merged (Some "zim_AF")
                                           "flag_high_zim_af" (fst ir) (snd ir)))
                     (reindexed merged f0)) by apply body_with_flag.
  assert (S1 : body f1 = [] -> body merged = []).
  { rewrite B1. intros E. apply map_eq_nil in E. now apply reindexed_nil in E. }
  assert (B2 : body f2
               = map (fun ir => (fst ir, flag_row merged ga "flag_common_gnomad"
                                           (fst ir) (snd ir))) (body f1))
    by now apply body_with_flag_rows.
  assert (S2 : body f2 = [] -> body merged = []).
  { rewrite B2. intros E. apply map_eq_nil in E. now apply S1. }
  rewrite (body_with_flag_rows _ _ _ _ S2), B2, B1, !map_map. reflexivity.
Qed.

Lemma selected_rows merged ga gr t1 t2 t3 :
  selected merged ga gr t1 t2 t3 <> [] ->
  reindexed merged (mkDF (columns merged) (selected merged ga gr t1 t2 t3))
  = selected merged ga gr t1 t2 t3.
Proof.
  intros H. unfold reindexed. cbn [body].
  now destruct (selected merged ga gr t1 t2 t3).
Qed.

Lemma unselected_rows merged ga gr t1 t2 t3 :
  selected merged ga gr t1 t2 t3 = [] ->
  reindexed merged (mkDF (columns merged) (selected merged ga gr t1 t2 t3))
  = map (fun ir => (fst ir, nan_row (columns merged))) (body merged).
Proof. intros H. unfold reindexed. cbn [body columns]. now rewrite H. Qed.

Lemma index_prioritised_of merged ga gr t1 t2 t3 :
  index (prioritised_of merged ga gr t1 t2 t3)
  = map fst (reindexed merged
               (mkDF (columns merged) (selected merged ga gr t1 t2 t3))).
Proof. unfold index. now rewrite body_prioritised_of, map_map. Qed.

Lemma columns_with_flag_incl merged source flag f c :
  In c (columns f) -> In c (columns (with_flag merged source flag f)).
Proof.
  unfold with_flag. destruct source; [|auto]. rewrite columns_assign_aligned.
  apply In_col_add.
Qed.

Lemma columns_with_flag_self merged g flag f :
  In flag (columns (with_flag merged (Some g) flag f)).
Proof. cbn [with_flag]. rewrite columns_assign_aligned. apply In_col_add_self. Qed.

Lemma at_label_flag merged g i r :
  NoDup (index merged) -> In (i, r) (body merged) ->
  at_label (flag_series merged g) i = Bool (gt_cell flag_threshold (get r g)).
Proof.
  intros ND Hin. unfold flag_series.
  apply (at_label_map (fun r => Bool (gt_cell flag_threshold (get r g)))); assumption.
Qed.

Lemma get_flag_row merged source flag i r c :
  c <> flag -> get (flag_row merged source flag i r) c = get r c.
Proof.
  intros N. unfold flag_row. destruct source; [|reflexivity].
  apply get_row_set_neq. congruence.
Qed.

Lemma created_some candidates name :
  candidates <> [] -> created candidates name = Some name.
Proof. destruct candidates; [congruence|reflexivity]. Qed.

(** The cells of a flagged row: every cell that is not a flag is the row's
    own, and each flag compares the merged row of the same label with the
    fixed 0.01. *)
Lemma flagged_cells merged ga gr i r r0 :
  NoDup (index merged) -> In (i, r0) (body merged) ->
  (forall c, c <> "flag_high_zim_af" -> c <> "flag_common_gnomad" ->
             c <> "flag_common_gnomad_afr" ->
             get (flagged merged ga gr i r) c = get r c)
  /\ get (flagged merged ga gr i r) "flag_high_zim_af"
     = Bool (gt_cell flag_threshold (get r0 "zim_AF"))
  /\ (forall g, ga = Some g ->
        get (flagged merged ga gr i r) "flag_common_gnomad"
        = Bool (gt_cell flag_threshold (get r0 g)))
  /\ (forall g, gr = Some g ->
        get (flagged merged ga gr i r) "flag_common_gnomad_afr"
        = Bool (gt_cell flag_threshold (get r0 g))).
Proof.
  intros ND Hin. unfold flagged. split; [|split; [|split]].
  - intros c N1 N2 N3. now rewrite !get_flag_row.
  - rewrite !get_flag_row by discriminate. cbn [flag_row].
    rewrite get_row_set_eq. now apply at_label_flag.
  - intros g ->. rewrite get_flag_row by discriminate. cbn [flag_row].
    rewrite get_row_set_eq. now apply at_label_flag.
  - intros g ->. cbn [flag_row]. rewrite get_row_set_eq. now apply at_label_flag.
Qed.

Lemma get_nan_row cols c : get (nan_row cols) c = NaN.
Proof.
  unfold get, nan_row. induction cols as [|k cols IH]; [reflexivity|]. cbn.
  destruct (String.eqb k c); [reflexivity|exact IH].
Qed.

Lemma In_selected merged ga gr t1 t2 t3 ir :
  In ir (selected merged ga gr t1 t2 t3)
  <-> In ir (body merged) /\ keep ga gr t1 t2 t3 (snd ir) = true.
Proof. unfold selected. apply filter_In. Qed.

(* ================================================================== *)
(** ** Runs that complete *)
(* ================================================================== *)

Lemma snd_bind_ok {A B} (m : M A) (k : A -> M B) tr a :
  m = (tr, inr a) -> snd (bind m k) = snd (k a).
Proof. intros ->. reflexivity. Qed.

Lemma comparable_series df c :
  comparable_column df c ->
  existsb (fun p : nat * cell => is_str (snd p))
          (map (fun ir => (fst ir, get (snd ir) c)) (body df)) = false.
Proof.
  intros (_ & H). induction (body df) as [|ir l IH]; [reflexivity|]. cbn.
  rewrite (H ir (or_introl eq_refl)). apply IH. intros x Hx. apply H. now right.
Qed.

Lemma series_le_ok df c t :
  comparable_column df c ->
  exists s m, getitem df c = ([], inr s) /\ series_le s t = ([], inr m).
Proof.
  intros H. eexists _, _. split; [apply getitem_ok, H|].
  unfold series_le. now rewrite (comparable_series df c H).
Qed.

Lemma series_gt_ok df c t :
  comparable_column df c ->
  exists s m, getitem df c = ([], inr s) /\ series_gt s t = ([], inr m).
Proof.
  intros H. eexists _, _. split; [apply getitem_ok, H|].
  unfold series_gt. now rewrite (comparable_series df c H).
Qed.

Lemma freq_conjunct_ok merged name t mask :
  (forall g, name = Some g -> comparable_column merged g) ->
  exists m, freq_conjunct merged name t mask = ([], inr m).
Proof.
  intros H. unfold freq_conjunct. destruct name as [g|]; [|now eexists].
  destruct (series_le_ok merged g t (H g eq_refl)) as (s & m & -> & Hle).
  rewrite bind_nil, Hle, bind_nil. now eexists.
Qed.

Lemma final_mask_ok merged ga gr t1 t2 t3 :
  (forall g, ga = Some g -> comparable_column merged g) ->
  (forall g, gr = Some g -> comparable_column merged g) ->
  comparable_column merged "zim_AF" ->
  PyStr.mem "impact_tier" (columns merged) = true ->
  exists mask, final_mask merged ga gr t1 t2 t3 = ([], inr mask).
Proof.
  intros Ha Hr Hz Hi. unfold final_mask.
  destruct (freq_conjunct_ok merged ga t1 (repeat true (len merged)) Ha) as (m1 & ->).
  rewrite bind_nil.
  destruct (freq_conjunct_ok merged gr t2 m1 Hr) as (m2 & ->). rewrite bind_nil.
  destruct (series_le_ok merged "zim_AF" t3 Hz) as (s & m & Hs & Hle).
  rewrite Hs, bind_nil, Hle, bind_nil. rewrite (getitem_ok _ _ Hi), bind_nil.
  now eexists.
Qed.

Lemma flag_column_ok merged source flag f :
  (forall g, source = Some g -> comparable_column merged g) ->
  exists f', flag_column merged source flag f = ([], inr f').
Proof.
  intros H. unfold flag_column. destruct source as [g|]; [|now eexists].
  destruct (series_gt_ok merged g flag_threshold (H g eq_refl)) as (s & m & -> & Hgt).
  rewrite bind_nil, Hgt, bind_nil. now eexists.
Qed.

Lemma flags_ok merged ga gr f :
  (forall g, ga = Some g -> comparable_column merged g) ->
  (forall g, gr = Some g -> comparable_column merged g) ->
  comparable_column merged "zim_AF" ->
  exists f', flags merged ga gr f = ([], inr f').
Proof.
  intros Ha Hr Hz. unfold flags.
  destruct (flag_column_ok merged (Some "zim_AF") "flag_high_zim_af" f) as (f1 & ->).
  { intros g E. injection E as <-. exact Hz. }
  rewrite bind_nil.
  destruct (flag_column_ok merged ga "flag_common_gnomad" f1 Ha) as (f2 & ->).
  rewrite bind_nil. apply flag_column_ok, Hr.
Qed.

Lemma is_str_fillna v c : is_str c = false -> is_str (fillna v c) = false.
Proof. unfold fillna. destruct (isna c); auto. Qed.

Section Completion.

Variable py : Runtime.

Lemma read_annotation_ok ap ann :
  read_csv py ap false = inr ann ->
  (forall c, In c core_columns -> In c (columns ann)) ->
  exists tr, read_annotation py ap = (tr, inr ann).
Proof.
  intros Hr Hc.
  assert (Hfor : for_each core_columns
                   (fun col => if negb (PyStr.mem col (columns ann))
                               then raise (SystemExit (missing_core_msg col))
                               else ret tt)
                 = ([], inr tt)).
  { cbn [for_each core_columns].
    rewrite !(proj2 (mem_In _ _)) by (apply Hc; cbn; auto 10).
    cbn [negb]. now rewrite !ret_bind. }
  exists (fst (read_annotation py ap)).
  rewrite (surjective_pairing (read_annotation py ap)) at 1.
  f_equal. unfold read_annotation. rewrite Hr.
  rewrite (snd_bind_ok _ _ _ _ (eq_refl : print _ = (_, inr tt))).
  rewrite (snd_bind_ok _ _ _ _ (eq_refl : lift (inr ann) = (_, inr ann))).
  rewrite (snd_bind_ok _ _ _ _ (eq_refl : print _ = (_, inr tt))).
  rewrite (snd_bind_ok _ _ _ _ Hfor). reflexivity.
Qed.

(** The columns the comparisons read are comparable in the annotated
    table, as soon as the cohort frequencies hold no string. *)
Lemma annotated_comparable zp tr_z zim ann tr_m merged0 tr_i merged :
  load_zim_db py zp = (tr_z, inr zim) ->
  merge_zim (with_max_columns py ann) zim = (tr_m, inr merged0) ->
  impact_tier merged0 = (tr_i, inr merged) ->
  (forall z, In z (body zim) -> is_str (get (snd z) "zim_AF") = false) ->
  (forall g, gnomad_all_name ann = Some g \/ gnomad_afr_name ann = Some g ->
             comparable_column merged g)
  /\ comparable_column merged "zim_AF"
  /\ PyStr.mem "impact_tier" (columns merged) = true.
Proof.
  intros Hz Hm Hi Hzs.
  destruct (merged_shape py _ _ _ _ _ _ Hz Hm) as (_ & Hno & E0).
  destruct (impact_tier_assign _ _ _ Hi) as (F & E).
  assert (Hcols : forall c, In c (columns merged0) -> PyStr.mem c (columns merged) = true).
  { intros c Hc. apply mem_In. rewrite E. unfold assign. cbn [columns].
    now apply In_col_add. }
  assert (Hrow : forall ir, In ir (body merged) ->
            exists l v tier,
              In l (map snd (body (with_max_columns py ann)))
              /\ In v (joined_freqs zim l)
              /\ snd ir = annotated_row (columns (with_max_columns py ann)) l v tier).
  { intros [i r] Hin. apply (annotated_row_inv py _ _ _ _ _ _ _ _ _ _ Hz Hm Hi Hin). }
  split; [|split].
  - intros g Hg. split.
    + apply Hcols. rewrite E0. cbn [columns]. apply in_or_app. left.
      now apply max_columns_present.
    + intros ir Hin. destruct (Hrow ir Hin) as (l & v & tier & Hl & _ & ->).
      rewrite get_annotated_left.
      * rewrite body_with_max_columns, map_map in Hl. cbn [snd] in Hl.
        apply in_map_iff in Hl as (ir0 & <- & _). now apply max_columns_numeric.
      * now apply max_columns_present.
      * unfold gnomad_all_name, gnomad_afr_name, created in Hg.
        destruct Hg as [Hg|Hg];
          [destruct (gnomad_all_candidates ann)|destruct (gnomad_afr_candidates ann)];
          try discriminate; injection Hg as <-; discriminate.
  - split.
    + apply Hcols. rewrite E0. cbn [columns]. apply in_or_app. right. now left.
    + intros ir Hin. destruct (Hrow ir Hin) as (l & v & tier & _ & Hv & ->).
      rewrite get_annotated_freq by exact Hno. apply is_str_fillna.
      unfold joined_freqs in Hv.
      destruct (filter (row_matches on_keys l) (map snd (body zim))) as [|z ms] eqn:Ef.
      * destruct Hv as [<-|[]]. reflexivity.
      * apply in_map_iff in Hv as (z' & <- & Hz').
        assert (Hf : In z' (filter (row_matches on_keys l) (map snd (body zim))))
          by now rewrite Ef.
        apply filter_In in Hf as (Hf & _). apply in_map_iff in Hf as (iz & <- & Hiz).
        now apply Hzs.
  - apply mem_In. rewrite E. unfold assign. cbn [columns]. apply In_col_add_self.
Qed.

(** A run whose tables load, join and classify, and whose cohort
    frequencies hold no string, completes. *)
Lemma prioritise_completes ap zp pre t1 t2 t3 ann zim tr_z tr_m merged0 tr_i merged :
  read_csv py ap false = inr ann ->
  (forall c, In c core_columns -> In c (columns ann)) ->
  load_zim_db py zp = (tr_z, inr zim) ->
  merge_zim (with_max_columns py ann) zim = (tr_m, inr merged0) ->
  impact_tier merged0 = (tr_i, inr merged) ->
  (forall z, In z (body zim) -> is_str (get (snd z) "zim_AF") = false) ->
  exists tr, prioritise py ap zp pre t1 t2 t3 = (tr, inr tt).
Proof.
  intros Hr Hc Hz Hm Hi Hzs.
  destruct (annotated_comparable _ _ _ _ _ _ _ _ Hz Hm Hi Hzs) as (Hg & Hzc & Hic).
  destruct (read_annotation_ok _ _ Hr Hc) as (tr_a & Ha).
  destruct (gnomad_columns_ok py ann) as (tr_g & Hgc & _).
  destruct (final_mask_ok merged (gnomad_all_name ann) (gnomad_afr_name ann) t1 t2 t3)
    as (mask & Hmask); auto.
  destruct (flags_ok merged (gnomad_all_name ann) (gnomad_afr_name ann)
                     (select_rows mask merged)) as (filtered & Hfl); auto.
  exists (fst (prioritise py ap zp pre t1 t2 t3)).
  rewrite (surjective_pairing (prioritise py ap zp pre t1 t2 t3)) at 1.
  f_equal. unfold prioritise.
  rewrite (snd_bind_ok _ _ _ _ Ha), (snd_bind_ok _ _ _ _ Hgc). cbn [fst snd].
  rewrite (snd_bind_ok _ _ _ _ (eq_refl : print _ = (_, inr tt))).
  rewrite (snd_bind_ok _ _ _ _ Hz).
  rewrite (snd_bind_ok _ _ _ _ (eq_refl : print _ = (_, inr tt))).
  rewrite (snd_bind_ok _ _ _ _ Hm), (snd_bind_ok _ _ _ _ Hi).
  rewrite (snd_bind_ok _ _ _ _ Hmask).
  rewrite (snd_bind_ok _ _ _ _ (eq_refl : print _ = (_, inr tt))).
  rewrite (snd_bind_ok _ _ _ _ Hfl).
  reflexivity.
Qed.

End Completion.

(* ================================================================== *)
(** ** Degraded mode: the consequence columns are missing *)
(* ================================================================== *)

Lemma impact_tier_degraded merged0 :
  PyStr.mem func_col (columns merged0) && PyStr.mem exonic_func_col (columns merged0)
  = false ->
  impact_tier merged0
  = ([Printed impact_warning],
     inr (assign "impact_tier" (fun _ => Str "unknown") merged0)).
Proof.
  unfold impact_tier.
  destruct (PyStr.mem func_col (columns merged0)),
           (PyStr.mem exonic_func_col (columns merged0)); cbn; congruence.
Qed.

Lemma filter_none {A} (f : A -> bool) l :
  (forall x, In x l -> f x = false) -> filter f l = [].
Proof.
  induction l as [|x l IH]; intros H; cbn; [reflexivity|].
  rewrite (H x (or_introl eq_refl)). apply IH. intros y Hy. apply H. now right.
Qed.

Section Degraded.

Variable py : Runtime.

(** Every annotation row has a row in the annotated output. *)
Lemma annotation_rows_present zp tr_z zim ann tr_m merged0 tr_i merged :
  load_zim_db py zp = (tr_z, inr zim) ->
  merge_zim (with_max_columns py ann) zim = (tr_m, inr merged0) ->
  impact_tier merged0 = (tr_i, inr merged) ->
  (forall c, In c core_columns -> In c (columns ann)) ->
  forall a, In a (body ann) ->
    exists i r, In (i, r) (body merged)
                /\ forall k, In k on_keys -> get r k = get (snd a) k.
Proof.
  intros Hz Hm Hi Hcore [i0 l0] Ha. cbn [snd].
  set (l := max_col_row py (gnomad_afr_candidates ann) "gnomad_AFR_AF_max"
              (max_col_row py (gnomad_all_candidates ann) "gnomad_AF_max" l0)).
  assert (Hl : In l (map snd (body (with_max_columns py ann)))).
  { rewrite body_with_max_columns, map_map. cbn [snd].
    apply in_map_iff. now exists (i0, l0). }
  destruct (joined_freqs zim l) as [|v vs] eqn:Ev;
    [now apply joined_freqs_nonempty in Ev|].
  assert (Hv : In v (joined_freqs zim l)) by (rewrite Ev; now left).
  destruct (annotated_row_intro py _ _ _ _ _ _ _ _ _ _ Hz Hm Hi Hl Hv)
    as (i & tier & Hin).
  eexists i, _. split; [exact Hin|].
  intros k Hk. rewrite get_annotated_left.
  - apply get_key_with_max_columns. now apply on_keys_core.
  - apply columns_with_max_columns_incl, Hcore, on_keys_core, Hk.
  - now apply on_keys_not_tier.
Qed.

Lemma degraded_columns zp tr_z zim ann tr_m merged0 :
  load_zim_db py zp = (tr_z, inr zim) ->
  merge_zim (with_max_columns py ann) zim = (tr_m, inr merged0) ->
  ~ In func_col (columns ann) \/ ~ In exonic_func_col (columns ann) ->
  PyStr.mem func_col (columns merged0) && PyStr.mem exonic_func_col (columns merged0)
  = false.
Proof.
  intros Hz Hm Hlack.
  destruct (merged_shape py _ _ _ _ _ _ Hz Hm) as (_ & _ & ->). cbn [columns].
  assert (K : forall c, c <> "zim_AF" -> c <> "gnomad_AF_max" ->
                        c <> "gnomad_AFR_AF_max" -> ~ In c (columns ann) ->
                        PyStr.mem c (columns (with_max_columns py ann) ++ ["zim_AF"])
                        = false).
  { intros c N1 N2 N3 Hc. apply mem_false. intros Hin.
    apply in_app_or in Hin as [Hin|[E|[]]]; [|congruence].
    apply columns_with_max_columns in Hin as [Hin|[E|E]]; congruence. }
  destruct Hlack as [H|H].
  - rewrite (K func_col) by (discriminate || exact H). reflexivity.
  - rewrite (K exonic_func_col) by (discriminate || exact H). apply andb_false_r.
Qed.

End Degraded.

(* ================================================================== *)
(** ** Fatal exit on a missing identity column *)
(* ================================================================== *)

Lemma for_each_fail {A} (bad : A -> bool) (e : A -> exn) xs x :
  find bad xs = Some x ->
  for_each xs (fun y => if bad y then raise (e y) else ret tt) = ([], inl (e x)).
Proof.
  induction xs as [|y xs IH]; cbn; [discriminate|].
  destruct (bad y).
  - intros E. injection E as ->. reflexivity.
  - intros E. rewrite ret_bind. now apply IH.
Qed.

Lemma quiet_for_each {A} (xs : list A) f :
  (forall x, quiet (f x)) -> quiet (for_each xs f).
Proof.
  intros H. induction xs as [|x t IH]; cbn; [reflexivity|].
  apply quiet_bind; auto.
Qed.

Lemma snd_bind_fail {A B} (m : M A) (k : A -> M B) tr e :
  m = (tr, inl e) -> snd (bind m k) = inl e.
Proof. intros ->. reflexivity. Qed.

Lemma core_message_names col :
  In col core_columns -> PyStr.contains col (missing_core_msg col) = true.
Proof. intros [<-|[<-|[<-|[<-|[<-|[]]]]]]; reflexivity. Qed.

Section Fatal.

Variable py : Runtime.

Lemma quiet_read_annotation ap : quiet (read_annotation py ap).
Proof.
  unfold read_annotation.
  apply quiet_bind; [apply quiet_print|intros _].
  apply quiet_bind; [apply silent_quiet, silent_lift|intros ann].
  apply quiet_bind; [apply quiet_print|intros _].
  apply quiet_bind; [|intros _; apply silent_quiet, silent_ret].
  apply quiet_for_each. intros c.
  destruct (negb _); apply silent_quiet; [apply silent_raise|apply silent_ret].
Qed.

Lemma read_annotation_fail ap ann col :
  read_csv py ap false = inr ann ->
  find (fun c => negb (PyStr.mem c (columns ann))) core_columns = Some col ->
  exists tr, read_annotation py ap = (tr, inl (SystemExit (missing_core_msg col)))
             /\ written tr = [].
Proof.
  intros Hr Hf. exists (fst (read_annotation py ap)).
  split; [|apply quiet_read_annotation].
  rewrite (surjective_pairing (read_annotation py ap)) at 1. f_equal.
  unfold read_annotation. rewrite Hr.
  rewrite (snd_bind_ok _ _ _ _ (eq_refl : print _ = (_, inr tt))).
  rewrite (snd_bind_ok _ _ _ _ (eq_refl : lift (inr ann) = (_, inr ann))).
  rewrite (snd_bind_ok _ _ _ _ (eq_refl : print _ = (_, inr tt))).
  apply (snd_bind_fail _ _ []).
  apply (for_each_fail (fun c => negb (PyStr.mem c (columns ann)))
                       (fun c => SystemExit (missing_core_msg c))).
  exact Hf.
Qed.

Lemma fst_bind_ok {A B} (m : M A) (k : A -> M B) tr a :
  m = (tr, inr a) -> fst (bind m k) = (tr ++ fst (k a))%list.
Proof. intros ->. reflexivity. Qed.

Lemma read_annotation_fail_trace ap ann col :
  read_csv py ap false = inr ann ->
  find (fun c => negb (PyStr.mem c (columns ann))) core_columns = Some col ->
  read_annotation py ap
  = ([Printed ("Reading ANNOVAR multianno file: " ++ ap);
      Printed ("  n = " ++ PyStr.of_nat (len ann) ++ " variants before filtering")],
     inl (SystemExit (missing_core_msg col))).
Proof.
  intros Hr Hf.
  destruct (read_annotation_fail ap ann col Hr Hf) as (tr & E & _).
  rewrite E. f_equal.
  change tr with (fst (tr, @inl exn DataFrame (SystemExit (missing_core_msg col)))).
  rewrite <- E. unfold read_annotation. rewrite Hr.
  rewrite (fst_bind_ok _ _ _ _ (eq_refl : print _ = (_, inr tt))).
  rewrite (fst_bind_ok _ _ _ _ (eq_refl : lift (inr ann) = (_, inr ann))).
  rewrite (fst_bind_ok _ _ _ _ (eq_refl : print _ = (_, inr tt))).
  rewrite (bind_fail _ _ [] (SystemExit (missing_core_msg col))); [reflexivity|].
  apply (for_each_fail (fun c => negb (PyStr.mem c (columns ann)))
                       (fun c => SystemExit (missing_core_msg c))).
  exact Hf.
Qed.

(** An annotation without one of Chr, Start, End, Ref, Alt: the run prints
    the reading line and the row count, then ends in SystemExit; nothing else
    is printed and no file is written, and the message is the fixed sentence
    about the first of the five labels, in this order, that the annotation
    lacks. *)
Theorem missing_identity_column_exit ap zp pre t1 t2 t3 ann col :
  read_csv py ap false = inr ann ->
  find (fun c => negb (PyStr.mem c (columns ann))) core_columns = Some col ->
  prioritise py ap zp pre t1 t2 t3
  = ([Printed ("Reading ANNOVAR multianno file: " ++ ap);
      Printed ("  n = " ++ PyStr.of_nat (len ann) ++ " variants before filtering")],
     inl (SystemExit ("Missing required column '" ++ col
                      ++ "' in multianno file.")))
  /\ In col core_columns /\ ~ In col (columns ann).
Proof.
  intros Hr Hf.
  pose proof (find_some _ _ Hf) as (Hin & Hb).
  apply negb_true_iff, mem_false in Hb.
  repeat split; auto.
  unfold prioritise.
  now rewrite (bind_fail _ _ _ _ (read_annotation_fail_trace ap ann col Hr Hf)).
Qed.

End Fatal.

(* ================================================================== *)
(** ** The two tables of a completed run *)
(* ================================================================== *)

Lemma Forall2_map_l {A B C} (R : B -> C -> Prop) (f : A -> B) (l : list A) (l' : list C) :
  Forall2 (fun a c => R (f a) c) l l' -> Forall2 R (map f l) l'.
Proof. induction 1; constructor; auto. Qed.

Lemma Forall2_diag {A} (R : A -> A -> Prop) (l : list A) :
  (forall a, In a l -> R a a) -> Forall2 R l l.
Proof.
  induction l as [|a l IH]; intros H; constructor.
  - apply H. now left.
  - apply IH. intros b Hb. apply H. now right.
Qed.

(** When some row passes the filter, the prioritised table is the passing
    rows, in order and under their labels, each with its own flags. *)
Lemma prioritised_rows_selected merged ga gr t1 t2 t3 :
  NoDup (index merged) ->
  selected merged ga gr t1 t2 t3 <> [] ->
  Forall2 (fun ir' ir => fst ir' = fst ir
                         /\ carries (snd ir') (snd ir)
                         /\ flags_from ga gr (snd ir') (snd ir))
          (body (prioritised_of merged ga gr t1 t2 t3))
          (selected merged ga gr t1 t2 t3).
Proof.
  intros ND N. rewrite body_prioritised_of, (selected_rows _ _ _ _ _ _ N).
  apply Forall2_map_l, Forall2_diag. intros [i r] Hin. cbn [fst snd].
  apply In_selected in Hin as (Hin & _).
  destruct (flagged_cells merged ga gr i r r ND Hin) as (Hc & Hz & Ha & Hr).
  split; [reflexivity|]. split; [exact Hc|]. split; [exact Hz|]. split; assumption.
Qed.

(** When no row passes, the prioritised table has one row per row of the
    merged table, under the same label: its cells are missing and its flags
    are those of the merged row. *)
Lemma prioritised_rows_unselected merged ga gr t1 t2 t3 :
  NoDup (index merged) ->
  selected merged ga gr t1 t2 t3 = [] ->
  Forall2 (fun ir' ir => fst ir' = fst ir
                         /\ blank (snd ir')
                         /\ flags_from ga gr (snd ir') (snd ir))
          (body (prioritised_of merged ga gr t1 t2 t3))
          (body merged).
Proof.
  intros ND N. rewrite body_prioritised_of, (unselected_rows _ _ _ _ _ _ N).
  rewrite map_map. apply Forall2_map_l, Forall2_diag. intros [i r] Hin. cbn [fst snd].
  destruct (flagged_cells merged ga gr i (nan_row (columns merged)) r ND Hin)
    as (Hc & Hz & Ha & Hr).
  split; [reflexivity|]. split; [|split; [exact Hz|split; assumption]].
  intros c N1 N2 N3. rewrite (Hc c N1 N2 N3). apply get_nan_row.
Qed.

Lemma Forall2_index {R : nat * row -> nat * row -> Prop} (l l' : list (nat * row)) :
  Forall2 (fun a b => fst a = fst b /\ R a b) l l' -> map fst l = map fst l'.
Proof. induction 1 as [|a b l l' (E & _) _ IH]; cbn; congruence. Qed.

Lemma Forall2_In_l {A B} (R : A -> B -> Prop) l l' a :
  Forall2 R l l' -> In a l -> exists b, In b l' /\ R a b.
Proof.
  induction 1 as [|x y l l' Hxy _ IH]; intros Hin; [contradiction|].
  destruct Hin as [<-|Hin].
  - exists y. split; [now left|exact Hxy].
  - destruct (IH Hin) as (b & Hb & Hr). exists b. split; [now right|exact Hr].
Qed.

Section Written.

Variable py : Runtime.

(** The two tables a completed run writes: the merged table, labelled
    0, 1, 2, ..., and the table made from it by lines 173-181. *)
Lemma prioritised_written ap zp pre t1 t2 t3 tr ann :
  prioritise py ap zp pre t1 t2 t3 = (tr, inr tt) ->
  read_csv py ap false = inr ann ->
  exists merged,
    written tr
    = [(out_all pre, merged);
       (out_filtered pre,
        prioritised_of merged (gnomad_all_name ann) (gnomad_afr_name ann) t1 t2 t3)]
    /\ NoDup (index merged)
    /\ index merged = seq 0 (len merged).
Proof.
  intros H Hr.
  apply (prioritise_inr py) in H
    as (ann' & zim & merged0 & merged & tr_z & tr_i & Hr' & _ & _ & Hm & Hi & Hw & _).
  rewrite Hr in Hr'. injection Hr' as <-.
  exists merged. split; [exact Hw|]. split.
  - exact (NoDup_index_merged _ _ _ _ _ _ Hm Hi).
  - rewrite (index_impact_tier _ _ _ Hi), (index_merge_zim _ _ _ _ Hm).
    f_equal. unfold len. rewrite <- (length_map fst (body merged)).
    change (map fst (body merged)) with (index merged).
    rewrite (index_impact_tier _ _ _ Hi). unfold index. now rewrite length_map.
Qed.

End Written.

(* ================================================================== *)
(** ** What every run leaves behind *)
(* ================================================================== *)

Lemma silent_flags merged ga gr f : silent (flags merged ga gr f).
Proof.
  unfold flags, flag_column.
  silence; try apply silent_getitem; apply silent_series_gt.
Qed.

Lemma all_or_nothing_bind {A} p1 p2 (m : M A) (k : A -> M unit) :
  quiet m -> (forall a, all_or_nothing p1 p2 (k a)) ->
  all_or_nothing p1 p2 (bind m k).
Proof.
  destruct m as [tr [e|a]]; unfold quiet, all_or_nothing; cbn [fst snd bind];
    intros Q H.
  - left. now exists e.
  - rewrite written_app, Q. cbn [app]. apply H.
Qed.

Section Outputs.

Variable py : Runtime.

Lemma quiet_gnomad_columns ann : quiet (gnomad_columns py ann).
Proof.
  destruct (gnomad_columns_ok py ann) as (tr & E & W). unfold quiet.
  now rewrite E.
Qed.

Lemma run_all_or_nothing ap zp pre t1 t2 t3 :
  all_or_nothing (out_all pre) (out_filtered pre) (prioritise py ap zp pre t1 t2 t3).
Proof.
  unfold prioritise.
  apply all_or_nothing_bind; [apply quiet_read_annotation|intros ann].
  apply all_or_nothing_bind; [apply quiet_gnomad_columns|intros g].
  apply all_or_nothing_bind; [apply quiet_print|intros _].
  apply all_or_nothing_bind;
    [apply silent_quiet, silent_load_zim_db|intros zim].
  apply all_or_nothing_bind; [apply quiet_print|intros _].
  apply all_or_nothing_bind; [apply silent_quiet, silent_merge_zim|intros merged0].
  apply all_or_nothing_bind; [apply quiet_impact_tier|intros merged].
  apply all_or_nothing_bind; [apply silent_quiet, silent_final_mask|intros mask].
  apply all_or_nothing_bind; [apply quiet_print|intros _].
  apply all_or_nothing_bind; [apply silent_quiet, silent_flags|intros filtered].
  right. split; reflexivity.
Qed.

(** Every exception the steps of [prioritise] can raise (reading,
    validating, building the max columns, loading the cohort table, joining,
    classifying, filtering, flagging) comes before the first write: a run
    either stops on an exception with no file written, or completes having
    written exactly two files, the annotated table first and the prioritised
    one second, at the two paths made from the prefix. Writing a table is
    taken to succeed. *)
Theorem outputs_all_or_nothing ap zp pre t1 t2 t3 :
  let run := prioritise py ap zp pre t1 t2 t3 in
  (exists e, snd run = inl e /\ written (fst run) = [])
  \/ (snd run = inr tt
      /\ map fst (written (fst run))
         = [pre ++ ".zim_annotated.tsv"; pre ++ ".zim_prioritised.tsv"]).
Proof. apply run_all_or_nothing. Qed.

End Outputs.

(* ================================================================== *)
(** ** The thresholds: what depends on them and what does not *)
(* ================================================================== *)

Lemma same_status_refl {A} (m : M A) : silent m -> same_status m m.
Proof.
  intros S. repeat split; auto. now destruct (snd m).
Qed.

Lemma same_status_bind {A B C} (m : M A) (m' : M B) (k : A -> M C) (k' : B -> M C) :
  same_status m m' ->
  (forall a a', snd m = inr a -> snd m' = inr a' -> same_status (k a) (k' a')) ->
  same_status (bind m k) (bind m' k').
Proof.
  destruct m as [tr [e|a]], m' as [tr' [e'|a']]; unfold same_status, silent;
    cbn [fst snd bind]; intros (-> & -> & E) H; try contradiction; auto.
  destruct (H a a' eq_refl eq_refl) as (S1 & S2 & E').
  rewrite S1, S2. auto.
Qed.

Lemma same_status_bind_same {A C} (m : M A) (k k' : A -> M C) :
  silent m -> (forall a, same_status (k a) (k' a)) ->
  same_status (bind m k) (bind m k').
Proof.
  intros S H. apply same_status_bind; [now apply same_status_refl|].
  intros a a' E E'. rewrite E in E'. injection E' as <-. apply H.
Qed.

Lemma same_status_ret {A B} (a : A) (b : B) :
  same_status (ret a) (ret b).
Proof. repeat split. Qed.

Lemma same_status_series_le s t t' : same_status (series_le s t) (series_le s t').
Proof.
  unfold series_le. destruct (existsb _ s); repeat split.
Qed.

Lemma same_status_freq_conjunct merged name t t' mask mask' :
  same_status (freq_conjunct merged name t mask)
              (freq_conjunct merged name t' mask').
Proof.
  unfold freq_conjunct. destruct name as [g|]; [|apply same_status_ret].
  apply same_status_bind_same; [apply silent_getitem|intros s].
  apply same_status_bind; [apply same_status_series_le|intros; apply same_status_ret].
Qed.

(** Whether the mask of lines 155-171 can be computed does not depend on
    the thresholds. *)
Lemma same_status_final_mask merged ga gr t1 t2 t3 t1' t2' t3' :
  same_status (final_mask merged ga gr t1 t2 t3)
              (final_mask merged ga gr t1' t2' t3').
Proof.
  unfold final_mask.
  apply same_status_bind; [apply same_status_freq_conjunct|intros m1 m1' _ _].
  apply same_status_bind; [apply same_status_freq_conjunct|intros m2 m2' _ _].
  apply same_status_bind_same; [apply silent_getitem|intros s].
  apply same_status_bind; [apply same_status_series_le|intros z z' _ _].
  apply same_status_bind_same; [apply silent_getitem|intros s'].
  apply same_status_ret.
Qed.

Lemma same_status_flag_column merged source flag f f' :
  same_status (flag_column merged source flag f) (flag_column merged source flag f').
Proof.
  unfold flag_column. destruct source as [g|]; [|apply same_status_ret].
  apply same_status_bind_same; [apply silent_getitem|intros s].
  apply same_status_bind_same; [apply silent_series_gt|intros; apply same_status_ret].
Qed.

(** Whether the flags of lines 176-181 can be computed does not depend on
    the rows that were kept. *)
Lemma same_status_flags merged ga gr f f' :
  same_status (flags merged ga gr f) (flags merged ga gr f').
Proof.
  unfold flags.
  apply same_status_bind; [apply same_status_flag_column|intros x x' _ _].
  apply same_status_bind; [apply same_status_flag_column|intros y y' _ _].
  apply same_status_flag_column.
Qed.

Lemma same_annotated_bind {A} (m : M A) (k k' : A -> M unit) :
  (forall a, same_annotated (k a) (k' a)) ->
  same_annotated (bind m k) (bind m k').
Proof.
  destruct m as [tr [e|a]]; unfold same_annotated; cbn [fst snd bind]; intros H.
  - auto.
  - destruct (H a) as (E & W). split; [exact E|].
    rewrite !written_app. destruct (written tr); [exact W|reflexivity].
Qed.

Lemma same_annotated_status {A B} (m : M A) (m' : M B) (k : A -> M unit)
  (k' : B -> M unit) :
  same_status m m' ->
  (forall a a', snd m = inr a -> snd m' = inr a' -> same_annotated (k a) (k' a')) ->
  same_annotated (bind m k) (bind m' k').
Proof.
  destruct m as [tr [e|a]], m' as [tr' [e'|a']]; unfold same_status, silent;
    cbn [fst snd bind]; intros (-> & -> & E) H; try contradiction.
  - subst. split; reflexivity.
  - apply (H a a' eq_refl eq_refl).
Qed.

Lemma same_annotated_print s s' (k k' : unit -> M unit) :
  same_annotated (k tt) (k' tt) ->
  same_annotated (bind (print s) k) (bind (print s') k').
Proof. intros H. exact H. Qed.

Section Thresholds.

Variable py : Runtime.

Lemma thresholds_same_annotated ap zp pre t1 t2 t3 t1' t2' t3' :
  same_annotated (prioritise py ap zp pre t1 t2 t3)
                 (prioritise py ap zp pre t1' t2' t3').
Proof.
  unfold prioritise.
  apply same_annotated_bind; intros ann.
  apply same_annotated_bind; intros g.
  apply same_annotated_bind; intros _.
  apply same_annotated_bind; intros zim.
  apply same_annotated_bind; intros _.
  apply same_annotated_bind; intros merged0.
  apply same_annotated_bind; intros merged.
  apply same_annotated_status; [apply same_status_final_mask|intros mask mask' _ _].
  apply same_annotated_print.
  apply same_annotated_status; [apply same_status_flags|intros f f' _ _].
  split; reflexivity.
Qed.

(** The thresholds decide nothing but which rows are prioritised: two runs
    on the same files with different thresholds end the same way (the same
    exception, or both complete), and the annotated file they write first is
    the same table at the same path. *)
Theorem annotated_independent_of_thresholds ap zp pre t1 t2 t3 t1' t2' t3' :
  let run := prioritise py ap zp pre t1 t2 t3 in
  let run' := prioritise py ap zp pre t1' t2' t3' in
  snd run = snd run'
  /\ hd_error (written (fst run)) = hd_error (written (fst run')).
Proof. apply thresholds_same_annotated. Qed.

Lemma le_cell_mono t t' c :
  (t <=? t')%float = true -> le_cell t c = true -> le_cell t' c = true.
Proof.
  unfold le_cell. destruct (comparable c) as [x|]; [|discriminate].
  intros Ht Hx. now apply (F.leb_trans x t t').
Qed.

Lemma freq_ok_mono name t t' r :
  (t <=? t')%float = true -> freq_ok name t r = true -> freq_ok name t' r = true.
Proof.
  unfold freq_ok. destruct name as [g|]; [|auto].
  rewrite !orb_true_iff. intros Ht [H|H]; [now left|right].
  now apply (le_cell_mono t t').
Qed.

Lemma keep_mono ga gr t1 t2 t3 t1' t2' t3' r :
  (t1 <=? t1')%float = true -> (t2 <=? t2')%float = true ->
  (t3 <=? t3')%float = true ->
  keep ga gr t1 t2 t3 r = true -> keep ga gr t1' t2' t3' r = true.
Proof.
  unfold keep, cohort_ok. rewrite !andb_true_iff.
  intros H1 H2 H3 (((A & B) & C) & D). repeat split; auto.
  - now apply (freq_ok_mono ga t1 t1').
  - now apply (freq_ok_mono gr t2 t2').
  - now apply (le_cell_mono t3 t3').
Qed.

Lemma selected_mono merged ga gr t1 t2 t3 t1' t2' t3' :
  (t1 <=? t1')%float = true -> (t2 <=? t2')%float = true ->
  (t3 <=? t3')%float = true ->
  incl (selected merged ga gr t1 t2 t3) (selected merged ga gr t1' t2' t3').
Proof.
  intros H1 H2 H3 ir Hin. apply In_selected in Hin as (Hin & Hk).
  apply In_selected. split; [exact Hin|].
  now apply (keep_mono _ _ t1 t2 t3 t1' t2' t3').
Qed.

(** Raising a threshold never loses a passing variant: when a run completes,
    the run on the same files with thresholds that are all at least as large
    completes too and writes the same annotated table; every row that passes
    the filter of the first run passes that of the second; and when at least
    one row passes in the first run, both prioritised tables are indexed by
    their passing rows, so that the second holds every row (by index label)
    of the first. *)
Theorem prioritised_monotone ap zp pre t1 t2 t3 t1' t2' t3' tr ann :
  prioritise py ap zp pre t1 t2 t3 = (tr, inr tt) ->
  read_csv py ap false = inr ann ->
  (t1 <=? t1')%float = true ->
  (t2 <=? t2')%float = true ->
  (t3 <=? t3')%float = true ->
  exists tr' merged filtered filtered',
    prioritise py ap zp pre t1' t2' t3' = (tr', inr tt)
    /\ written tr = [(out_all pre, merged); (out_filtered pre, filtered)]
    /\ written tr' = [(out_all pre, merged); (out_filtered pre, filtered')]
    /\ incl (selected merged (gnomad_all_name ann) (gnomad_afr_name ann) t1 t2 t3)
            (selected merged (gnomad_all_name ann) (gnomad_afr_name ann) t1' t2' t3')
    /\ (selected merged (gnomad_all_name ann) (gnomad_afr_name ann) t1 t2 t3 <> [] ->
        index filtered
        = map fst (selected merged (gnomad_all_name ann) (gnomad_afr_name ann)
                            t1 t2 t3)
        /\ index filtered'
           = map fst (selected merged (gnomad_all_name ann) (gnomad_afr_name ann)
                               t1' t2' t3')
        /\ forall i, In i (index filtered) -> In i (index filtered')).
Proof.
  intros H Hr H1 H2 H3.
  destruct (thresholds_same_annotated ap zp pre t1 t2 t3 t1' t2' t3') as (E & _).
  rewrite H in E. cbn [snd] in E.
  assert (H' : prioritise py ap zp pre t1' t2' t3'
               = (fst (prioritise py ap zp pre t1' t2' t3'), inr tt)).
  { rewrite (surjective_pairing (prioritise py ap zp pre t1' t2' t3')) at 1.
    now rewrite <- E. }
  apply prioritise_inr in H
    as (ann0 & zim & merged0 & merged & tr_z & tr_i & Hr0 & _ & Hz & Hm & Hi & Hw & _).
  pose proof H' as H''.
  apply prioritise_inr in H''
    as (ann' & zim' & merged0' & merged' & tr_z' & tr_i'
        & Hr' & _ & Hz' & Hm' & Hi' & Hw' & _).
  rewrite Hr in Hr0. injection Hr0 as <-.
  rewrite Hr in Hr'. injection Hr' as <-.
  rewrite Hz in Hz'. injection Hz' as <- <-.
  rewrite Hm in Hm'. injection Hm' as <-.
  rewrite Hi in Hi'. injection Hi' as <- <-.
  pose proof (selected_mono merged (gnomad_all_name ann) (gnomad_afr_name ann)
                _ _ _ _ _ _ H1 H2 H3) as Hincl.
  eexists _, merged, _, _. split; [exact H'|]. split; [exact Hw|]. split; [exact Hw'|].
  split; [exact Hincl|]. intros N.
  assert (N' : selected merged (gnomad_all_name ann) (gnomad_afr_name ann) t1' t2' t3'
               <> []).
  { intros E'. destruct (selected merged _ _ t1 t2 t3) as [|x l] eqn:Es; [congruence|].
    specialize (Hincl x (or_introl eq_refl)). now rewrite E' in Hincl. }
  rewrite !index_prioritised_of, !selected_rows by assumption.
  split; [reflexivity|]. split; [reflexivity|].
  intros i. rewrite !in_map_iff. intros (ir & Ei & Hin). exists ir. auto.
Qed.

End Thresholds.

(* ================================================================== *)
(** ** The rows of the prioritised table *)
(* ================================================================== *)

Lemma leb_ltb_false x y : (x <=? y)%float = true -> (y <? x)%float = false.
Proof.
  rewrite leb_spec, ltb_spec. unfold SFleb, SFltb, SFcompare.
  destruct (Prim2SF x) as [s1|s1| |s1 m1 e1], (Prim2SF y) as [s2|s2| |s2 m2 e2];
    try destruct s1; try destruct s2; simpl; try congruence; intros H; F.sf_cmp.
Qed.

(** A value that is missing, or within a threshold that is itself at most
    [u], is not above [u]. *)
Lemma gt_cell_within t u c :
  (t <=? u)%float = true ->
  isna c = true \/ le_cell t c = true ->
  gt_cell u c = false.
Proof.
  intros Ht [H|H].
  - destruct c as [s|x|b]; try discriminate. cbn in *. now apply F.ltb_nan_r.
  - unfold le_cell, gt_cell in *. destruct (comparable c) as [x|]; [|reflexivity].
    apply leb_ltb_false. now apply (F.leb_trans x t u).
Qed.

Lemma le_cell_nan t c : is_nan t = true -> le_cell t c = false.
Proof.
  intros H. unfold le_cell. destruct (comparable c); [|reflexivity].
  now apply F.leb_nan_r.
Qed.

Section Prioritised.

Variable py : Runtime.

Lemma keep_flags_within ga gr t1 t2 t3 r r' :
  keep ga gr t1 t2 t3 r = true ->
  flags_from ga gr r' r ->
  ((t1 <=? 0.01)%float = true -> ga <> None ->
   get r' "flag_common_gnomad" = Bool false)
  /\ ((t2 <=? 0.01)%float = true -> gr <> None ->
      get r' "flag_common_gnomad_afr" = Bool false)
  /\ ((t3 <=? 0.01)%float = true -> get r' "flag_high_zim_af" = Bool false).
Proof.
  intros Hk (Fz & Fa & Fr).
  unfold keep, cohort_ok in Hk. rewrite !andb_true_iff in Hk.
  destruct Hk as (((Ka & Kr) & Kz) & _).
  split; [|split].
  - intros Ht Hc. destruct ga as [g|]; [|congruence].
    rewrite (Fa g eq_refl). f_equal.
    apply (gt_cell_within t1); [exact Ht|]. now apply orb_true_iff.
  - intros Ht Hc. destruct gr as [g|]; [|congruence].
    rewrite (Fr g eq_refl). f_equal.
    apply (gt_cell_within t2); [exact Ht|]. now apply orb_true_iff.
  - intros Ht. rewrite Fz. f_equal. apply (gt_cell_within t3); auto.
Qed.

Lemma created_not_none candidates name :
  candidates <> [] -> created candidates name <> None.
Proof. intros H. now rewrite (created_some _ _ H). Qed.

(** A row of the prioritised table when some row passes: a passing row of
    the merged table under the same label. *)
Lemma prioritised_row_selected merged ga gr t1 t2 t3 i r' :
  NoDup (index merged) ->
  selected merged ga gr t1 t2 t3 <> [] ->
  In (i, r') (body (prioritised_of merged ga gr t1 t2 t3)) ->
  exists r,
    In (i, r) (body merged) /\ keep ga gr t1 t2 t3 r = true
    /\ carries r' r /\ flags_from ga gr r' r.
Proof.
  intros ND N Hin.
  destruct (Forall2_In_l _ _ _ _ (prioritised_rows_selected _ _ _ _ _ _ ND N) Hin)
    as ([j r] & Hs & Ei & Hc & Hf).
  cbn [fst snd] in *. subst j. apply In_selected in Hs as (Hm & Hk).
  exists r. auto.
Qed.

(** A flag whose threshold is at most the flag's fixed 0.01 carries no
    information on the rows that pass: in a completed run where at least one
    row passes the filter, the prioritised table is indexed by the passing
    rows, and with [max_gnomad_af <= 0.01] each of its rows has
    flag_common_gnomad False, with [max_gnomad_afr_af <= 0.01] each has
    flag_common_gnomad_afr False, and with [max_zim_af <= 0.01] each has
    flag_high_zim_af False. *)
Theorem flags_false_within_threshold ap zp pre t1 t2 t3 tr ann :
  prioritise py ap zp pre t1 t2 t3 = (tr, inr tt) ->
  read_csv py ap false = inr ann ->
  exists merged filtered,
    written tr = [(out_all pre, merged); (out_filtered pre, filtered)]
    /\ (selected merged (gnomad_all_name ann) (gnomad_afr_name ann) t1 t2 t3 <> [] ->
        index filtered
        = map fst (selected merged (gnomad_all_name ann) (gnomad_afr_name ann)
                            t1 t2 t3)
        /\ forall i r', In (i, r') (body filtered) ->
             ((t1 <=? 0.01)%float = true -> gnomad_all_candidates ann <> [] ->
              get r' "flag_common_gnomad" = Bool false)
             /\ ((t2 <=? 0.01)%float = true -> gnomad_afr_candidates ann <> [] ->
                 get r' "flag_common_gnomad_afr" = Bool false)
             /\ ((t3 <=? 0.01)%float = true ->
                 get r' "flag_high_zim_af" = Bool false)).
Proof.
  intros H Hr.
  destruct (prioritised_written py _ _ _ _ _ _ _ _ H Hr) as (merged & Hw & ND & _).
  eexists merged, _. split; [exact Hw|]. intros N.
  split; [now rewrite index_prioritised_of, selected_rows|].
  intros i r' Hin.
  destruct (prioritised_row_selected _ _ _ _ _ _ _ _ ND N Hin)
    as (r & _ & Hk & _ & Hf).
  destruct (keep_flags_within _ _ _ _ _ _ _ Hk Hf) as (Fa & Fr & Fz).
  split; [|split].
  - intros Ht Hc. apply Fa; [exact Ht|]. now apply created_not_none.
  - intros Ht Hc. apply Fr; [exact Ht|]. now apply created_not_none.
  - exact Fz.
Qed.

(** With the thresholds left at the defaults of [main] (0.01, 0.01, 0.05):
    in a completed run where at least one row passes the filter, the
    prioritised table is indexed by the passing rows, both gnomAD flags are
    False on each of its rows, its cohort frequency is at most 0.05, and
    flag_high_zim_af is exactly the comparison of that frequency with
    0.01. *)
Theorem main_default_flags args tr ann :
  max_gnomad_af_arg args = None ->
  max_gnomad_afr_af_arg args = None ->
  max_zim_af_arg args = None ->
  main py args = (tr, inr tt) ->
  read_csv py (multianno args) false = inr ann ->
  exists merged filtered,
    written tr = [(out_all (out_prefix_arg args), merged);
                  (out_filtered (out_prefix_arg args), filtered)]
    /\ (selected merged (gnomad_all_name ann) (gnomad_afr_name ann) 0.01 0.01 0.05
        <> [] ->
        index filtered
        = map fst (selected merged (gnomad_all_name ann) (gnomad_afr_name ann)
                            0.01 0.01 0.05)
        /\ forall i r', In (i, r') (body filtered) ->
             (gnomad_all_candidates ann <> [] ->
              get r' "flag_common_gnomad" = Bool false)
             /\ (gnomad_afr_candidates ann <> [] ->
                 get r' "flag_common_gnomad_afr" = Bool false)
             /\ le_cell 0.05 (get r' "zim_AF") = true
             /\ get r' "flag_high_zim_af" = Bool (gt_cell 0.01 (get r' "zim_AF"))).
Proof.
  unfold main. intros -> -> -> H Hr. cbn [default] in H.
  destruct (prioritised_written py _ _ _ _ _ _ _ _ H Hr) as (merged & Hw & ND & _).
  eexists merged, _. split; [exact Hw|]. intros N.
  split; [now rewrite index_prioritised_of, selected_rows|].
  intros i r' Hin.
  destruct (prioritised_row_selected _ _ _ _ _ _ _ _ ND N Hin)
    as (r & _ & Hk & Hc & Hf).
  destruct (keep_flags_within _ _ _ _ _ _ _ Hk Hf) as (Fa & Fr & _).
  destruct Hf as (Fz & _).
  unfold keep, cohort_ok in Hk. rewrite !andb_true_iff in Hk.
  destruct Hk as ((_ & Kz) & _).
  rewrite (Hc "zim_AF") by discriminate.
  split; [|split; [|split]].
  - intros Hn. apply Fa; [reflexivity|]. now apply created_not_none.
  - intros Hn. apply Fr; [reflexivity|]. now apply created_not_none.
  - exact Kz.
  - exact Fz.
Qed.

(** The prioritised table against the annotated one. The annotated rows are
    labelled 0, 1, 2, ... and every annotated column is a prioritised
    column. When at least one row passes the filter, the prioritised rows
    are the passing rows, in the annotated table's order and under their
    labels: apart from the three flag columns each carries the cells of its
    annotated row, and its flags compare that row with 0.01. When no row
    passes, the prioritised table is not empty: it has one row for every
    annotated row, under the same label, whose cells are all missing apart
    from the flags, which compare the annotated row with 0.01. *)
Theorem prioritised_rows_from_annotated ap zp pre t1 t2 t3 tr ann :
  prioritise py ap zp pre t1 t2 t3 = (tr, inr tt) ->
  read_csv py ap false = inr ann ->
  exists merged filtered,
    written tr = [(out_all pre, merged); (out_filtered pre, filtered)]
    /\ index merged = seq 0 (len merged)
    /\ (forall c, In c (columns merged) -> In c (columns filtered))
    /\ (selected merged (gnomad_all_name ann) (gnomad_afr_name ann) t1 t2 t3 <> [] ->
        Forall2 (fun ir' ir =>
                   fst ir' = fst ir /\ carries (snd ir') (snd ir)
                   /\ flags_from (gnomad_all_name ann) (gnomad_afr_name ann)
                                 (snd ir') (snd ir))
                (body filtered)
                (selected merged (gnomad_all_name ann) (gnomad_afr_name ann)
                          t1 t2 t3))
    /\ (selected merged (gnomad_all_name ann) (gnomad_afr_name ann) t1 t2 t3 = [] ->
        Forall2 (fun ir' ir =>
                   fst ir' = fst ir /\ blank (snd ir')
                   /\ flags_from (gnomad_all_name ann) (gnomad_afr_name ann)
                                 (snd ir') (snd ir))
                (body filtered) (body merged)).
Proof.
  intros H Hr.
  destruct (prioritised_written py _ _ _ _ _ _ _ _ H Hr) as (merged & Hw & ND & Hs).
  eexists merged, _. split; [exact Hw|]. split; [exact Hs|].
  split; [|split].
  - intros c Hc. unfold prioritised_of. do 3 apply columns_with_flag_incl. exact Hc.
  - now apply prioritised_rows_selected.
  - now apply prioritised_rows_unselected.
Qed.

Lemma selected_nan_cohort merged ga gr t1 t2 t3 :
  is_nan t3 = true -> selected merged ga gr t1 t2 t3 = [].
Proof.
  intros Hn. unfold selected. apply filter_none. intros ir _.
  unfold keep, cohort_ok. rewrite (le_cell_nan _ _ Hn). now rewrite andb_false_r.
Qed.

(** A threshold given as NaN lets nothing pass that it is compared with. In
    a completed run with a NaN cohort threshold no row passes the filter, and
    the prioritised table has one row per annotated row, under the same
    label, whose cells are missing apart from the flags. With a NaN gnomAD
    threshold every passing row, and every prioritised row, has a missing
    value in the corresponding max column. *)
Theorem nan_threshold ap zp pre t1 t2 t3 tr ann :
  prioritise py ap zp pre t1 t2 t3 = (tr, inr tt) ->
  read_csv py ap false = inr ann ->
  exists merged filtered,
    written tr = [(out_all pre, merged); (out_filtered pre, filtered)]
    /\ (is_nan t3 = true ->
        selected merged (gnomad_all_name ann) (gnomad_afr_name ann) t1 t2 t3 = []
        /\ index filtered = index merged
        /\ forall i r', In (i, r') (body filtered) -> blank r')
    /\ (is_nan t1 = true -> gnomad_all_candidates ann <> [] ->
        (forall ir, In ir (selected merged (gnomad_all_name ann) (gnomad_afr_name ann)
                                    t1 t2 t3) ->
                    isna (get (snd ir) "gnomad_AF_max") = true)
        /\ forall i r', In (i, r') (body filtered) ->
                        isna (get r' "gnomad_AF_max") = true)
    /\ (is_nan t2 = true -> gnomad_afr_candidates ann <> [] ->
        (forall ir, In ir (selected merged (gnomad_all_name ann) (gnomad_afr_name ann)
                                    t1 t2 t3) ->
                    isna (get (snd ir) "gnomad_AFR_AF_max") = true)
        /\ forall i r', In (i, r') (body filtered) ->
                        isna (get r' "gnomad_AFR_AF_max") = true).
Proof.
  intros H Hr.
  destruct (prioritised_written py _ _ _ _ _ _ _ _ H Hr) as (merged & Hw & ND & _).
  eexists merged, _. split; [exact Hw|].
  set (ga := gnomad_all_name ann). set (gr := gnomad_afr_name ann).
  assert (Hrow : forall i r' c,
             c <> "flag_high_zim_af" -> c <> "flag_common_gnomad" ->
             c <> "flag_common_gnomad_afr" ->
             In (i, r') (body (prioritised_of merged ga gr t1 t2 t3)) ->
             get r' c = NaN
             \/ exists r, In (i, r) (selected merged ga gr t1 t2 t3) /\ get r' c = get r c).
  { intros i r' c N1 N2 N3 Hin.
    destruct (selected merged ga gr t1 t2 t3) as [|x l] eqn:Es.
    - left.
      destruct (Forall2_In_l _ _ _ _
                  (prioritised_rows_unselected _ _ _ _ _ _ ND Es) Hin)
        as (ir & _ & _ & Hb & _).
      now apply Hb.
    - right.
      assert (N : selected merged ga gr t1 t2 t3 <> []) by (rewrite Es; discriminate).
      destruct (Forall2_In_l _ _ _ _
                  (prioritised_rows_selected _ _ _ _ _ _ ND N) Hin)
        as ([j r] & Hs & Ej & Hc & _).
      cbn [fst snd] in *. subst j. exists r. rewrite <- Es. split; [exact Hs|].
      now apply Hc. }
  split; [|split].
  - intros Hn.
    pose proof (selected_nan_cohort merged ga gr t1 t2 t3 Hn) as Es.
    split; [exact Es|].
    pose proof (prioritised_rows_unselected _ _ _ _ _ _ ND Es) as F.
    split.
    + unfold index. apply (Forall2_index (R := fun a b =>
        blank (snd a) /\ flags_from ga gr (snd a) (snd b))). exact F.
    + intros i r' Hin. destruct (Forall2_In_l _ _ _ _ F Hin) as (ir & _ & _ & Hb & _).
      exact Hb.
  - intros Hn Hc.
    assert (Hs : forall ir, In ir (selected merged ga gr t1 t2 t3) ->
                            isna (get (snd ir) "gnomad_AF_max") = true).
    { intros ir Hin. apply In_selected in Hin as (_ & Hk).
      unfold keep in Hk. rewrite !andb_true_iff in Hk.
      destruct Hk as (((Ka & _) & _) & _).
      unfold ga, gnomad_all_name in Ka. rewrite (created_some _ _ Hc) in Ka.
      cbn [freq_ok] in Ka. now rewrite (le_cell_nan _ _ Hn), orb_false_r in Ka. }
    split; [exact Hs|]. intros i r' Hin.
    destruct (Hrow i r' "gnomad_AF_max") as [E|(r & Hin' & E)];
      try discriminate; try exact Hin; rewrite E; [reflexivity|].
    exact (Hs (i, r) Hin').
  - intros Hn Hc.
    assert (Hs : forall ir, In ir (selected merged ga gr t1 t2 t3) ->
                            isna (get (snd ir) "gnomad_AFR_AF_max") = true).
    { intros ir Hin. apply In_selected in Hin as (_ & Hk).
      unfold keep in Hk. rewrite !andb_true_iff in Hk.
      destruct Hk as (((_ & Ka) & _) & _).
      unfold gr, gnomad_afr_name in Ka. rewrite (created_some _ _ Hc) in Ka.
      cbn [freq_ok] in Ka. now rewrite (le_cell_nan _ _ Hn), orb_false_r in Ka. }
    split; [exact Hs|]. intros i r' Hin.
    destruct (Hrow i r' "gnomad_AFR_AF_max") as [E|(r & Hin' & E)];
      try discriminate; try exact Hin; rewrite E; [reflexivity|].
    exact (Hs (i, r) Hin').
Qed.

End Prioritised.

(* ================================================================== *)
(** ** The candidate columns *)
(* ================================================================== *)

(** Lines 95-102 split the labels that start with AF in two: such a label
    is a global candidate or an AFR candidate, never both, and no other
    label is a candidate. *)
Theorem gnomad_candidates_partition ann c :
  (In c (gnomad_all_candidates ann) \/ In c (gnomad_afr_candidates ann)
   <-> In c (columns ann) /\ PyStr.startswith c "AF" = true)
  /\ ~ (In c (gnomad_all_candidates ann) /\ In c (gnomad_afr_candidates ann))
  /\ (In c (gnomad_afr_candidates ann)
      <-> In c (columns ann) /\ PyStr.startswith c "AF" = true
          /\ PyStr.contains "afr" (PyStr.lower c) = true).
Proof.
  unfold gnomad_all_candidates, gnomad_afr_candidates.
  rewrite !filter_In, !andb_true_iff, !negb_true_iff.
  destruct (PyStr.contains "afr" (PyStr.lower c)); intuition congruence.
Qed.

Lemma candidate_startswith ann c :
  In c (columns ann) ->
  PyStr.mem c (gnomad_all_candidates ann) || PyStr.mem c (gnomad_afr_candidates ann)
  = PyStr.startswith c "AF".
Proof.
  intros Hc.
  destruct (PyStr.startswith c "AF") eqn:S.
  - apply orb_true_iff. rewrite !mem_In.
    unfold gnomad_all_candidates, gnomad_afr_candidates.
    rewrite !filter_In, S.
    destruct (PyStr.contains "afr" (PyStr.lower c)); auto.
  - apply orb_false_iff. rewrite !mem_false.
    unfold gnomad_all_candidates, gnomad_afr_candidates.
    rewrite !filter_In, S, andb_false_r. cbn. intuition congruence.
Qed.

Lemma candidates_disjoint ann c :
  PyStr.mem c (gnomad_all_candidates ann) = true ->
  PyStr.mem c (gnomad_afr_candidates ann) = false.
Proof.
  rewrite mem_In, mem_false. unfold gnomad_all_candidates, gnomad_afr_candidates.
  rewrite !filter_In, !andb_true_iff, negb_true_iff. intuition congruence.
Qed.

(* ================================================================== *)
(** ** The annotated table, from the annotation's rows *)
(* ================================================================== *)

Lemma length_enumerate {A} (xs : list A) : length (enumerate xs) = length xs.
Proof. unfold enumerate. rewrite length_combine, length_seq. lia. Qed.

Lemma length_joined_freqs zim l :
  length (joined_freqs zim l) = Nat.max 1 (length (matching zim l)).
Proof.
  unfold joined_freqs, matching.
  destruct (filter (row_matches on_keys l) (map snd (body zim))) as [|z ms];
    [reflexivity|].
  rewrite length_map. cbn [length]. lia.
Qed.

Lemma list_sum_le {A} (f g : A -> nat) l :
  (forall x, In x l -> f x <= g x) ->
  list_sum (map f l) <= list_sum (map g l).
Proof.
  induction l as [|x l IH]; intros H; [reflexivity|].
  change (f x + list_sum (map f l) <= g x + list_sum (map g l)).
  pose proof (H x (or_introl eq_refl)).
  assert (list_sum (map f l) <= list_sum (map g l))
    by (apply IH; intros; apply H; now right).
  lia.
Qed.

Lemma list_sum_ones {A} (l : list A) : list_sum (map (fun _ => 1) l) = length l.
Proof.
  induction l as [|x l IH]; [reflexivity|].
  change (1 + list_sum (map (fun _ : A => 1) l) = S (length l)). now rewrite IH.
Qed.

Section AnnotatedTable.

Variable py : Runtime.

Lemma columns_max_col_frame_exact df candidates new_name :
  (forall c, In c candidates -> In c (columns df)) ->
  columns (max_col_frame py df candidates new_name)
  = match candidates with
    | [] => columns df
    | _ => col_add new_name (columns df)
    end.
Proof.
  intros H. unfold max_col_frame. destruct candidates as [|c t]; [reflexivity|].
  unfold assign. cbn [columns]. now rewrite columns_coerced.
Qed.

Lemma columns_with_max_columns_exact ann :
  ~ In "gnomad_AF_max" (columns ann) ->
  ~ In "gnomad_AFR_AF_max" (columns ann) ->
  columns (with_max_columns py ann)
  = (columns ann ++ names_of (gnomad_all_name ann)
     ++ names_of (gnomad_afr_name ann))%list.
Proof.
  intros N1 N2. unfold with_max_columns.
  rewrite columns_max_col_frame_exact.
  2:{ intros c Hc. apply ann_columns_max_col; [apply all_candidates_in|].
      now apply afr_candidates_in. }
  rewrite columns_max_col_frame_exact by apply all_candidates_in.
  unfold gnomad_all_name, gnomad_afr_name, created, names_of.
  destruct (gnomad_all_candidates ann) as [|a la],
           (gnomad_afr_candidates ann) as [|b lb]; cbn [app].
  - now rewrite app_nil_r.
  - rewrite col_add_fresh by exact N2. reflexivity.
  - rewrite col_add_fresh by exact N1. reflexivity.
  - rewrite (col_add_fresh "gnomad_AF_max") by exact N1.
    rewrite col_add_fresh; [now rewrite <- app_assoc|].
    intros Hin. apply in_app_or in Hin as [Hin|[Hin|[]]]; [contradiction|discriminate].
Qed.

Lemma get_max_col_row candidates new_name r c :
  c <> new_name ->
  get (max_col_row py candidates new_name r) c
  = if PyStr.mem c candidates then Num (to_numeric py (get r c)) else get r c.
Proof.
  intros N. unfold max_col_row. destruct candidates as [|k t]; [reflexivity|].
  rewrite get_row_set_neq by congruence. apply get_coerce_row.
Qed.

(** A cell of an annotation row once both max columns are built: coerced
    when its label starts with AF, untouched otherwise. *)
Lemma get_with_max_columns ann r c :
  In c (columns ann) -> c <> "gnomad_AF_max" -> c <> "gnomad_AFR_AF_max" ->
  get (max_col_row py (gnomad_afr_candidates ann) "gnomad_AFR_AF_max"
         (max_col_row py (gnomad_all_candidates ann) "gnomad_AF_max" r)) c
  = if PyStr.startswith c "AF" then Num (to_numeric py (get r c)) else get r c.
Proof.
  intros Hc N1 N2. rewrite !get_max_col_row by assumption.
  rewrite <- (candidate_startswith ann c Hc).
  destruct (PyStr.mem c (gnomad_all_candidates ann)) eqn:Ea.
  - rewrite (candidates_disjoint _ _ Ea). reflexivity.
  - cbn [orb]. destruct (PyStr.mem c (gnomad_afr_candidates ann)); reflexivity.
Qed.

Lemma matching_with_max_columns ann zim r :
  matching zim (max_col_row py (gnomad_afr_candidates ann) "gnomad_AFR_AF_max"
                  (max_col_row py (gnomad_all_candidates ann) "gnomad_AF_max" r))
  = matching zim r.
Proof.
  unfold matching. apply filter_ext. intros z. apply row_matches_ext.
  intros k Hk. apply get_key_with_max_columns. now apply on_keys_core.
Qed.

(** The tables of a completed run, from the annotation and the loaded
    cohort table. *)
Lemma run_tables ap zp pre t1 t2 t3 tr ann zim tr_z :
  prioritise py ap zp pre t1 t2 t3 = (tr, inr tt) ->
  read_csv py ap false = inr ann ->
  load_zim_db py zp = (tr_z, inr zim) ->
  exists merged F,
    written tr
    = [(out_all pre, merged);
       (out_filtered pre,
        prioritised_of merged (gnomad_all_name ann) (gnomad_afr_name ann) t1 t2 t3)]
    /\ ~ In "zim_AF" (columns (with_max_columns py ann))
    /\ merged
       = assign "impact_tier" (fun r => Str (F r))
           (mkDF (columns (with_max_columns py ann) ++ ["zim_AF"])%list
                 (enumerate
                    (flat_map (fun ir => joined_zim (with_max_columns py ann) zim (snd ir))
                              (body (with_max_columns py ann))))).
Proof.
  intros H Hr Hz.
  destruct (run_annotated py _ _ _ _ _ _ _ _ _ _ H Hr Hz)
    as (merged0 & merged & tr_i & Hm & Hi & _ & Hw & _).
  destruct (merged_shape py _ _ _ _ _ _ Hz Hm) as (_ & Hno & E0).
  destruct (impact_tier_assign _ _ _ Hi) as (F & E).
  exists merged, F. split; [exact Hw|]. split; [exact Hno|]. now rewrite E, E0.
Qed.

(** The header of the two files of a completed run, when the annotation
    carries none of the labels the script generates: the annotated table has
    the annotation's columns in their order, then gnomad_AF_max and
    gnomad_AFR_AF_max (each only if it was created), then zim_AF and
    impact_tier; the prioritised table has these, then flag_high_zim_af and
    the flag of each max column that was created. *)
Theorem output_schema ap zp pre t1 t2 t3 tr ann :
  prioritise py ap zp pre t1 t2 t3 = (tr, inr tt) ->
  read_csv py ap false = inr ann ->
  (forall c, In c generated_columns -> ~ In c (columns ann)) ->
  exists merged filtered,
    written tr = [(out_all pre, merged); (out_filtered pre, filtered)]
    /\ columns merged
       = (columns ann ++ names_of (gnomad_all_name ann)
          ++ names_of (gnomad_afr_name ann) ++ ["zim_AF"; "impact_tier"])%list
    /\ columns filtered
       = (columns merged ++ ["flag_high_zim_af"]
          ++ flag_of (gnomad_all_name ann) "flag_common_gnomad"
          ++ flag_of (gnomad_afr_name ann) "flag_common_gnomad_afr")%list.
Proof.
  intros H Hr Hfresh.
  pose proof H as H0.
  apply prioritise_inr in H0
    as (ann' & zim & _ & _ & tr_z & _ & Hr' & _ & Hz & _).
  rewrite Hr in Hr'. injection Hr' as <-.
  destruct (run_tables _ _ _ _ _ _ _ _ _ _ H Hr Hz) as (merged & F & Hw & Hno & E).
  assert (Hg : forall c, In c generated_columns -> ~ In c (columns ann ++
                 names_of (gnomad_all_name ann) ++ names_of (gnomad_afr_name ann)
                 ++ ["zim_AF"])%list
               \/ c = "gnomad_AF_max" \/ c = "gnomad_AFR_AF_max").
  { intros c Hc.
    destruct (string_dec c "gnomad_AF_max") as [->|N1]; [auto|].
    destruct (string_dec c "gnomad_AFR_AF_max") as [->|N2]; [auto|].
    left. intros Hin. rewrite !in_app_iff in Hin.
    destruct Hin as [Hin|[Hin|[Hin|Hin]]].
    - now apply (Hfresh c Hc).
    - unfold gnomad_all_name, created, names_of in Hin.
      destruct (gnomad_all_candidates ann); cbn in Hin; intuition congruence.
    - unfold gnomad_afr_name, created, names_of in Hin.
      destruct (gnomad_afr_candidates ann); cbn in Hin; intuition congruence.
    - cbn in Hin, Hc. intuition (subst; discriminate). }
  assert (Em : columns merged
       = (columns ann ++ names_of (gnomad_all_name ann)
          ++ names_of (gnomad_afr_name ann) ++ ["zim_AF"; "impact_tier"])%list).
  { rewrite E. unfold assign. cbn [columns].
    rewrite columns_with_max_columns_exact by (apply Hfresh; cbn; auto).
    rewrite col_add_fresh.
    - now rewrite <- !app_assoc.
    - rewrite <- !app_assoc.
      destruct (Hg "impact_tier") as [X|[X|X]]; [cbn; auto|exact X| |]; discriminate. }
  eexists merged, _. split; [exact Hw|]. split; [exact Em|].
  assert (Hf : forall c, In c ["flag_high_zim_af"; "flag_common_gnomad";
                               "flag_common_gnomad_afr"] ->
                         ~ In c (columns merged)).
  { intros c Hc. rewrite Em.
    replace (columns ann ++ names_of (gnomad_all_name ann)
             ++ names_of (gnomad_afr_name ann) ++ ["zim_AF"; "impact_tier"])%list
      with ((columns ann ++ names_of (gnomad_all_name ann)
             ++ names_of (gnomad_afr_name ann) ++ ["zim_AF"]) ++ ["impact_tier"])%list
      by now rewrite <- !app_assoc.
    intros Hin. apply in_app_or in Hin as [Hin|[Hin|[]]].
    - destruct (Hg c) as [X|[X|X]].
      + cbn in *. intuition.
      + contradiction.
      + subst c. cbn in Hc. intuition discriminate.
      + subst c. cbn in Hc. intuition discriminate.
    - subst c. cbn in Hc. intuition discriminate. }
  unfold prioritised_of.
  assert (E1 : columns (with_flag merged (Some "zim_AF") "flag_high_zim_af"
                 (mkDF (columns merged)
                    (filter (fun ir => keep (gnomad_all_name ann) (gnomad_afr_name ann)
                                            t1 t2 t3 (snd ir)) (body merged))))
               = (columns merged ++ ["flag_high_zim_af"])%list).
  { cbn [with_flag]. rewrite columns_assign_aligned. cbn [columns].
    apply col_add_fresh, Hf. cbn; auto. }
  unfold gnomad_all_name, gnomad_afr_name, created, flag_of in *.
  destruct (gnomad_all_candidates ann) as [|a la],
           (gnomad_afr_candidates ann) as [|b lb];
    cbn [with_flag app] in *.
  - exact E1.
  - rewrite (columns_assign_aligned "flag_common_gnomad_afr"), E1.
    rewrite col_add_fresh; [now rewrite <- app_assoc|].
    intros Hin. apply in_app_or in Hin as [Hin|[Hin|[]]]; [|discriminate].
    revert Hin. apply Hf. cbn; auto.
  - rewrite (columns_assign_aligned "flag_common_gnomad"), E1.
    rewrite col_add_fresh; [now rewrite <- app_assoc|].
    intros Hin. apply in_app_or in Hin as [Hin|[Hin|[]]]; [|discriminate].
    revert Hin. apply Hf. cbn; auto.
  - rewrite (columns_assign_aligned "flag_common_gnomad_afr"),
      (columns_assign_aligned "flag_common_gnomad"), E1.
    rewrite (col_add_fresh "flag_common_gnomad").
    + rewrite col_add_fresh; [now rewrite <- !app_assoc|].
      intros Hin. rewrite !in_app_iff in Hin.
      destruct Hin as [[Hin|[Hin|[]]]|[Hin|[]]]; try discriminate.
      revert Hin. apply Hf. cbn; auto.
    + intros Hin. apply in_app_or in Hin as [Hin|[Hin|[]]]; [|discriminate].
      revert Hin. apply Hf. cbn; auto.
Qed.

End AnnotatedTable.

(* ================================================================== *)
(** ** The left join: no variant is lost *)
(* ================================================================== *)

Section JoinRows.

Variable py : Runtime.

(** No variant is lost on the way to the annotated file: in a completed
    run on an annotation whose AF columns hold text, numbers or missing
    values (no column of booleans), every row of the annotation has a row in
    the annotated table that carries its cells, unchanged for a label that
    does not start with AF and coerced to a number for one that does (the
    columns the script overwrites apart). *)
Theorem annotation_rows_carried ap zp pre t1 t2 t3 tr ann :
  prioritise py ap zp pre t1 t2 t3 = (tr, inr tt) ->
  read_csv py ap false = inr ann ->
  (forall a c, In a (body ann) -> In c (columns ann) ->
               PyStr.startswith c "AF" = true -> is_bool (get (snd a) c) = false) ->
  exists merged filtered,
    written tr = [(out_all pre, merged); (out_filtered pre, filtered)]
    /\ forall a, In a (body ann) ->
         exists i r,
           In (i, r) (body merged)
           /\ forall c, In c (columns ann) ->
                c <> "gnomad_AF_max" -> c <> "gnomad_AFR_AF_max" ->
                c <> "impact_tier" ->
                get r c = if PyStr.startswith c "AF"
                          then Num (to_numeric py (get (snd a) c))
                          else get (snd a) c.
Proof.
  intros H Hr _.
  apply prioritise_inr in H
    as (ann' & zim & merged0 & merged & tr_z & tr_i & Hr' & _ & Hz & Hm & Hi & Hw & _).
  rewrite Hr in Hr'. injection Hr' as <-.
  eexists merged, _. split; [exact Hw|].
  intros [j a] Ha. cbn [snd].
  set (l := max_col_row py (gnomad_afr_candidates ann) "gnomad_AFR_AF_max"
              (max_col_row py (gnomad_all_candidates ann) "gnomad_AF_max" a)).
  assert (Hl : In l (map snd (body (with_max_columns py ann)))).
  { rewrite body_with_max_columns, map_map. cbn [snd].
    apply in_map_iff. exists (j, a). split; [reflexivity|exact Ha]. }
  destruct (joined_freqs zim l) as [|v vs] eqn:Ev;
    [now destruct (joined_freqs_nonempty zim l)|].
  assert (Hv : In v (joined_freqs zim l)) by (rewrite Ev; now left).
  destruct (annotated_row_intro py _ _ _ _ _ _ _ _ _ _ Hz Hm Hi Hl Hv)
    as (i & tier & Hin).
  exists i, (annotated_row (columns (with_max_columns py ann)) l v tier).
  split; [exact Hin|].
  intros c Hc N1 N2 N3.
  rewrite get_annotated_left;
    [|now apply columns_with_max_columns_incl|exact N3].
  now apply get_with_max_columns.
Qed.

(** The number of rows of the annotated file: each annotation row counts
    once when no cohort row has its (Chr, Start, Ref, Alt), and once per
    cohort row that has. So the annotated table is never shorter than the
    annotation, a cohort table with a repeated variant repeats the annotation
    row, and the two tables have the same length when no annotation row
    matches two cohort rows. *)
Theorem join_row_count ap zp pre t1 t2 t3 tr ann zim tr_z :
  prioritise py ap zp pre t1 t2 t3 = (tr, inr tt) ->
  read_csv py ap false = inr ann ->
  load_zim_db py zp = (tr_z, inr zim) ->
  exists merged filtered,
    written tr = [(out_all pre, merged); (out_filtered pre, filtered)]
    /\ len merged
       = list_sum (map (fun a => Nat.max 1 (length (matching zim (snd a)))) (body ann))
    /\ len ann <= len merged
    /\ ((forall a, In a (body ann) -> length (matching zim (snd a)) <= 1) ->
        len merged = len ann).
Proof.
  intros H Hr Hz.
  destruct (run_tables py _ _ _ _ _ _ _ _ _ _ H Hr Hz) as (merged & F & Hw & _ & E).
  assert (L : len merged
       = list_sum (map (fun a => Nat.max 1 (length (matching zim (snd a)))) (body ann))).
  { rewrite E. unfold len, assign. cbn [body].
    rewrite length_map, length_enumerate, length_flat_map.
    rewrite body_with_max_columns, map_map. f_equal. apply map_ext.
    intros [i a]. cbn [snd]. unfold joined_zim.
    now rewrite length_map, length_joined_freqs, matching_with_max_columns. }
  eexists merged, _. split; [exact Hw|]. split; [exact L|]. split.
  - rewrite L. unfold len. rewrite <- (list_sum_ones (body ann)).
    apply list_sum_le. intros; lia.
  - intros H1. rewrite L. unfold len. rewrite <- (list_sum_ones (body ann)).
    f_equal. apply map_ext_in. intros a Ha. specialize (H1 a Ha). lia.
Qed.

Lemma suffixed_no_zim_af left zim :
  columns zim = zim_columns ->
  In "zim_AF" (columns left) ->
  PyStr.mem "zim_AF"
    (map (suffix_x on_keys zim) (columns left)
     ++ map (suffix_y left) (right_payload on_keys zim))%list = false.
Proof.
  intros E Hin. apply mem_false. intros H. apply in_app_or in H as [H|H].
  - apply in_map_iff in H as (c & Ec & _).
    rewrite (suffix_x_standard _ c E) in Ec.
    destruct (String.eqb c "zim_AF") eqn:Z; [discriminate|].
    subst c. discriminate.
  - rewrite (right_payload_standard _ E) in H. cbn in H. unfold suffix_y in H.
    apply mem_In in Hin. rewrite Hin in H. destruct H as [H|[]]. discriminate.
Qed.

(** An annotation that already has a zim_AF column (the annotated file of
    an earlier run, for one) cannot be processed: the run stops on an
    exception and writes nothing. When the annotation has the identity
    columns, the cohort table loads and the two tables join, the join
    suffixes both zim_AF columns and the exception is the KeyError of line
    124. *)
Theorem annotation_with_zim_af_fails ap zp pre t1 t2 t3 ann :
  read_csv py ap false = inr ann ->
  In "zim_AF" (columns ann) ->
  (exists e, snd (prioritise py ap zp pre t1 t2 t3) = inl e
             /\ written (fst (prioritise py ap zp pre t1 t2 t3)) = [])
  /\ forall zim tr_z j tr_j,
       (forall c, In c core_columns -> In c (columns ann)) ->
       load_zim_db py zp = (tr_z, inr zim) ->
       merge_left (with_max_columns py ann) zim on_keys = (tr_j, inr j) ->
       snd (prioritise py ap zp pre t1 t2 t3) = inl (KeyError "zim_AF").
Proof.
  intros Hr Hin. split.
  - destruct (run_all_or_nothing py ap zp pre t1 t2 t3) as [X|(Hs & _)]; [exact X|].
    exfalso.
    assert (H : prioritise py ap zp pre t1 t2 t3
                = (fst (prioritise py ap zp pre t1 t2 t3), inr tt)).
    { rewrite (surjective_pairing (prioritise py ap zp pre t1 t2 t3)) at 1.
      now rewrite Hs. }
    apply prioritise_inr in H
      as (ann' & zim & merged0 & merged & tr_z & tr_i & Hr' & _ & Hz & Hm & _).
    rewrite Hr in Hr'. injection Hr' as <-.
    destruct (merged_shape py _ _ _ _ _ _ Hz Hm) as (_ & Hno & _).
    apply Hno. now apply columns_with_max_columns_incl.
  - intros zim tr_z j tr_j Hc Hz Hj.
    pose proof (loaded_columns py _ _ _ _ _ _ Hz Hj) as E.
    pose proof (silent_inv _ _ _ (silent_merge_left _ _ _) Hj) as ->.
    pose proof Hj as Hj'. apply merge_left_inr in Hj' as (-> & _).
    assert (Hm : merge_zim (with_max_columns py ann) zim
                 = ([], inl (KeyError "zim_AF"))).
    { unfold merge_zim. rewrite Hj, bind_nil. unfold getitem. cbn [columns].
      rewrite suffixed_no_zim_af;
        [reflexivity|exact E|now apply columns_with_max_columns_incl]. }
    destruct (read_annotation_ok py _ _ Hr Hc) as (tr_a & Ha).
    destruct (gnomad_columns_ok py ann) as (tr_g & Hg & _).
    unfold prioritise.
    rewrite (snd_bind_ok _ _ _ _ Ha), (snd_bind_ok _ _ _ _ Hg). cbn [fst snd].
    rewrite (snd_bind_ok _ _ _ _ (eq_refl : print _ = (_, inr tt))).
    rewrite (snd_bind_ok _ _ _ _ Hz).
    rewrite (snd_bind_ok _ _ _ _ (eq_refl : print _ = (_, inr tt))).
    now rewrite (snd_bind_fail _ _ _ _ Hm).
Qed.

End JoinRows.

(* ================================================================== *)
(** ** The cohort loader: what it keeps of the file *)
(* ================================================================== *)

Lemma keys_row_set c v (r : row) : map fst (row_set c v r) = col_add c (map fst r).
Proof.
  unfold col_add. induction r as [|[k w] r IH]; [reflexivity|].
  cbn [row_set map fst PyStr.mem existsb].
  rewrite (eqb_sym_str c k). destruct (String.eqb k c) eqn:E; [reflexivity|].
  cbn [map fst orb]. rewrite IH. fold (PyStr.mem c (map fst r)).
  now destruct (PyStr.mem c (map fst r)).
Qed.

Lemma keys_filter (p : string -> bool) (r : row) :
  map fst (filter (fun kv => p (fst kv)) r) = filter p (map fst r).
Proof.
  induction r as [|[k w] r IH]; [reflexivity|]. cbn.
  destruct (p k); cbn; now rewrite IH.
Qed.

Lemma keyed_assign c f df : keyed df -> keyed (assign c f df).
Proof.
  intros K ir Hin. unfold assign in *. cbn [body columns] in *.
  apply in_map_iff in Hin as (ir0 & <- & Hin). cbn [snd].
  now rewrite keys_row_set, (K ir0 Hin).
Qed.

Lemma keyed_rename mapping df : keyed df -> keyed (rename mapping df).
Proof.
  intros K ir Hin. unfold rename in *. cbn [body columns] in *.
  apply in_map_iff in Hin as (ir0 & <- & Hin). cbn [snd].
  rewrite map_map. cbn [fst]. now rewrite <- (K ir0 Hin), map_map.
Qed.

Lemma keyed_select_cols names df : keyed df -> keyed (select_cols names df).
Proof.
  intros K ir Hin. unfold select_cols in *. cbn [body columns] in *.
  apply in_map_iff in Hin as (ir0 & <- & Hin). cbn [snd].
  rewrite <- (K ir0 Hin). induction names as [|n t IH]; [reflexivity|].
  cbn [flat_map]. now rewrite map_app, IH, (keys_filter (String.eqb n)).
Qed.

Lemma NoDup_map_eq {A B} (f : A -> B) l x y :
  NoDup (map f l) -> In x l -> In y l -> f x = f y -> x = y.
Proof.
  induction l as [|a l IH]; [contradiction|]. cbn [map].
  intros ND Hx Hy E. inversion ND as [|? ? Hnot ND']; subst.
  destruct Hx as [->|Hx], Hy as [->|Hy]; auto.
  - exfalso. apply Hnot. rewrite E. now apply in_map.
  - exfalso. apply Hnot. rewrite <- E. now apply in_map.
Qed.

(** A cell read under a new label after a rename of the keys. *)
Lemma get_map_keys_in (f : string -> string) (r : row) n k :
  (forall k', In k' (map fst r) -> (f k' = n <-> k' = k)) ->
  get (map (fun kv => (f (fst kv), snd kv)) r) n = get r k.
Proof.
  unfold get. induction r as [|[k0 v] r IH]; intros H; [reflexivity|].
  cbn [map find fst snd].
  pose proof (H k0 (or_introl eq_refl)) as H0.
  destruct (String.eqb k0 k) eqn:E.
  - apply String.eqb_eq in E. rewrite (proj2 H0 E). now rewrite String.eqb_refl.
  - destruct (String.eqb (f k0) n) eqn:E'.
    + apply String.eqb_eq in E'. apply H0 in E'. subst k0.
      now rewrite String.eqb_refl in E.
    + apply IH. intros k' Hk'. apply H. now right.
Qed.

Lemma get_app_l (a b : row) n :
  existsb (fun kv => String.eqb (fst kv) n) a = true ->
  get (a ++ b)%list n = get a n.
Proof.
  unfold get. induction a as [|[k v] a IH]; [discriminate|]. cbn.
  destruct (String.eqb k n); [reflexivity|exact IH].
Qed.

Lemma get_absent (r : row) n : (forall kv, In kv r -> fst kv <> n) -> get r n = NaN.
Proof.
  intros H. unfold get. induction r as [|[k v] r IH]; [reflexivity|]. cbn.
  destruct (String.eqb k n) eqn:E.
  - apply String.eqb_eq in E. exfalso. apply (H (k, v)); [now left|exact E].
  - apply IH. intros kv Hkv. apply H. now right.
Qed.

Lemma get_select (r : row) names n :
  In n names ->
  get (flat_map (fun n' => filter (fun kv => String.eqb n' (fst kv)) r) names) n
  = get r n.
Proof.
  induction names as [|n1 t IH]; [contradiction|]. intros Hin. cbn [flat_map].
  destruct (String.eqb n1 n) eqn:E.
  - apply String.eqb_eq in E. subst n1.
    destruct (existsb (fun kv => String.eqb (fst kv) n) r) eqn:X.
    + rewrite get_app_l; [apply get_filter_self|].
      clear -X. induction r as [|[k v] r IH]; [discriminate|]. cbn in *.
      rewrite (eqb_sym_str n k). destruct (String.eqb k n) eqn:E; cbn.
      * now rewrite E.
      * now apply IH.
    + assert (Hnone : forall kv, In kv r -> fst kv <> n).
      { intros kv Hkv Ek. apply not_true_iff_false in X. apply X.
        apply existsb_exists. exists kv. split; [exact Hkv|].
        now apply String.eqb_eq. }
      rewrite get_skip.
      2:{ intros kv Hkv. apply filter_In in Hkv as (Hkv & _). now apply Hnone. }
      rewrite (get_absent r n Hnone). apply get_absent.
      intros kv Hkv. apply in_flat_map in Hkv as (n' & _ & Hkv).
      apply filter_In in Hkv as (Hkv & _). now apply Hnone.
  - rewrite get_skip.
    + apply IH. destruct Hin as [->|Hin]; [now rewrite String.eqb_refl in E|exact Hin].
    + intros kv Hkv. apply filter_In in Hkv as (_ & Ek).
      apply String.eqb_eq in Ek. rewrite <- Ek. now apply String.eqb_neq.
Qed.

Lemma Forall2_map_r_in {A B C} (R : A -> B -> Prop) (R' : A -> C -> Prop)
  (h : B -> C) l l1 :
  Forall2 R l l1 ->
  (forall x y, In y l1 -> R x y -> R' x (h y)) ->
  Forall2 R' l (map h l1).
Proof.
  induction 1 as [|x y l l1 Hxy HF IH]; intros H; cbn [map]; constructor.
  - apply H; [now left|exact Hxy].
  - apply IH. intros x' y' Hy'. apply H. now right.
Qed.

(** Under a rename that only changes the case of labels, on a header with
    no two labels equal up to case, the label [n] is reached from [k] only. *)
Lemma renamed_iff mapping cols k n :
  (forall a b, In (a, b) mapping -> PyStr.lower a = PyStr.lower b) ->
  NoDup (map fst mapping) ->
  NoDup (map PyStr.lower cols) ->
  In k cols -> In (k, n) mapping ->
  forall k', In k' cols -> (renamed mapping k' = n <-> k' = k).
Proof.
  intros Hlow NDm NDc Hk Hkn k' Hk'. split.
  - intros E. apply (NoDup_map_eq PyStr.lower cols); auto.
    rewrite (Hlow k n Hkn), <- E. symmetry. now apply renamed_lower.
  - intros ->. now apply renamed_key.
Qed.

Lemma lower_required_neq k c :
  In (PyStr.lower k) required -> ~ In (PyStr.lower c) required -> k <> c.
Proof. intros H N ->. contradiction. Qed.

Section LoaderCells.

Variable py : Runtime.

Lemma keyed_ensure df df1 :
  ensure_zim_af py (lowered df) df = ([], inr df1) -> keyed df -> keyed df1.
Proof.
  intros H K.
  apply ensure_zim_af_inr in H
    as (_ & [(_ & c_ac & c_an & _ & _ & ->)|(_ & c_af & _ & ->)]).
  - unfold coerce. now repeat apply keyed_assign.
  - destruct (String.eqb c_af "zim_AF"); [exact K|now apply keyed_rename].
Qed.

(** What lines 31-48 keep of a row: the identity cells, and the frequency
    of a zim_AF column the file has. *)
Lemma ensure_cells df df1 :
  ensure_zim_af py (lowered df) df = ([], inr df1) ->
  keyed df ->
  NoDup (map PyStr.lower (columns df)) ->
  Forall2
    (fun old new =>
       fst new = fst old
       /\ (forall k, In (PyStr.lower k) required -> get (snd new) k = get (snd old) k)
       /\ (forall c_af, In c_af (columns df) -> PyStr.lower c_af = "zim_af" ->
             get (snd new) "zim_AF" = get (snd old) c_af))
    (body df) (body df1).
Proof.
  intros H K ND.
  apply ensure_zim_af_inr in H
    as (_ & [(Hno & c_ac & c_an & Hac & Han & ->)|(_ & c_af & Haf & ->)]).
  - apply In_lowered in Hac as (_ & Lac). apply In_lowered in Han as (_ & Lan).
    unfold assign, coerce, assign. cbn [body]. rewrite !map_map. cbn [fst snd].
    apply Forall2_map_graph. intros [i r] Hin. cbn [fst snd].
    split; [reflexivity|]. split.
    + intros k Hk. rewrite !get_row_set_neq; [reflexivity| | |].
      * intros <-. rewrite Lac in Hk. cbn in Hk. intuition discriminate.
      * intros <-. rewrite Lan in Hk. cbn in Hk. intuition discriminate.
      * intros <-. cbn in Hk. intuition discriminate.
    + intros c_af Hc Lc. exfalso.
      rewrite dict_has_lowered in Hno. apply mem_false in Hno. apply Hno.
      rewrite <- Lc. now apply in_map.
  - apply In_lowered in Haf as (Hcaf & Laf).
    destruct (String.eqb c_af "zim_AF") eqn:E.
    + apply String.eqb_eq in E. subst c_af.
      rewrite <- (map_id (body df)) at 2. apply Forall2_map_graph.
      intros [i r] Hin. cbn [fst snd]. split; [reflexivity|]. split; [reflexivity|].
      intros c Hc Lc. f_equal.
      apply (NoDup_map_eq PyStr.lower (columns df)); auto.
    + unfold rename. cbn [body]. apply Forall2_map_graph.
      intros [i r] Hin. cbn [fst snd]. split; [reflexivity|].
      pose proof (K (i, r) Hin) as Kr. cbn [snd] in Kr.
      split.
      * intros k Hk. apply get_map_keys_in. intros k' _. split.
        -- intros Ek. destruct (renamed_cases [(c_af, "zim_AF")] k') as [X|X];
             [congruence|].
           rewrite Ek in X. destruct X as [X|[]]. injection X as _ <-.
           cbn in Hk. intuition discriminate.
        -- intros ->. apply renamed_notin. cbn. intros [X|[]]. subst k.
           rewrite Laf in Hk. cbn in Hk. intuition discriminate.
      * intros c Hc Lc.
        assert (c = c_af) as ->
          by (apply (NoDup_map_eq PyStr.lower (columns df)); auto; congruence).
        apply get_map_keys_in. rewrite Kr.
        apply (renamed_iff [(c_af, "zim_AF")] (columns df)); auto.
        -- intros a b [X|[]]. injection X as <- <-. exact Laf.
        -- cbn. repeat constructor. intros [].
        -- now left.
Qed.

(** The rows of the table the loader returns, cell by cell: each row of
    the file, in order and under its index label, with the cells of the
    file's chr, start, ref and alt columns (whatever the case of their
    labels) under Chr, Start, Ref and Alt, and, when the file has a zim_AF
    column in any case, its cell under zim_AF, as it is in the file, not
    coerced to a number. This holds for a file whose labels are distinct up
    to case. *)
Theorem loader_keeps_cells path df tr zim :
  read_csv py path true = inr df ->
  load_zim_db py path = (tr, inr zim) ->
  keyed df ->
  NoDup (map PyStr.lower (columns df)) ->
  exists k_chr k_start k_ref k_alt,
    (In k_chr (columns df) /\ PyStr.lower k_chr = "chr")
    /\ (In k_start (columns df) /\ PyStr.lower k_start = "start")
    /\ (In k_ref (columns df) /\ PyStr.lower k_ref = "ref")
    /\ (In k_alt (columns df) /\ PyStr.lower k_alt = "alt")
    /\ Forall2
         (fun old new =>
            fst new = fst old
            /\ get (snd new) "Chr" = get (snd old) k_chr
            /\ get (snd new) "Start" = get (snd old) k_start
            /\ get (snd new) "Ref" = get (snd old) k_ref
            /\ get (snd new) "Alt" = get (snd old) k_alt
            /\ forall c_af, In c_af (columns df) -> PyStr.lower c_af = "zim_af" ->
                 get (snd new) "zim_AF" = get (snd old) c_af)
         (body df) (body zim).
Proof.
  intros Hr H K ND.
  apply load_zim_db_inr in H as (df' & Hr' & H).
  rewrite Hr in Hr'. injection Hr' as <-.
  apply load_zim_frame_inr in H
    as (_ & df1 & k_chr & k_start & k_ref & k_alt & He & H1 & H2 & H3 & H4 & ->).
  apply In_lowered in H1 as (I1 & L1). apply In_lowered in H2 as (I2 & L2).
  apply In_lowered in H3 as (I3 & L3). apply In_lowered in H4 as (I4 & L4).
  exists k_chr, k_start, k_ref, k_alt. repeat (split; [auto|]).
  destruct (ensure_zim_af_columns py _ _ He) as (_ & Hkeep & ND1).
  specialize (ND1 ND).
  pose proof (keyed_ensure _ _ He K) as K1.
  destruct (standard_names_lower k_chr k_start k_ref k_alt L1 L2 L3 L4) as (Hlow & NDm).
  unfold select_cols, rename. cbn [body]. rewrite map_map. cbn [fst snd].
  apply (Forall2_map_r_in _ _ _ _ _ (ensure_cells _ _ He K ND)).
  intros [i r] [i1 r1] Hin (Ei & Hkeys & Haf). cbn [fst snd] in *.
  pose proof (K1 (i1, r1) Hin) as Kr. cbn [snd] in Kr.
  assert (Hcell : forall k n,
            In k (columns df) -> In (PyStr.lower k) required ->
            In (k, n) (standard_names k_chr k_start k_ref k_alt) ->
            In n zim_columns ->
            get (flat_map (fun n' => filter (fun kv => String.eqb n' (fst kv))
                     (map (fun kv => (renamed (standard_names k_chr k_start k_ref k_alt)
                                               (fst kv), snd kv)) r1)) zim_columns) n
            = get r k).
  { intros k n Ik Lk Hkn Hn. rewrite get_select by exact Hn.
    rewrite <- (Hkeys k Lk). apply get_map_keys_in. rewrite Kr.
    apply (renamed_iff _ (columns df1)); auto.
    apply Hkeep; [exact Ik|]. intros X. rewrite X in Lk.
    cbn in Lk. intuition discriminate. }
  split; [exact Ei|].
  split; [apply Hcell; cbn; rewrite ?L1; auto|].
  split; [apply Hcell; cbn; rewrite ?L2; auto|].
  split; [apply Hcell; cbn; rewrite ?L3; auto|].
  split; [apply Hcell; cbn; rewrite ?L4; auto 6|].
  intros c Hc Lc.
  rewrite get_select_zim_af, get_standard_names_zim_af by assumption.
  now apply Haf.
Qed.

End LoaderCells.

Lemma standard_row (r : row) :
  map fst r = zim_columns ->
  flat_map (fun n => filter (fun kv => String.eqb n (fst kv))
              (map (fun kv => (renamed [("Chr", "Chr"); ("Start", "Start");
                                        ("Ref", "Ref"); ("Alt", "Alt")]
                                       (fst kv), snd kv)) r))
           zim_columns
  = r.
Proof.
  intros E.
  destruct r as [|[k1 v1] [|[k2 v2] [|[k3 v3] [|[k4 v4] [|[k5 v5] [|x r]]]]]];
    try discriminate.
  cbn in E. injection E as -> -> -> -> ->. reflexivity.
Qed.

Section Reload.

Variable py : Runtime.

(** A table that is already in the standard form goes through lines 21-58
    unchanged. *)
Lemma load_standard df :
  columns df = zim_columns -> keyed df -> load_zim_frame py df = ([], inr df).
Proof.
  destruct df as [cols rows]. cbn [columns]. intros -> K.
  assert (ED : map (fun c => (PyStr.lower c, c)) zim_columns
               = [("chr", "Chr"); ("start", "Start"); ("ref", "Ref"); ("alt", "Alt");
                  ("zim_af", "zim_AF")]) by reflexivity.
  unfold load_zim_frame, ensure_zim_af. cbn [columns]. rewrite ED. cbn.
  unfold select_cols, rename. cbn [columns body]. rewrite map_map. cbn [fst snd].
  do 2 f_equal. f_equal.
  rewrite <- (map_id rows) at 2. apply map_ext_in. intros [i r] Hin. cbn [fst snd].
  rewrite standard_row; [reflexivity|apply (K (i, r) Hin)].
Qed.

Lemma loaded_standard df tr zim :
  load_zim_frame py df = (tr, inr zim) ->
  keyed df -> NoDup (map PyStr.lower (columns df)) ->
  columns zim = zim_columns /\ keyed zim.
Proof.
  intros H K ND. split.
  - destruct (load_zim_frame_columns py _ _ _ H) as (cols2 & -> & Hp & Hnd).
    specialize (Hnd ND). cbn [flat_map zim_columns]. rewrite app_nil_r.
    rewrite !filter_eqb_singleton; auto using NoDup_filter; apply Hp; cbn; auto 10.
  - apply load_zim_frame_inr in H
      as (_ & df1 & k_chr & k_start & k_ref & k_alt & He & _ & _ & _ & _ & ->).
    apply keyed_select_cols, keyed_rename. now apply (keyed_ensure py df).
Qed.

(** Loading is idempotent: the table the loader returns for a file whose
    labels are distinct up to case is in the standard form, and the loader
    returns it unchanged when it is the content of the file it reads. *)
Theorem loader_idempotent path path' df tr zim :
  read_csv py path true = inr df ->
  load_zim_db py path = (tr, inr zim) ->
  keyed df ->
  NoDup (map PyStr.lower (columns df)) ->
  read_csv py path' true = inr zim ->
  load_zim_db py path' = ([], inr zim).
Proof.
  intros Hr H K ND Hr'.
  apply load_zim_db_inr in H as (df' & E & H).
  rewrite Hr in E. injection E as <-.
  destruct (loaded_standard _ _ _ H K ND) as (Ec & Kz).
  unfold load_zim_db. rewrite Hr', lift_bind. now apply load_standard.
Qed.

End Reload.

(* ================================================================== *)
(** ** Exceptions of the stages *)
(* ================================================================== *)

Lemma is_object_false cs :
  cs <> [] -> (forall c, In c cs -> is_str c = false) -> is_object cs = false.
Proof.
  intros N H. unfold is_object. destruct cs as [|c cs]; [congruence|].
  apply not_true_iff_false. intros E. apply existsb_exists in E as (x & Hx & Ex).
  now rewrite (H x Hx) in Ex.
Qed.

Section Failures.

Variable py : Runtime.

Lemma coerce_all_fail candidates c : forall df,
  find (fun c => negb (PyStr.mem c (columns df))) candidates = Some c ->
  coerce_all py candidates df = ([], inl (KeyError c)).
Proof.
  induction candidates as [|c0 t IH]; intros df H; [discriminate|].
  cbn [find] in H. cbn [coerce_all].
  destruct (PyStr.mem c0 (columns df)) eqn:E; cbn [negb] in H.
  - rewrite (getitem_ok _ _ E), bind_nil. apply IH.
    rewrite columns_coerce by now apply mem_In. exact H.
  - injection H as <-. unfold getitem. rewrite E. reflexivity.
Qed.

(** [_make_gnomad_max_col] on a candidate list that names a label the
    table does not have raises the KeyError of the first such label, at the
    coercion loop, before the max column is made. *)
Theorem max_col_missing_candidate df candidates new_name c :
  find (fun c => negb (PyStr.mem c (columns df))) candidates = Some c ->
  _make_gnomad_max_col py df candidates new_name = ([], inl (KeyError c)).
Proof.
  intros H. unfold _make_gnomad_max_col.
  destruct candidates as [|c0 t]; [discriminate|].
  now rewrite (coerce_all_fail _ _ _ H).
Qed.

(** The cells of a column of the annotation in the joined table. *)
Lemma merged0_cell zp tr_z zim ann tr_m merged0 c ir :
  load_zim_db py zp = (tr_z, inr zim) ->
  merge_zim (with_max_columns py ann) zim = (tr_m, inr merged0) ->
  In c (columns ann) -> c <> "gnomad_AF_max" -> c <> "gnomad_AFR_AF_max" ->
  PyStr.startswith c "AF" = false ->
  In ir (body merged0) ->
  exists a, In a (body ann) /\ get (snd ir) c = get (snd a) c.
Proof.
  intros Hz Hm Hc N1 N2 Hs Hin.
  destruct (merged_shape py _ _ _ _ _ _ Hz Hm) as (_ & Hno & E0).
  rewrite E0 in Hin. cbn [body] in Hin. destruct ir as [i r].
  apply In_enumerate in Hin. apply in_flat_map in Hin as ([j l] & Hl & Hr).
  cbn [snd] in *. unfold joined_zim in Hr. apply in_map_iff in Hr as (v & <- & _).
  rewrite body_with_max_columns in Hl. apply in_map_iff in Hl as ([j' a] & E & Ha).
  cbn [fst snd] in E. injection E as -> <-.
  exists (j, a). split; [exact Ha|]. cbn [snd].
  rewrite get_lpart by now apply columns_with_max_columns_incl.
  rewrite get_with_max_columns by assumption. now rewrite Hs.
Qed.

Lemma merged0_nonempty zp tr_z zim ann tr_m merged0 :
  load_zim_db py zp = (tr_z, inr zim) ->
  merge_zim (with_max_columns py ann) zim = (tr_m, inr merged0) ->
  body ann <> [] -> body merged0 <> [].
Proof.
  intros Hz Hm N.
  destruct (merged_shape py _ _ _ _ _ _ Hz Hm) as (_ & _ & E0).
  rewrite E0. cbn [body]. rewrite body_with_max_columns.
  destruct (body ann) as [|[j a] rest]; [congruence|]. cbn [map flat_map fst snd].
  unfold joined_zim at 1.
  destruct (joined_freqs zim
              (max_col_row py (gnomad_afr_candidates ann) "gnomad_AFR_AF_max"
                 (max_col_row py (gnomad_all_candidates ann) "gnomad_AF_max" a)))
    as [|v vs] eqn:Ev; [now destruct (joined_freqs_nonempty _ _ Ev)|].
  cbn. discriminate.
Qed.

Lemma merged0_columns zp tr_z zim ann tr_m merged0 c :
  load_zim_db py zp = (tr_z, inr zim) ->
  merge_zim (with_max_columns py ann) zim = (tr_m, inr merged0) ->
  In c (columns ann) -> PyStr.mem c (columns merged0) = true.
Proof.
  intros Hz Hm Hc.
  destruct (merged_shape py _ _ _ _ _ _ Hz Hm) as (_ & _ & E0).
  rewrite E0. cbn [columns]. apply mem_In, in_or_app. left.
  now apply columns_with_max_columns_incl.
Qed.

(** The prefix of a run, up to the join. *)
Lemma snd_prioritise ap zp pre t1 t2 t3 ann zim tr_z tr_m merged0 :
  read_csv py ap false = inr ann ->
  (forall c, In c core_columns -> In c (columns ann)) ->
  load_zim_db py zp = (tr_z, inr zim) ->
  merge_zim (with_max_columns py ann) zim = (tr_m, inr merged0) ->
  snd (prioritise py ap zp pre t1 t2 t3)
  = snd (merged <- impact_tier merged0 ;;
         mask <- final_mask merged (gnomad_all_name ann) (gnomad_afr_name ann)
                            t1 t2 t3 ;;
         let filtered := select_rows mask merged in
         print ("  n = " ++ PyStr.of_nat (len filtered)
                ++ " variants after global+AFR+Zimbabwe AF and impact filters") ;;;
         filtered <- flags merged (gnomad_all_name ann) (gnomad_afr_name ann)
                           filtered ;;
         to_csv (out_all pre) merged ;;;
         to_csv (out_filtered pre) filtered ;;;
         print ("Wrote annotated file (with zim_AF)  : " ++ out_all pre) ;;;
         print ("Wrote prioritised variant list      : " ++ out_filtered pre)).
Proof.
  intros Hr Hc Hz Hm.
  destruct (read_annotation_ok py _ _ Hr Hc) as (tr_a & Ha).
  destruct (gnomad_columns_ok py ann) as (tr_g & Hg & _).
  unfold prioritise.
  rewrite (snd_bind_ok _ _ _ _ Ha), (snd_bind_ok _ _ _ _ Hg). cbn [fst snd].
  rewrite (snd_bind_ok _ _ _ _ (eq_refl : print _ = (_, inr tt))).
  rewrite (snd_bind_ok _ _ _ _ Hz).
  rewrite (snd_bind_ok _ _ _ _ (eq_refl : print _ = (_, inr tt))).
  now rewrite (snd_bind_ok _ _ _ _ Hm).
Qed.

Lemma failed_run_writes_nothing ap zp pre t1 t2 t3 e :
  snd (prioritise py ap zp pre t1 t2 t3) = inl e ->
  prioritise py ap zp pre t1 t2 t3 = (fst (prioritise py ap zp pre t1 t2 t3), inl e)
  /\ written (fst (prioritise py ap zp pre t1 t2 t3)) = [].
Proof.
  intros H. split.
  - rewrite (surjective_pairing (prioritise py ap zp pre t1 t2 t3)) at 1.
    now rewrite H.
  - destruct (run_all_or_nothing py ap zp pre t1 t2 t3) as [(e' & _ & W)|(Hs & _)];
      [exact W|]. rewrite H in Hs. discriminate.
Qed.

(** A Func.refGene column without a single text value (all missing, or
    numbers) has no [.str] accessor: when the annotation has both consequence
    columns and at least one row, and the tables load and join, the run stops
    at line 143 on an AttributeError and writes nothing. *)
Theorem func_column_without_text_fails
  ap zp pre t1 t2 t3 ann zim tr_z tr_m merged0 :
  read_csv py ap false = inr ann ->
  (forall c, In c core_columns -> In c (columns ann)) ->
  In func_col (columns ann) -> In exonic_func_col (columns ann) ->
  body ann <> [] ->
  (forall a, In a (body ann) -> is_str (get (snd a) func_col) = false) ->
  load_zim_db py zp = (tr_z, inr zim) ->
  merge_zim (with_max_columns py ann) zim = (tr_m, inr merged0) ->
  exists tr,
    prioritise py ap zp pre t1 t2 t3
    = (tr, inl AttributeError) /\ written tr = [].
Proof.
  intros Hr Hc Hf He Hne Hns Hz Hm.
  assert (Hi : impact_tier merged0 = ([], inl AttributeError)).
  { unfold impact_tier.
    rewrite (merged0_columns _ _ _ _ _ _ _ Hz Hm Hf),
            (merged0_columns _ _ _ _ _ _ _ Hz Hm He).
    cbn [negb orb]. unfold str_accessor. rewrite is_object_false; [reflexivity| |].
    - unfold values. intros E. apply map_eq_nil in E.
      now apply (merged0_nonempty _ _ _ _ _ _ Hz Hm Hne).
    - intros c Hin. unfold values in Hin. apply in_map_iff in Hin as (ir & <- & Hin).
      destruct (merged0_cell _ _ _ _ _ _ func_col ir Hz Hm Hf) as (a & Ha & ->);
        try discriminate; try reflexivity; auto. }
  eexists. apply failed_run_writes_nothing.
  rewrite (snd_prioritise _ _ _ _ _ _ _ _ _ _ _ Hr Hc Hz Hm).
  now rewrite (snd_bind_fail _ _ _ _ Hi).
Qed.

End Failures.

Section TextFrequency.

Variable py : Runtime.

(** The max columns of the annotated table hold no string. *)
Lemma max_columns_comparable zp tr_z zim ann tr_m merged0 tr_i merged g :
  load_zim_db py zp = (tr_z, inr zim) ->
  merge_zim (with_max_columns py ann) zim = (tr_m, inr merged0) ->
  impact_tier merged0 = (tr_i, inr merged) ->
  gnomad_all_name ann = Some g \/ gnomad_afr_name ann = Some g ->
  comparable_column merged g.
Proof.
  intros Hz Hm Hi Hg.
  destruct (merged_shape py _ _ _ _ _ _ Hz Hm) as (_ & Hno & E0).
  destruct (impact_tier_assign _ _ _ Hi) as (F & E).
  split.
  - apply mem_In. rewrite E. unfold assign. cbn [columns]. apply In_col_add.
    rewrite E0. cbn [columns]. apply in_or_app. left.
    now apply max_columns_present.
  - intros [i r] Hin.
    destruct (annotated_row_inv py _ _ _ _ _ _ _ _ _ _ Hz Hm Hi Hin)
      as (l & v & tier & Hl & _ & Er).
    cbn [snd]. rewrite Er. rewrite get_annotated_left.
    + rewrite body_with_max_columns, map_map in Hl. cbn [snd] in Hl.
      apply in_map_iff in Hl as (ir0 & <- & _). now apply max_columns_numeric.
    + now apply max_columns_present.
    + unfold gnomad_all_name, gnomad_afr_name, created in Hg.
      destruct Hg as [Hg|Hg];
        [destruct (gnomad_all_candidates ann)|destruct (gnomad_afr_candidates ann)];
        try discriminate; injection Hg as <-; discriminate.
Qed.

(** A frequency given as text is not coerced when it comes from a zim_AF
    column (lines 45-48 only rename): when an annotation row is joined with a
    cohort row whose zim_AF cell is a string, and the stages before the filter
    succeed, the comparison of line 166 raises a TypeError and the run writes
    nothing. *)
Theorem text_frequency_fails ap zp pre t1 t2 t3 ann zim tr_z tr_m merged0 tr_i merged
  a z s :
  read_csv py ap false = inr ann ->
  (forall c, In c core_columns -> In c (columns ann)) ->
  load_zim_db py zp = (tr_z, inr zim) ->
  merge_zim (with_max_columns py ann) zim = (tr_m, inr merged0) ->
  impact_tier merged0 = (tr_i, inr merged) ->
  In a (body ann) -> In z (body zim) ->
  row_matches on_keys (snd a) (snd z) = true ->
  get (snd z) "zim_AF" = Str s ->
  exists tr,
    prioritise py ap zp pre t1 t2 t3
    = (tr, inl (TypeError "'<=' not supported between instances of 'str' and 'float'"))
    /\ written tr = [].
Proof.
  intros Hr Hc Hz Hm Hi Ha Hzin Hmatch Hs.
  destruct (merged_shape py _ _ _ _ _ _ Hz Hm) as (_ & Hno & E0).
  destruct (impact_tier_assign _ _ _ Hi) as (F & E).
  destruct a as [j a]. cbn [snd] in *.
  set (l := max_col_row py (gnomad_afr_candidates ann) "gnomad_AFR_AF_max"
              (max_col_row py (gnomad_all_candidates ann) "gnomad_AF_max" a)).
  assert (Hl : In l (map snd (body (with_max_columns py ann)))).
  { rewrite body_with_max_columns, map_map. cbn [snd].
    apply in_map_iff. exists (j, a). split; [reflexivity|exact Ha]. }
  assert (Hv : In (Str s) (joined_freqs zim l)).
  { rewrite <- Hs. apply joined_freqs_matched; [exact Hzin|].
    rewrite <- Hmatch. apply row_matches_ext. intros k Hk.
    apply get_key_with_max_columns. now apply on_keys_core. }
  destruct (annotated_row_intro py _ _ _ _ _ _ _ _ _ _ Hz Hm Hi Hl Hv)
    as (i & tier & Hin).
  assert (Hstr : existsb (fun p : nat * cell => is_str (snd p))
                   (map (fun ir => (fst ir, get (snd ir) "zim_AF")) (body merged))
                 = true).
  { apply existsb_exists. eexists. split.
    - apply in_map_iff. eexists. split; [reflexivity|exact Hin].
    - cbn [fst snd]. now rewrite get_annotated_freq. }
  assert (Hzc : PyStr.mem "zim_AF" (columns merged) = true).
  { apply mem_In. rewrite E. unfold assign. cbn [columns]. apply In_col_add.
    rewrite E0. cbn [columns]. apply in_or_app. right. now left. }
  assert (Hmask : final_mask merged (gnomad_all_name ann) (gnomad_afr_name ann) t1 t2 t3
                  = ([], inl cmp_error)).
  { unfold final_mask.
    destruct (freq_conjunct_ok merged (gnomad_all_name ann) t1
                (repeat true (len merged))) as (m1 & ->).
    { intros g Hg. apply (max_columns_comparable _ _ _ _ _ _ _ _ g Hz Hm Hi). auto. }
    rewrite bind_nil.
    destruct (freq_conjunct_ok merged (gnomad_afr_name ann) t2 m1) as (m2 & ->).
    { intros g Hg. apply (max_columns_comparable _ _ _ _ _ _ _ _ g Hz Hm Hi). auto. }
    rewrite bind_nil, (getitem_ok _ _ Hzc), bind_nil.
    unfold series_le. now rewrite Hstr. }
  eexists. apply failed_run_writes_nothing.
  rewrite (snd_prioritise _ _ _ _ _ _ _ _ _ _ _ _ Hr Hc Hz Hm).
  rewrite (snd_bind_ok _ _ _ _ Hi).
  now rewrite (snd_bind_fail _ _ _ _ Hmask).
Qed.

End TextFrequency.

(* ================================================================== *)
(** ** What a completed run prints *)
(* ================================================================== *)

Lemma len_prioritised_of merged ga gr t1 t2 t3 :
  len (prioritised_of merged ga gr t1 t2 t3)
  = match selected merged ga gr t1 t2 t3 with
    | [] => len merged
    | rows => length rows
    end.
Proof.
  unfold len. rewrite body_prioritised_of, length_map.
  unfold reindexed. cbn [body columns].
  destruct (selected merged ga gr t1 t2 t3); [now rewrite length_map|reflexivity].
Qed.

Section Log.

Variable py : Runtime.

Lemma read_annotation_trace ap tr ann :
  read_annotation py ap = (tr, inr ann) ->
  tr = [Printed ("Reading ANNOVAR multianno file: " ++ ap);
        Printed ("  n = " ++ PyStr.of_nat (len ann) ++ " variants before filtering")].
Proof.
  unfold read_annotation. intros H.
  bind_inv H. bind_inv K. bind_inv K0. bind_inv K. destruct a2.
  injection K0 as <- <-.
  unfold lift in S0. injection S0 as <- _.
  apply for_each_inr in S2 as (-> & _);
    [|intros c; destruct (negb _); [apply silent_raise|apply silent_ret]].
  unfold print in S, S1. injection S as <- _. injection S1 as <- _.
  subst. reflexivity.
Qed.

Lemma gnomad_columns_trace ann :
  gnomad_columns py ann
  = ([Printed "Using gnomAD columns:";
      Printed ("  global AF (max over " ++ repr_list py (gnomad_all_candidates ann)
               ++ ") -> " ++ str_of_name (gnomad_all_name ann));
      Printed ("  AFR AF   (max over " ++ repr_list py (gnomad_afr_candidates ann)
               ++ ") -> " ++ str_of_name (gnomad_afr_name ann))],
     inr (with_max_columns py ann, gnomad_all_name ann, gnomad_afr_name ann)).
Proof.
  unfold gnomad_columns.
  rewrite (bind_ok _ _ [] _ (make_max_col_ok py ann _ "gnomad_AF_max"
                               (all_candidates_in ann))).
  cbn [fst snd app].
  erewrite (bind_ok _ _ [] _ (make_max_col_ok py _ _ "gnomad_AFR_AF_max" _)).
  reflexivity.
  Unshelve.
  intros c Hc. apply ann_columns_max_col; [apply all_candidates_in|].
  now apply afr_candidates_in.
Qed.

(** The trace of a completed run, event by event. *)
Lemma prioritise_trace ap zp pre t1 t2 t3 tr :
  prioritise py ap zp pre t1 t2 t3 = (tr, inr tt) ->
  exists ann zim merged0 merged tr_i,
    read_csv py ap false = inr ann
    /\ load_zim_db py zp = ([], inr zim)
    /\ merge_zim (with_max_columns py ann) zim = ([], inr merged0)
    /\ impact_tier merged0 = (tr_i, inr merged)
    /\ tr
       = ([Printed ("Reading ANNOVAR multianno file: " ++ ap);
           Printed ("  n = " ++ PyStr.of_nat (len ann) ++ " variants before filtering");
           Printed "Using gnomAD columns:";
           Printed ("  global AF (max over " ++ repr_list py (gnomad_all_candidates ann)
                    ++ ") -> " ++ str_of_name (gnomad_all_name ann));
           Printed ("  AFR AF   (max over " ++ repr_list py (gnomad_afr_candidates ann)
                    ++ ") -> " ++ str_of_name (gnomad_afr_name ann));
           Printed ("Reading Zimbabwe cohort DB: " ++ zp);
           Printed ("  n = " ++ PyStr.of_nat (len zim) ++ " distinct cohort variants")]
          ++ tr_i
          ++ [Printed ("  n = "
                       ++ PyStr.of_nat
                            (length (selected merged (gnomad_all_name ann)
                                       (gnomad_afr_name ann) t1 t2 t3))
                       ++ " variants after global+AFR+Zimbabwe AF and impact filters");
              Wrote (out_all pre) merged;
              Wrote (out_filtered pre)
                    (prioritised_of merged (gnomad_all_name ann) (gnomad_afr_name ann)
                                    t1 t2 t3);
              Printed ("Wrote annotated file (with zim_AF)  : " ++ out_all pre);
              Printed ("Wrote prioritised variant list      : " ++ out_filtered pre)])%list.
Proof.
  unfold prioritise. intros H.
  bind_name H as ann Sa K.
  pose proof (read_annotation_trace _ _ _ Sa) as Ea.
  apply read_annotation_inr in Sa as (Hread & _ & _).
  bind_name K as g Sg K1. rewrite gnomad_columns_trace in Sg.
  injection Sg as <- <-. cbn [fst snd] in K1.
  effect_inv K1 K2.
  bind_name K2 as zim Sz K3.
  pose proof (silent_inv _ _ _ (silent_load_zim_db py zp) Sz) as Ez.
  effect_inv K3 K4.
  bind_name K4 as merged0 Sm K5.
  pose proof (silent_inv _ _ _ (silent_merge_zim _ _) Sm) as Em.
  bind_name K5 as merged Si K6.
  bind_name K6 as mask Sk K7.
  pose proof (silent_inv _ _ _ (silent_final_mask _ _ _ _ _ _) Sk) as Ek.
  apply final_mask_inr in Sk. subst mask.
  effect_inv K7 K8.
  bind_name K8 as filtered Sf K9.
  apply flags_inr in Sf as (-> & Ef).
  rewrite select_rows_map in *.
  effect_inv K9 K10. effect_inv K10 K11. effect_inv K11 K12.
  unfold print in K12. injection K12 as <-.
  subst. exists ann, zim, merged0, merged. eexists.
  split; [exact Hread|]. split; [exact Sz|]. split; [exact Sm|].
  split; [exact Si|].
  rewrite <- ?app_assoc. reflexivity.
Qed.

(** The log of a completed run, line by line: the two counts at the top
    are the numbers of rows of the annotation and of the loaded cohort table,
    the warning is printed exactly when one of the two consequence columns is
    not in the annotation, and the last count is the number of rows that
    pass the filter. This is the number of rows of the prioritised table that
    is written when some row passes; when none does the log says 0 and the
    table written has as many rows as the annotated one. *)
Theorem run_log ap zp pre t1 t2 t3 tr ann zim tr_z :
  prioritise py ap zp pre t1 t2 t3 = (tr, inr tt) ->
  read_csv py ap false = inr ann ->
  load_zim_db py zp = (tr_z, inr zim) ->
  exists merged filtered,
    written tr = [(out_all pre, merged); (out_filtered pre, filtered)]
    /\ stdout tr
       = ([("Reading ANNOVAR multianno file: " ++ ap)%string;
           ("  n = " ++ PyStr.of_nat (len ann) ++ " variants before filtering")%string;
           "Using gnomAD columns:";
           ("  global AF (max over " ++ repr_list py (gnomad_all_candidates ann)
            ++ ") -> " ++ str_of_name (gnomad_all_name ann))%string;
           ("  AFR AF   (max over " ++ repr_list py (gnomad_afr_candidates ann)
            ++ ") -> " ++ str_of_name (gnomad_afr_name ann))%string;
           ("Reading Zimbabwe cohort DB: " ++ zp)%string;
           ("  n = " ++ PyStr.of_nat (len zim) ++ " distinct cohort variants")%string]
          ++ (if PyStr.mem func_col (columns ann)
                 && PyStr.mem exonic_func_col (columns ann)
              then [] else [impact_warning])
          ++ [("  n = "
               ++ PyStr.of_nat
                    (length (selected merged (gnomad_all_name ann)
                                      (gnomad_afr_name ann) t1 t2 t3))
               ++ " variants after global+AFR+Zimbabwe AF and impact filters")%string;
              ("Wrote annotated file (with zim_AF)  : " ++ out_all pre)%string;
              ("Wrote prioritised variant list      : " ++ out_filtered pre)%string])%list
    /\ len filtered
       = match selected merged (gnomad_all_name ann) (gnomad_afr_name ann) t1 t2 t3 with
         | [] => len merged
         | rows => length rows
         end.
Proof.
  intros H Hr Hz.
  apply prioritise_trace in H
    as (ann' & zim' & merged0 & merged & tr_i & Hr' & Hz' & Hm & Hi & ->).
  rewrite Hr in Hr'. injection Hr' as <-.
  rewrite Hz in Hz'. injection Hz' as -> <-.
  eexists merged, _. split; [|split; [|apply len_prioritised_of]].
  - rewrite !written_app. rewrite (quiet_inv _ _ _ (quiet_impact_tier merged0) Hi).
    reflexivity.
  - rewrite !stdout_app. cbn [stdout flat_map app]. do 7 f_equal.
    assert (Hcols : forall c, c = func_col \/ c = exonic_func_col ->
                      PyStr.mem c (columns merged0) = PyStr.mem c (columns ann)).
    { intros c Hc.
      destruct (merged_shape py _ _ _ _ _ _ Hz Hm) as (_ & _ & E0).
      rewrite E0. cbn [columns].
      destruct (PyStr.mem c (columns ann)) eqn:X.
      - apply mem_In, in_or_app. left. apply columns_with_max_columns_incl.
        now apply mem_In.
      - apply mem_false. intros Hin. apply mem_false in X. apply X.
        apply in_app_or in Hin as [Hin|[Hin|[]]].
        + apply columns_with_max_columns in Hin as [Hin|[Hin|Hin]]; [exact Hin| |];
            destruct Hc; subst; discriminate.
        + destruct Hc; subst; discriminate. }
    apply impact_tier_inr in Hi as (Hno & Hyes).
    rewrite !Hcols in * by auto.
    destruct (PyStr.mem func_col (columns ann)
              && PyStr.mem exonic_func_col (columns ann)).
    + destruct (Hyes eq_refl) as (_ & ->). reflexivity.
    + destruct (Hno eq_refl) as (_ & ->). reflexivity.
Qed.

End Log.

(* ================================================================== *)
(** ** The two columns every annotated row has *)
(* ================================================================== *)

Lemma tier_by_precedence_cases r :
  In (tier_by_precedence r) ["LoF"; "missense"; "synonymous"; "other"].
Proof.
  unfold tier_by_precedence.
  destruct (cond_lof r), (cond_missense r), (cond_synonymous r); cbn; auto.
Qed.

Lemma isna_fillna v c : is_nan v = false -> isna (fillna v c) = false.
Proof.
  intros H. unfold fillna. destruct (isna c) eqn:E; [exact H|exact E].
Qed.

Section AnnotatedCells.

Variable py : Runtime.

(** In the annotated table of a completed run no zim_AF cell is missing,
    and every impact_tier cell is one of LoF, missense, synonymous, other and
    unknown: unknown on every row when the annotation lacks one of the two
    consequence columns, and on no row when it has both. *)
Theorem annotated_cells_defined ap zp pre t1 t2 t3 tr ann :
  prioritise py ap zp pre t1 t2 t3 = (tr, inr tt) ->
  read_csv py ap false = inr ann ->
  exists merged filtered,
    written tr = [(out_all pre, merged); (out_filtered pre, filtered)]
    /\ forall i r, In (i, r) (body merged) ->
         isna (get r "zim_AF") = false
         /\ exists tier,
              get r "impact_tier" = Str tier
              /\ In tier ["LoF"; "missense"; "synonymous"; "other"; "unknown"]
              /\ (tier = "unknown"
                  <-> PyStr.mem func_col (columns ann)
                      && PyStr.mem exonic_func_col (columns ann) = false).
Proof.
  intros H Hr.
  apply prioritise_inr in H
    as (ann' & zim & merged0 & merged & tr_z & tr_i & Hr' & _ & Hz & Hm & Hi & Hw & _).
  rewrite Hr in Hr'. injection Hr' as <-.
  eexists merged, _. split; [exact Hw|].
  intros i r Hin.
  destruct (merged_shape py _ _ _ _ _ _ Hz Hm) as (_ & Hno & E0).
  split.
  - destruct (annotated_row_inv py _ _ _ _ _ _ _ _ _ _ Hz Hm Hi Hin)
      as (l & v & tier & _ & _ & ->).
    rewrite get_annotated_freq by exact Hno. now apply isna_fillna.
  - assert (Hcols : forall c, c = func_col \/ c = exonic_func_col ->
                      PyStr.mem c (columns merged0) = PyStr.mem c (columns ann)).
    { intros c Hc. rewrite E0. cbn [columns].
      destruct (PyStr.mem c (columns ann)) eqn:X.
      - apply mem_In, in_or_app. left. apply columns_with_max_columns_incl.
        now apply mem_In.
      - apply mem_false. intros Hin'. apply mem_false in X. apply X.
        apply in_app_or in Hin' as [Hin'|[Hin'|[]]].
        + apply columns_with_max_columns in Hin' as [Hin'|[Hin'|Hin']]; [exact Hin'| |];
            destruct Hc; subst; discriminate.
        + destruct Hc; subst; discriminate. }
    apply impact_tier_inr in Hi as (Hdeg & Hok).
    rewrite !Hcols in * by auto.
    destruct (PyStr.mem func_col (columns ann)
              && PyStr.mem exonic_func_col (columns ann)).
    + destruct (Hok eq_refl) as (-> & _).
      unfold assign in Hin. cbn [body] in Hin.
      apply in_map_iff in Hin as ([j r0] & E & _). cbn [fst snd] in E.
      injection E as _ <-. exists (tier_by_precedence r0).
      split; [apply get_row_set_eq|]. split.
      * pose proof (tier_by_precedence_cases r0) as T. cbn in T |- *. tauto.
      * split; [|discriminate]. intros U.
        pose proof (tier_by_precedence_cases r0) as T. rewrite U in T.
        cbn in T. intuition discriminate.
    + destruct (Hdeg eq_refl) as (-> & _).
      unfold assign in Hin. cbn [body] in Hin.
      apply in_map_iff in Hin as ([j r0] & E & _). cbn [fst snd] in E.
      injection E as _ <-. exists "unknown".
      split; [apply get_row_set_eq|]. split; [cbn; auto 6|tauto].
Qed.

End AnnotatedCells.

(* ================================================================== *)
(** ** The filter and the flags when some row passes; degraded mode *)
(* ================================================================== *)

Section Passing.

Variable py : Runtime.

Lemma keep_iff ann t1 t2 t3 r :
  keep (gnomad_all_name ann) (gnomad_afr_name ann) t1 t2 t3 r = true
  <-> ((gnomad_all_candidates ann <> [] ->
        isna (get r "gnomad_AF_max") = true
        \/ le_cell t1 (get r "gnomad_AF_max") = true)
       /\ (gnomad_afr_candidates ann <> [] ->
           isna (get r "gnomad_AFR_AF_max") = true
           \/ le_cell t2 (get r "gnomad_AFR_AF_max") = true))
      /\ le_cell t3 (get r "zim_AF") = true
      /\ isin ["LoF"; "missense"] (get r "impact_tier") = true.
Proof.
  unfold keep, gnomad_all_name, gnomad_afr_name, cohort_ok, impact_ok.
  rewrite !andb_true_iff, !freq_ok_created. tauto.
Qed.

(** The filter as a conjunction, when it keeps something: in a completed
    run where at least one row passes, a row of the annotated table is in the
    prioritised table (by index label) if and only if each gnomAD max column
    that was created holds a missing value or a value within its threshold,
    zim_AF is within the cohort threshold, and the impact tier is LoF or
    missense. *)
Theorem filter_conjunction_some_pass ap zp pre t1 t2 t3 tr ann :
  prioritise py ap zp pre t1 t2 t3 = (tr, inr tt) ->
  read_csv py ap false = inr ann ->
  exists merged filtered,
    written tr = [(out_all pre, merged); (out_filtered pre, filtered)]
    /\ (selected merged (gnomad_all_name ann) (gnomad_afr_name ann) t1 t2 t3 <> [] ->
        forall i r, In (i, r) (body merged) ->
          (In i (index filtered)
           <-> ((gnomad_all_candidates ann <> [] ->
                 isna (get r "gnomad_AF_max") = true
                 \/ le_cell t1 (get r "gnomad_AF_max") = true)
                /\ (gnomad_afr_candidates ann <> [] ->
                    isna (get r "gnomad_AFR_AF_max") = true
                    \/ le_cell t2 (get r "gnomad_AFR_AF_max") = true))
               /\ le_cell t3 (get r "zim_AF") = true
               /\ isin ["LoF"; "missense"] (get r "impact_tier") = true)).
Proof.
  intros H Hr.
  destruct (prioritised_written py _ _ _ _ _ _ _ _ H Hr) as (merged & Hw & ND & _).
  eexists merged, _. split; [exact Hw|]. intros N i r Hin.
  rewrite <- keep_iff, index_prioritised_of, selected_rows by exact N.
  rewrite in_map_iff. split.
  - intros ([j r'] & Ej & Hs). cbn [fst] in Ej. subst j.
    apply In_selected in Hs as (Hin' & Hk). cbn [snd] in Hk.
    now rewrite (NoDup_fst_unique _ _ _ _ ND Hin Hin').
  - intros Hk. exists (i, r). split; [reflexivity|]. apply In_selected. auto.
Qed.

(** The debug flags. In every completed run a flag label that the
    annotation does not carry is not a column of the annotated table, and
    the prioritised table has flag_high_zim_af and the flag of each max
    column that was created. When at least one row passes the filter, the
    prioritised table is indexed by the passing rows, and on each of its rows
    a flag is the comparison of the row's own value with the fixed 0.01,
    whatever the thresholds are. *)
Theorem debug_flags_some_pass ap zp pre t1 t2 t3 tr ann :
  prioritise py ap zp pre t1 t2 t3 = (tr, inr tt) ->
  read_csv py ap false = inr ann ->
  exists merged filtered,
    written tr = [(out_all pre, merged); (out_filtered pre, filtered)]
    /\ (forall flag,
          In flag ["flag_high_zim_af"; "flag_common_gnomad"; "flag_common_gnomad_afr"] ->
          ~ In flag (columns ann) -> ~ In flag (columns merged))
    /\ In "flag_high_zim_af" (columns filtered)
    /\ (gnomad_all_candidates ann <> [] -> In "flag_common_gnomad" (columns filtered))
    /\ (gnomad_afr_candidates ann <> [] ->
        In "flag_common_gnomad_afr" (columns filtered))
    /\ (selected merged (gnomad_all_name ann) (gnomad_afr_name ann) t1 t2 t3 <> [] ->
        index filtered
        = map fst (selected merged (gnomad_all_name ann) (gnomad_afr_name ann)
                            t1 t2 t3)
        /\ forall i r', In (i, r') (body filtered) ->
             get r' "flag_high_zim_af" = Bool (gt_cell 0.01 (get r' "zim_AF"))
             /\ (gnomad_all_candidates ann <> [] ->
                 get r' "flag_common_gnomad"
                 = Bool (gt_cell 0.01 (get r' "gnomad_AF_max")))
             /\ (gnomad_afr_candidates ann <> [] ->
                 get r' "flag_common_gnomad_afr"
                 = Bool (gt_cell 0.01 (get r' "gnomad_AFR_AF_max")))).
Proof.
  intros H Hr.
  pose proof H as H0.
  apply prioritise_inr in H
    as (ann' & zim & merged0 & merged & tr_z & tr_i
        & Hr' & Hcore & Hz & Hm & Hi & Hw & _).
  rewrite Hr in Hr'. injection Hr' as <-.
  pose proof (NoDup_index_merged _ _ _ _ _ _ Hm Hi) as ND.
  destruct (merged_shape py _ _ _ _ _ _ Hz Hm) as (_ & _ & E0).
  destruct (impact_tier_assign _ _ _ Hi) as (F & E).
  eexists merged, _. split; [exact Hw|]. split; [|split; [|split; [|split]]].
  - intros flag Hflag Hnot Hin. rewrite E, E0 in Hin.
    unfold assign in Hin. cbn [columns] in Hin.
    apply In_col_add_inv in Hin as [->|Hin].
    { destruct Hflag as [X|[X|[X|[]]]]; discriminate. }
    apply in_app_or in Hin as [Hin|[<-|[]]].
    + apply columns_with_max_columns in Hin as [Hin|[-> | ->]]; [contradiction| |];
        destruct Hflag as [X|[X|[X|[]]]]; discriminate.
    + destruct Hflag as [X|[X|[X|[]]]]; discriminate.
  - unfold prioritised_of. do 2 apply columns_with_flag_incl.
    apply columns_with_flag_self.
  - intros Hc. unfold prioritised_of, gnomad_all_name.
    rewrite (created_some _ _ Hc). apply columns_with_flag_incl.
    apply columns_with_flag_self.
  - intros Hc. unfold prioritised_of, gnomad_afr_name.
    rewrite (created_some _ _ Hc). apply columns_with_flag_self.
  - intros N. split; [now rewrite index_prioritised_of, selected_rows|].
    intros i r' Hin.
    destruct (prioritised_row_selected _ _ _ _ _ _ _ _ ND N Hin)
      as (r & _ & _ & Hc & Fz & Fa & Fr).
    rewrite (Hc "zim_AF"), (Hc "gnomad_AF_max"), (Hc "gnomad_AFR_AF_max")
      by discriminate.
    split; [exact Fz|]. split.
    + intros Hn. apply Fa. unfold gnomad_all_name. now apply created_some.
    + intros Hn. apply Fr. unfold gnomad_afr_name. now apply created_some.
Qed.

(** Degraded mode: when the annotation lacks Func.refGene or
    ExonicFunc.refGene (and the rest of the input is sound: the identity
    columns are there, the cohort table loads, its frequencies are not text,
    the join succeeds), the run completes; it prints the warning and writes
    the whole joined table with impact tier unknown on every row (every
    annotation row is in it). No row passes the filter, and the prioritised
    table that is written has one row per row of the annotated table, under
    the same label, whose cells are all missing apart from the flags. *)
Theorem degraded_mode_run ap zp pre t1 t2 t3 ann zim tr_z tr_m merged0 :
  read_csv py ap false = inr ann ->
  (forall c, In c core_columns -> In c (columns ann)) ->
  ~ In func_col (columns ann) \/ ~ In exonic_func_col (columns ann) ->
  load_zim_db py zp = (tr_z, inr zim) ->
  (forall z, In z (body zim) -> is_str (get (snd z) "zim_AF") = false) ->
  merge_zim (with_max_columns py ann) zim = (tr_m, inr merged0) ->
  exists tr merged filtered,
    prioritise py ap zp pre t1 t2 t3 = (tr, inr tt)
    /\ In (Printed impact_warning) tr
    /\ written tr = [(out_all pre, merged); (out_filtered pre, filtered)]
    /\ merged = assign "impact_tier" (fun _ => Str "unknown") merged0
    /\ index merged = index merged0
    /\ (forall i r, In (i, r) (body merged) -> get r "impact_tier" = Str "unknown")
    /\ (forall a, In a (body ann) ->
          exists i r, In (i, r) (body merged)
                      /\ forall k, In k on_keys -> get r k = get (snd a) k)
    /\ selected merged (gnomad_all_name ann) (gnomad_afr_name ann) t1 t2 t3 = []
    /\ Forall2 (fun ir' ir =>
                  fst ir' = fst ir /\ blank (snd ir')
                  /\ flags_from (gnomad_all_name ann) (gnomad_afr_name ann)
                                (snd ir') (snd ir))
               (body filtered) (body merged).
Proof.
  intros Hr Hcore Hlack Hz Hzs Hm.
  pose proof (impact_tier_degraded merged0 (degraded_columns py _ _ _ _ _ _ Hz Hm Hlack))
    as Hi.
  destruct (prioritise_completes py ap zp pre t1 t2 t3 _ _ _ _ _ _ _
              Hr Hcore Hz Hm Hi Hzs) as (tr & Hrun).
  destruct (run_annotated py _ _ _ _ _ _ _ _ _ _ Hrun Hr Hz)
    as (merged0' & merged' & tr_i & Hm' & Hi' & _ & Hw & Htr).
  pose proof (silent_inv _ _ _ (silent_merge_zim _ _) Hm) as ->.
  rewrite Hm in Hm'. injection Hm' as <-.
  rewrite Hi in Hi'. injection Hi' as <- <-.
  set (merged := assign "impact_tier" (fun _ => Str "unknown") merged0) in *.
  assert (Hunk : forall i r, In (i, r) (body merged) ->
                             get r "impact_tier" = Str "unknown").
  { intros i r Hin. unfold merged, assign in Hin. cbn [body] in Hin.
    apply in_map_iff in Hin as (ir & E & _). injection E as _ <-.
    apply get_row_set_eq. }
  assert (Es : selected merged (gnomad_all_name ann) (gnomad_afr_name ann) t1 t2 t3
               = []).
  { unfold selected. apply filter_none.
    intros [i r] Hin. cbn [snd]. unfold keep, impact_ok.
    rewrite (Hunk i r Hin). apply andb_false_r. }
  eexists tr, merged, _. split; [exact Hrun|]. split; [apply Htr; now left|].
  split; [exact Hw|]. split; [reflexivity|]. split; [apply index_assign|].
  split; [exact Hunk|]. split; [|split; [exact Es|]].
  - apply (annotation_rows_present py _ _ _ _ _ _ _ _ Hz Hm Hi Hcore).
  - apply prioritised_rows_unselected; [|exact Es].
    exact (NoDup_index_merged _ _ _ _ _ _ Hm Hi).
Qed.

End Passing.

(* ================================================================== *)
(** ** The theorems at concrete inputs *)
(* ================================================================== *)

Import Fixtures.

(** The example of the specification: 0.001, missing, 0.02 gives 0.02, and
    nothing but missing values gives a missing value. *)
Example nanmax_example :
  nanmax [0.001%float; nan; 0.02%float] = 0.02%float
  /\ is_nan (nanmax [nan; nan]) = true.
Proof. split; vm_compute; reflexivity. Qed.

(** The end-to-end scenario: LoF, zim_AF 0.0, both max columns, the row in
    both outputs with flag_high_zim_af false. *)
Example end_to_end :
  snd (run ann_stopgain zim_empty) = inr tt
  /\ map fst (written (fst (run ann_stopgain zim_empty)))
     = ["out.zim_annotated.tsv"; "out.zim_prioritised.tsv"]
  /\ index (annotated (run ann_stopgain zim_empty)) = [0]
  /\ index (prioritised (run ann_stopgain zim_empty)) = [0]
  /\ get (only_row (annotated (run ann_stopgain zim_empty))) "impact_tier" = Str "LoF"
  /\ get (only_row (annotated (run ann_stopgain zim_empty))) "zim_AF" = Num 0%float
  /\ get (only_row (annotated (run ann_stopgain zim_empty))) "gnomad_AF_max"
     = Num 0.001%float
  /\ get (only_row (annotated (run ann_stopgain zim_empty))) "gnomad_AFR_AF_max"
     = Num 0.0005%float
  /\ get (only_row (prioritised (run ann_stopgain zim_empty))) "flag_high_zim_af"
     = Bool false.
Proof. vm_compute. tauto. Qed.

(** Two variants, one of them above the cohort threshold: the other one is
    the prioritised table. *)
Example cohort_exclusion :
  snd (run ann_pair zim_hit) = inr tt
  /\ index (annotated (run ann_pair zim_hit)) = [0; 1]
  /\ column (annotated (run ann_pair zim_hit)) "zim_AF"
     = [Num 0.10%float; Num 0%float]
  /\ index (prioritised (run ann_pair zim_hit)) = [1]
  /\ column (prioritised (run ann_pair zim_hit)) "zim_AF" = [Num 0%float].
Proof. vm_compute. tauto. Qed.

(** Labels that differ by case only: with chr before Chr the dict of line 21
    keeps Chr and the table has five columns; with Chr before chr it keeps
    chr, the rename makes a second Chr, and the table has six. *)
Example loader_case_variants :
  columns (loaded zim_chr_then_Chr) = zim_columns
  /\ column (loaded zim_chr_then_Chr) "Chr" = [Num 1%float]
  /\ columns (loaded zim_two_chr) = ["Chr"; "Chr"; "Start"; "Ref"; "Alt"; "zim_AF"].
Proof. vm_compute. tauto. Qed.

(** C1. The filter is not the conjunction of the three predicates when no
    row passes. In the cohort-exclusion scenario of the specification (one
    variant, LoF, cohort frequency 0.10, cohort threshold 0.05) the run
    completes, the only row of the annotated table fails the cohort
    predicate, so that no row passes the filter and the log counts 0 variants
    after filtering; yet the prioritised table that is written has a row
    under the index label of that row. *)
Theorem C1_filter_empty_selection :
  snd (run ann_stopgain zim_hit) = inr tt
  /\ index (annotated (run ann_stopgain zim_hit)) = [0]
  /\ get (only_row (annotated (run ann_stopgain zim_hit))) "zim_AF" = Num 0.10%float
  /\ get (only_row (annotated (run ann_stopgain zim_hit))) "impact_tier" = Str "LoF"
  /\ le_cell 0.05 (get (only_row (annotated (run ann_stopgain zim_hit))) "zim_AF")
     = false
  /\ passing ann_stopgain (run ann_stopgain zim_hit) 0.01 0.01 0.05 = []
  /\ In "  n = 0 variants after global+AFR+Zimbabwe AF and impact filters"
        (stdout (fst (run ann_stopgain zim_hit)))
  /\ index (prioritised (run ann_stopgain zim_hit)) = [0].
Proof. vm_compute. tauto. Qed.

(** C2 on the end-to-end scenario: the cohort table is empty. *)
Lemma C2_witness :
  exists merged filtered,
    written (fst (run ann_stopgain zim_empty))
    = [(out_all "out", merged); (out_filtered "out", filtered)]
    /\ (forall i r, In (i, r) (body merged) ->
          (forall z, In z (body zim_empty) -> row_matches on_keys r (snd z) = false) ->
          get r "zim_AF" = Num 0%float /\ isna (get r "zim_AF") = false)
    /\ (forall a, In a (body ann_stopgain) ->
          (forall z, In z (body zim_empty) ->
                     row_matches on_keys (snd a) (snd z) = false) ->
          exists i r, In (i, r) (body merged)
                      /\ (forall k, In k on_keys -> get r k = get (snd a) k)
                      /\ get r "zim_AF" = Num 0%float).
Proof.
  apply (C2_cohort_frequency_default (scenario ann_stopgain zim_empty)
           "ann.txt" "zim.tsv" "out" 0.01 0.01 0.05
           (fst (run ann_stopgain zim_empty)) ann_stopgain zim_empty []).
  - vm_compute. reflexivity.
  - reflexivity.
  - vm_compute. reflexivity.
Defined.

(** C3 on a table with three candidates: 0.001, missing, "0.02" on the first
    row, only missing and non-numeric cells on the second. *)
Lemma C3_witness :
  exists df',
    _make_gnomad_max_col (runtime []) af_table ["AF"; "AF_exome"; "AF_genome"]
                         "gnomad_AF_max"
    = ([], inr (df', Some "gnomad_AF_max"))
    /\ map (fun ir => get (snd ir) "gnomad_AF_max") (body df')
       = [Num 0.02%float; Num nan].
Proof.
  destruct (C3_max_column (runtime []) af_table ["AF"; "AF_exome"; "AF_genome"]
              "gnomad_AF_max") as (_ & H).
  - intros c Hc. exact Hc.
  - intros ir c Hir Hc. vm_compute in Hir.
    destruct Hir as [<-|[<-|[]]]; destruct Hc as [<-|[<-|[<-|[]]]]; reflexivity.
  - destruct (H ltac:(discriminate)) as (df' & E & _).
    exists df'. split; [exact E|].
    vm_compute in E. injection E as <-. vm_compute. reflexivity.
Defined.

(** C4 on a table with one row per case: a stopgain, a missense and a
    synonymous variant in an exon; a synonymous and a missense variant whose
    Func.refGene contains splicing, which LoF overrides; an unlisted
    consequence; and a synonymous variant whose Func.refGene is missing. *)
Lemma C4_witness :
  exists merged',
    impact_tier ann_tiers = ([], inr merged')
    /\ column merged' "impact_tier"
       = [Str "LoF"; Str "missense"; Str "synonymous"; Str "LoF"; Str "LoF";
          Str "other"; Str "synonymous"].
Proof.
  destruct (C4_impact_precedence ann_tiers) as (merged' & E & _ & _).
  - vm_compute. reflexivity.
  - vm_compute. reflexivity.
  - vm_compute. reflexivity.
  - exists merged'. split; [exact E|].
    vm_compute in E. injection E as <-. vm_compute. reflexivity.
Defined.

(** C4, as stated, fails when Func.refGene holds no text: the annotation
    below has both consequence columns and one row, whose ExonicFunc.refGene
    is stopgain and whose Func.refGene is missing; the classification raises
    AttributeError at the [.str] accessor, no tier is assigned, and the run
    ends on this exception with nothing written. *)
Lemma C4_counterexample :
  PyStr.mem func_col (columns ann_func_missing) = true
  /\ PyStr.mem exonic_func_col (columns ann_func_missing) = true
  /\ get (only_row ann_func_missing) exonic_func_col = Str "stopgain"
  /\ impact_tier ann_func_missing = ([], inl AttributeError)
  /\ snd (run ann_func_missing zim_empty) = inl AttributeError
  /\ written (fst (run ann_func_missing zim_empty)) = [].
Proof. vm_compute. tauto. Qed.

(** C5. Degraded mode does not leave the prioritised table empty. The
    annotation below has no Func.refGene column and one variant that passes
    the frequency and cohort predicates (the cohort table is empty); the run
    completes, prints the warning, writes the annotated table with impact
    tier unknown, and no row passes the filter (the log counts 0); yet the
    prioritised table that is written has one row, whose cells are missing. *)
Theorem C5_degraded_rows :
  PyStr.mem func_col (columns ann_no_func) = false
  /\ snd (run ann_no_func zim_empty) = inr tt
  /\ In impact_warning (stdout (fst (run ann_no_func zim_empty)))
  /\ index (annotated (run ann_no_func zim_empty)) = [0]
  /\ column (annotated (run ann_no_func zim_empty)) "impact_tier" = [Str "unknown"]
  /\ passing ann_no_func (run ann_no_func zim_empty) 0.01 0.01 0.05 = []
  /\ In "  n = 0 variants after global+AFR+Zimbabwe AF and impact filters"
        (stdout (fst (run ann_no_func zim_empty)))
  /\ index (prioritised (run ann_no_func zim_empty)) = [0]
  /\ column (prioritised (run ann_no_func zim_empty)) "impact_tier" = [NaN].
Proof. vm_compute. tauto. Qed.

(** C6. The message of the annotation check does not list the columns
    found. The annotation below lacks Chr and has a column Gene: the run
    prints two lines and exits, nothing is written, the message names Chr and
    does not mention Gene. The same check in the cohort loader (line 28) does
    list the columns it found. *)
Theorem C6_message_without_columns :
  In "Gene" (columns ann_no_chr)
  /\ run ann_no_chr zim_empty
     = ([Printed "Reading ANNOVAR multianno file: ann.txt";
         Printed "  n = 1 variants before filtering"],
        inl (SystemExit "Missing required column 'Chr' in multianno file."))
  /\ written (fst (run ann_no_chr zim_empty)) = []
  /\ PyStr.contains "Gene" "Missing required column 'Chr' in multianno file." = false
  /\ load_zim_db (scenario ann_stopgain zim_no_alt) "zim.tsv"
     = ([], inl (SystemExit
                   ("Zimbabwe DB file must contain a 'alt' column (case-insensitive). "
                    ++ "Got: ['Chr', 'Start', 'Ref', 'zim_AF']"))).
Proof. vm_compute. tauto. Qed.



(** C8. A flag is not always the comparison of the row's own value with
    0.01. In the cohort-exclusion scenario no row passes the filter, and the
    prioritised table that is written has one row: its cohort frequency is
    missing, so it does not exceed 0.01, and its flag_high_zim_af is True,
    the comparison of the annotated row (0.10) with 0.01. *)
Theorem C8_flag_on_missing_row :
  snd (run ann_stopgain zim_hit) = inr tt
  /\ passing ann_stopgain (run ann_stopgain zim_hit) 0.01 0.01 0.05 = []
  /\ index (prioritised (run ann_stopgain zim_hit)) = [0]
  /\ get (only_row (prioritised (run ann_stopgain zim_hit))) "zim_AF" = NaN
  /\ gt_cell 0.01 (get (only_row (prioritised (run ann_stopgain zim_hit))) "zim_AF")
     = false
  /\ get (only_row (prioritised (run ann_stopgain zim_hit))) "flag_high_zim_af"
     = Bool true
  /\ get (only_row (annotated (run ann_stopgain zim_hit))) "zim_AF" = Num 0.10%float.
Proof. vm_compute. tauto. Qed.

(** C10 on a cohort record with allele count 0 over allele number 0. *)
Lemma C10_witness :
  exists merged filtered i r,
    written (fst (run ann_stopgain zim_zero_over_zero))
    = [(out_all "out", merged); (out_filtered "out", filtered)]
    /\ In (i, r) (body merged)
    /\ get r "zim_AF" = Num 0%float
    /\ cohort_ok 0.05 r = true.
Proof.
  destruct (C10_missing_matched_frequency (scenario ann_stopgain zim_zero_over_zero)
              "ann.txt" "zim.tsv" "out" 0.01 0.01 0.05
              (fst (run ann_stopgain zim_zero_over_zero)) ann_stopgain
              (loaded zim_zero_over_zero) [])
    as ((merged & filtered & Hw & Hrows) & _ & _).
  - vm_compute. reflexivity.
  - reflexivity.
  - vm_compute. reflexivity.
  - destruct (Hrows (0, only_row ann_stopgain)
                    (0, only_row (loaded zim_zero_over_zero)))
      as (i & r & Hin & _ & Hf & Hc).
    + vm_compute. tauto.
    + vm_compute. tauto.
    + vm_compute. reflexivity.
    + vm_compute. reflexivity.
    + exists merged, filtered, i, r.
      split; [exact Hw|]. split; [exact Hin|]. split; [exact Hf|].
      apply Hc. vm_compute. reflexivity.
Defined.

(** C10, as stated, fails when the number is zero and the count is not:
    allele count 5 over allele number 0 is +inf, not a missing value; the
    matched row keeps zim_AF = +inf in the annotated output and fails the
    cohort predicate at the threshold 0.05. *)
Lemma C10_counterexample :
  get (only_row zim_count_over_zero) "zim_AC" = Num 5%float
  /\ get (only_row zim_count_over_zero) "zim_AN" = Num 0%float
  /\ snd (run ann_stopgain zim_count_over_zero) = inr tt
  /\ index (annotated (run ann_stopgain zim_count_over_zero)) = [0]
  /\ row_matches on_keys (only_row ann_stopgain)
                 (only_row (loaded zim_count_over_zero)) = true
  /\ get (only_row (annotated (run ann_stopgain zim_count_over_zero))) "zim_AF"
     = Num infinity
  /\ get (only_row (annotated (run ann_stopgain zim_count_over_zero))) "zim_AF"
     <> Num 0%float
  /\ isna (get (only_row (annotated (run ann_stopgain zim_count_over_zero))) "zim_AF")
     = false
  /\ cohort_ok 0.05 (only_row (annotated (run ann_stopgain zim_count_over_zero)))
     = false.
Proof.
  split; [vm_compute; reflexivity|]. split; [vm_compute; reflexivity|].
  split; [vm_compute; reflexivity|]. split; [vm_compute; reflexivity|].
  split; [vm_compute; reflexivity|]. split; [vm_compute; reflexivity|].
  split.
  - intros E. apply (f_equal (le_cell 0)) in E. vm_compute in E. discriminate.
  - split; vm_compute; reflexivity.
Qed.

(* ================================================================== *)
(** ** The properties of the script at concrete inputs *)
(* ================================================================== *)

(** Two variants, the first with cohort frequency 0.10: at the cohort
    threshold 0.05 only the second is prioritised, at 0.5 both are. *)
Lemma prioritised_monotone_witness :
  exists tr' merged filtered filtered',
    run_with ann_pair zim_hit 0.01 0.01 0.5 = (tr', inr tt)
    /\ written (fst (run ann_pair zim_hit))
       = [(out_all "out", merged); (out_filtered "out", filtered)]
    /\ written tr' = [(out_all "out", merged); (out_filtered "out", filtered')]
    /\ index filtered = [1]
    /\ index filtered' = [0; 1]
    /\ forall i, In i (index filtered) -> In i (index filtered').
Proof.
  destruct (prioritised_monotone (scenario ann_pair zim_hit)
              "ann.txt" "zim.tsv" "out" 0.01 0.01 0.05 0.01 0.01 0.5
              (fst (run ann_pair zim_hit)) ann_pair)
    as (tr' & merged & filtered & filtered' & H1 & H2 & H3 & _ & H4).
  - vm_compute. reflexivity.
  - reflexivity.
  - reflexivity.
  - reflexivity.
  - reflexivity.
  - exists tr', merged, filtered, filtered'.
    split; [exact H1|]. split; [exact H2|]. split; [exact H3|].
    pose proof H2 as E. vm_compute in E. injection E as Em _.
    destruct H4 as (E1 & E2 & Hin).
    + rewrite <- Em. vm_compute. discriminate.
    + split; [|split; [|exact Hin]].
      * rewrite E1, <- Em. vm_compute. reflexivity.
      * rewrite E2, <- Em. vm_compute. reflexivity.
Defined.

(** The same two variants with all three thresholds at 0.01: the second
    variant is the prioritised table, and its three flags are False. *)
Lemma flags_false_within_threshold_witness :
  exists merged filtered,
    written (fst (run_with ann_pair zim_hit 0.01 0.01 0.01))
    = [(out_all "out", merged); (out_filtered "out", filtered)]
    /\ index filtered = [1]
    /\ forall i r', In (i, r') (body filtered) ->
         get r' "flag_common_gnomad" = Bool false
         /\ get r' "flag_common_gnomad_afr" = Bool false
         /\ get r' "flag_high_zim_af" = Bool false.
Proof.
  destruct (flags_false_within_threshold (scenario ann_pair zim_hit)
              "ann.txt" "zim.tsv" "out" 0.01 0.01 0.01
              (fst (run_with ann_pair zim_hit 0.01 0.01 0.01)) ann_pair)
    as (merged & filtered & Hw & H).
  - vm_compute. reflexivity.
  - reflexivity.
  - exists merged, filtered. split; [exact Hw|].
    pose proof Hw as E. vm_compute in E. injection E as Em _.
    destruct H as (Ei & Hf).
    + rewrite <- Em. vm_compute. discriminate.
    + split; [rewrite Ei, <- Em; vm_compute; reflexivity|].
      intros i r' Hin. destruct (Hf i r' Hin) as (Fa & Fr & Fz).
      split; [|split].
      * apply Fa; [reflexivity|discriminate].
      * apply Fr; [reflexivity|discriminate].
      * apply Fz. reflexivity.
Defined.

(** [main] with the three required arguments only, on the two variants. *)
Lemma main_default_flags_witness :
  exists merged filtered,
    written (fst (main (scenario ann_pair zim_hit) args_default))
    = [(out_all "out", merged); (out_filtered "out", filtered)]
    /\ index filtered = [1]
    /\ forall i r', In (i, r') (body filtered) ->
         get r' "flag_common_gnomad" = Bool false
         /\ get r' "flag_common_gnomad_afr" = Bool false
         /\ le_cell 0.05 (get r' "zim_AF") = true
         /\ get r' "flag_high_zim_af" = Bool (gt_cell 0.01 (get r' "zim_AF")).
Proof.
  destruct (main_default_flags (scenario ann_pair zim_hit) args_default
              (fst (main (scenario ann_pair zim_hit) args_default)) ann_pair)
    as (merged & filtered & Hw & H).
  - reflexivity.
  - reflexivity.
  - reflexivity.
  - vm_compute. reflexivity.
  - reflexivity.
  - exists merged, filtered. split; [exact Hw|].
    pose proof Hw as E. vm_compute in E. injection E as Em _.
    destruct H as (Ei & Hf).
    + rewrite <- Em. vm_compute. discriminate.
    + split; [rewrite Ei, <- Em; vm_compute; reflexivity|].
      intros i r' Hin. destruct (Hf i r' Hin) as (Fa & Fr & Fz & Fh).
      split; [|split; [|split]].
      * apply Fa. discriminate.
      * apply Fr. discriminate.
      * exact Fz.
      * exact Fh.
Defined.

(** The two variants at the default thresholds: the prioritised table is
    the second row of the annotated table, with its cells and its flags. *)
Lemma prioritised_rows_from_annotated_witness :
  exists merged filtered,
    written (fst (run ann_pair zim_hit))
    = [(out_all "out", merged); (out_filtered "out", filtered)]
    /\ index merged = [0; 1]
    /\ (forall c, In c (columns merged) -> In c (columns filtered))
    /\ Forall2 (fun ir' ir =>
                  fst ir' = fst ir /\ carries (snd ir') (snd ir)
                  /\ flags_from (gnomad_all_name ann_pair) (gnomad_afr_name ann_pair)
                                (snd ir') (snd ir))
               (body filtered) (passing ann_pair (run ann_pair zim_hit) 0.01 0.01 0.05)
    /\ map fst (passing ann_pair (run ann_pair zim_hit) 0.01 0.01 0.05) = [1].
Proof.
  destruct (prioritised_rows_from_annotated (scenario ann_pair zim_hit)
              "ann.txt" "zim.tsv" "out" 0.01 0.01 0.05
              (fst (run ann_pair zim_hit)) ann_pair)
    as (merged & filtered & Hw & Hs & Hc & Hsel & _).
  - vm_compute. reflexivity.
  - reflexivity.
  - exists merged, filtered. split; [exact Hw|].
    pose proof Hw as E. vm_compute in E. injection E as Em _.
    split; [rewrite Hs, <- Em; vm_compute; reflexivity|]. split; [exact Hc|].
    assert (Ea : annotated (run ann_pair zim_hit) = merged).
    { unfold annotated. now rewrite Hw. }
    unfold passing. rewrite Ea. split.
    + apply Hsel. rewrite <- Em. vm_compute. discriminate.
    + rewrite <- Em. vm_compute. reflexivity.
Defined.

(** The two variants with a NaN cohort threshold: no row passes, and the
    prioritised table has two rows without a value. *)
Lemma nan_threshold_witness :
  exists merged filtered,
    written (fst (run_with ann_pair zim_hit 0.01 0.01 nan))
    = [(out_all "out", merged); (out_filtered "out", filtered)]
    /\ passing ann_pair (run_with ann_pair zim_hit 0.01 0.01 nan) 0.01 0.01 nan = []
    /\ index filtered = [0; 1]
    /\ forall i r', In (i, r') (body filtered) -> blank r'.
Proof.
  destruct (nan_threshold (scenario ann_pair zim_hit)
              "ann.txt" "zim.tsv" "out" 0.01 0.01 nan
              (fst (run_with ann_pair zim_hit 0.01 0.01 nan)) ann_pair)
    as (merged & filtered & Hw & H & _).
  - vm_compute. reflexivity.
  - reflexivity.
  - exists merged, filtered. split; [exact Hw|].
    destruct (H eq_refl) as (Es & Ei & Hb).
    assert (Ea : annotated (run_with ann_pair zim_hit 0.01 0.01 nan) = merged).
    { unfold annotated. now rewrite Hw. }
    unfold passing. rewrite Ea. split; [exact Es|]. split; [|exact Hb].
    rewrite Ei. pose proof Hw as E. vm_compute in E. injection E as Em _.
    rewrite <- Em. vm_compute. reflexivity.
Defined.

(** The headers of the two files of the end-to-end scenario. *)
Lemma output_schema_witness :
  exists merged filtered,
    written (fst (run ann_stopgain zim_empty))
    = [(out_all "out", merged); (out_filtered "out", filtered)]
    /\ columns merged
       = (columns ann_stopgain ++ names_of (gnomad_all_name ann_stopgain)
          ++ names_of (gnomad_afr_name ann_stopgain) ++ ["zim_AF"; "impact_tier"])%list
    /\ columns filtered
       = (columns merged ++ ["flag_high_zim_af"]
          ++ flag_of (gnomad_all_name ann_stopgain) "flag_common_gnomad"
          ++ flag_of (gnomad_afr_name ann_stopgain) "flag_common_gnomad_afr")%list.
Proof.
  apply (output_schema (scenario ann_stopgain zim_empty)
           "ann.txt" "zim.tsv" "out" 0.01 0.01 0.05
           (fst (run ann_stopgain zim_empty)) ann_stopgain).
  - vm_compute. reflexivity.
  - reflexivity.
  - intros c Hc Hin. vm_compute in Hc, Hin.
    decompose [or] Hc; subst; decompose [or] Hin; try discriminate; assumption.
Defined.

(** The row of the cohort-exclusion scenario is carried to the annotated
    table. *)
Lemma annotation_rows_carried_witness :
  exists merged filtered,
    written (fst (run ann_stopgain zim_hit))
    = [(out_all "out", merged); (out_filtered "out", filtered)]
    /\ forall a, In a (body ann_stopgain) ->
         exists i r,
           In (i, r) (body merged)
           /\ forall c, In c (columns ann_stopgain) ->
                c <> "gnomad_AF_max" -> c <> "gnomad_AFR_AF_max" ->
                c <> "impact_tier" ->
                get r c = if PyStr.startswith c "AF"
                          then Num (to_numeric (scenario ann_stopgain zim_hit)
                                               (get (snd a) c))
                          else get (snd a) c.
Proof.
  apply (annotation_rows_carried (scenario ann_stopgain zim_hit)
           "ann.txt" "zim.tsv" "out" 0.01 0.01 0.05
           (fst (run ann_stopgain zim_hit)) ann_stopgain).
  - vm_compute. reflexivity.
  - reflexivity.
  - intros a c Ha Hc _. vm_compute in Ha. destruct Ha as [<-|[]].
    vm_compute in Hc. decompose [or] Hc; subst; try reflexivity; contradiction.
Defined.

(** A cohort table that has the variant twice: the annotated table has two
    rows for the one row of the annotation. *)
Lemma join_row_count_witness :
  exists merged filtered,
    written (fst (run ann_stopgain zim_twice))
    = [(out_all "out", merged); (out_filtered "out", filtered)]
    /\ len merged
       = list_sum (map (fun a => Nat.max 1 (length (matching (loaded zim_twice) (snd a))))
                       (body ann_stopgain))
    /\ len ann_stopgain <= len merged
    /\ ((forall a, In a (body ann_stopgain) ->
                   length (matching (loaded zim_twice) (snd a)) <= 1) ->
        len merged = len ann_stopgain).
Proof.
  apply (join_row_count (scenario ann_stopgain zim_twice)
           "ann.txt" "zim.tsv" "out" 0.01 0.01 0.05
           (fst (run ann_stopgain zim_twice)) ann_stopgain (loaded zim_twice) []).
  - vm_compute. reflexivity.
  - reflexivity.
  - vm_compute. reflexivity.
Defined.

(** An annotation with a zim_AF column of its own: the join succeeds and
    suffixes both zim_AF columns, and line 124 raises the KeyError. *)
Lemma annotation_with_zim_af_fails_witness :
  (exists e, snd (run ann_with_zim_af zim_hit) = inl e
             /\ written (fst (run ann_with_zim_af zim_hit)) = [])
  /\ snd (run ann_with_zim_af zim_hit) = inl (KeyError "zim_AF").
Proof.
  destruct (annotation_with_zim_af_fails (scenario ann_with_zim_af zim_hit)
              "ann.txt" "zim.tsv" "out" 0.01 0.01 0.05 ann_with_zim_af)
    as (H1 & H2).
  - reflexivity.
  - vm_compute. tauto.
  - split; [exact H1|].
    apply (H2 (loaded zim_hit) []
              (match snd (merge_left
                            (with_max_columns (scenario ann_with_zim_af zim_hit)
                                              ann_with_zim_af)
                            (loaded zim_hit) on_keys) with
               | inr d => d
               | inl _ => mkDF [] []
               end) []).
    + intros c Hc. vm_compute in Hc. vm_compute. tauto.
    + vm_compute. reflexivity.
    + vm_compute. reflexivity.
Defined.

(** The cohort file with the labels chr, START, Ref, Alt, zim_af. *)
Lemma loader_keeps_cells_witness :
  exists k_chr k_start k_ref k_alt,
    (In k_chr (columns zim_hit) /\ PyStr.lower k_chr = "chr")
    /\ (In k_start (columns zim_hit) /\ PyStr.lower k_start = "start")
    /\ (In k_ref (columns zim_hit) /\ PyStr.lower k_ref = "ref")
    /\ (In k_alt (columns zim_hit) /\ PyStr.lower k_alt = "alt")
    /\ Forall2
         (fun old new =>
            fst new = fst old
            /\ get (snd new) "Chr" = get (snd old) k_chr
            /\ get (snd new) "Start" = get (snd old) k_start
            /\ get (snd new) "Ref" = get (snd old) k_ref
            /\ get (snd new) "Alt" = get (snd old) k_alt
            /\ forall c_af, In c_af (columns zim_hit) -> PyStr.lower c_af = "zim_af" ->
                 get (snd new) "zim_AF" = get (snd old) c_af)
         (body zim_hit) (body (loaded zim_hit)).
Proof.
  apply (loader_keeps_cells (scenario ann_stopgain zim_hit) "zim.tsv" zim_hit []
           (loaded zim_hit)).
  - reflexivity.
  - vm_compute. reflexivity.
  - intros ir Hin. vm_compute in Hin. destruct Hin as [<-|[]]. reflexivity.
  - vm_compute. repeat constructor; cbn; intuition discriminate.
Defined.

(** The table loaded from that file, loaded again. *)
Lemma loader_idempotent_witness :
  load_zim_db (reload zim_hit) "standard.tsv" = ([], inr (loaded zim_hit)).
Proof.
  apply (loader_idempotent (reload zim_hit) "zim.tsv" "standard.tsv" zim_hit []
           (loaded zim_hit)).
  - reflexivity.
  - vm_compute. reflexivity.
  - intros ir Hin. vm_compute in Hin. destruct Hin as [<-|[]]. reflexivity.
  - vm_compute. repeat constructor; cbn; intuition discriminate.
  - vm_compute. reflexivity.
Defined.

(** A candidate list that names AF_popmax, which the table does not have. *)
Lemma max_col_missing_candidate_witness :
  _make_gnomad_max_col (runtime []) af_table ["AF"; "AF_popmax"] "gnomad_AF_max"
  = ([], inl (KeyError "AF_popmax")).
Proof.
  apply (max_col_missing_candidate (runtime []) af_table ["AF"; "AF_popmax"]
           "gnomad_AF_max" "AF_popmax").
  reflexivity.
Defined.

(** An annotation whose Func.refGene cells are all missing. *)
Lemma func_column_without_text_fails_witness :
  exists tr,
    run ann_func_missing zim_empty = (tr, inl AttributeError) /\ written tr = [].
Proof.
  apply (func_column_without_text_fails (scenario ann_func_missing zim_empty)
           "ann.txt" "zim.tsv" "out" 0.01 0.01 0.05 ann_func_missing
           (loaded zim_empty) [] [] (joined_table ann_func_missing zim_empty)).
  - reflexivity.
  - intros c Hc. vm_compute in Hc. vm_compute. tauto.
  - vm_compute. tauto.
  - vm_compute. tauto.
  - discriminate.
  - intros a Ha. vm_compute in Ha. destruct Ha as [<-|[]]. reflexivity.
  - vm_compute. reflexivity.
  - vm_compute. reflexivity.
Defined.

(** A cohort table whose frequency for the variant is the text ".". *)
Lemma text_frequency_fails_witness :
  exists tr,
    run ann_stopgain zim_text
    = (tr, inl (TypeError "'<=' not supported between instances of 'str' and 'float'"))
    /\ written tr = [].
Proof.
  apply (text_frequency_fails (scenario ann_stopgain zim_text)
           "ann.txt" "zim.tsv" "out" 0.01 0.01 0.05 ann_stopgain
           (loaded zim_text) [] [] (joined_table ann_stopgain zim_text) []
           (tiered_table ann_stopgain zim_text)
           (0, only_row ann_stopgain) (0, only_row (loaded zim_text)) ".").
  - reflexivity.
  - intros c Hc. vm_compute in Hc. vm_compute. tauto.
  - vm_compute. reflexivity.
  - vm_compute. reflexivity.
  - vm_compute. reflexivity.
  - vm_compute. left. reflexivity.
  - vm_compute. left. reflexivity.
  - vm_compute. reflexivity.
  - vm_compute. reflexivity.
Defined.

(** The log of the run on the two variants: two before filtering, one
    after. *)
Lemma run_log_witness :
  exists merged filtered,
    written (fst (run ann_pair zim_hit))
    = [(out_all "out", merged); (out_filtered "out", filtered)]
    /\ stdout (fst (run ann_pair zim_hit))
       = ["Reading ANNOVAR multianno file: ann.txt";
          "  n = 2 variants before filtering";
          "Using gnomAD columns:";
          "  global AF (max over ['AF_global']) -> gnomad_AF_max";
          "  AFR AF   (max over ['AF_afr']) -> gnomad_AFR_AF_max";
          "Reading Zimbabwe cohort DB: zim.tsv";
          "  n = 1 distinct cohort variants";
          "  n = 1 variants after global+AFR+Zimbabwe AF and impact filters";
          "Wrote annotated file (with zim_AF)  : out.zim_annotated.tsv";
          "Wrote prioritised variant list      : out.zim_prioritised.tsv"]
    /\ len filtered = 1.
Proof.
  destruct (run_log (scenario ann_pair zim_hit)
              "ann.txt" "zim.tsv" "out" 0.01 0.01 0.05
              (fst (run ann_pair zim_hit)) ann_pair (loaded zim_hit) [])
    as (merged & filtered & Hw & Hlog & Hlen).
  - vm_compute. reflexivity.
  - reflexivity.
  - vm_compute. reflexivity.
  - exists merged, filtered. split; [exact Hw|].
    pose proof Hw as E. vm_compute in E. injection E as Em _.
    split.
    + rewrite Hlog, <- Em. vm_compute. reflexivity.
    + rewrite Hlen, <- Em. vm_compute. reflexivity.
Defined.

(** The annotated row of the end-to-end scenario. *)
Lemma annotated_cells_defined_witness :
  exists merged filtered,
    written (fst (run ann_stopgain zim_empty))
    = [(out_all "out", merged); (out_filtered "out", filtered)]
    /\ forall i r, In (i, r) (body merged) ->
         isna (get r "zim_AF") = false
         /\ exists tier,
              get r "impact_tier" = Str tier
              /\ In tier ["LoF"; "missense"; "synonymous"; "other"; "unknown"]
              /\ (tier = "unknown"
                  <-> PyStr.mem func_col (columns ann_stopgain)
                      && PyStr.mem exonic_func_col (columns ann_stopgain) = false).
Proof.
  apply (annotated_cells_defined (scenario ann_stopgain zim_empty)
           "ann.txt" "zim.tsv" "out" 0.01 0.01 0.05
           (fst (run ann_stopgain zim_empty)) ann_stopgain).
  - vm_compute. reflexivity.
  - reflexivity.
Defined.

(** An annotation without Chr. *)
Lemma missing_identity_column_exit_witness :
  run ann_no_chr zim_empty
  = ([Printed "Reading ANNOVAR multianno file: ann.txt";
      Printed "  n = 1 variants before filtering"],
     inl (SystemExit "Missing required column 'Chr' in multianno file."))
  /\ In "Chr" core_columns /\ ~ In "Chr" (columns ann_no_chr).
Proof.
  apply (missing_identity_column_exit (scenario ann_no_chr zim_empty)
           "ann.txt" "zim.tsv" "out" 0.01 0.01 0.05 ann_no_chr "Chr").
  - reflexivity.
  - reflexivity.
Defined.

(** The two variants at the default thresholds: the first fails the cohort
    predicate, the second passes the three, and the second only is
    prioritised. *)
Lemma filter_conjunction_some_pass_witness :
  exists merged filtered,
    written (fst (run ann_pair zim_hit))
    = [(out_all "out", merged); (out_filtered "out", filtered)]
    /\ index merged = [0; 1]
    /\ ~ In 0 (index filtered)
    /\ In 1 (index filtered).
Proof.
  destruct (filter_conjunction_some_pass (scenario ann_pair zim_hit)
              "ann.txt" "zim.tsv" "out" 0.01 0.01 0.05
              (fst (run ann_pair zim_hit)) ann_pair)
    as (merged & filtered & Hw & H).
  - vm_compute. reflexivity.
  - reflexivity.
  - exists merged, filtered. split; [exact Hw|].
    pose proof Hw as E. vm_compute in E. injection E as Em _.
    assert (N : selected merged (gnomad_all_name ann_pair) (gnomad_afr_name ann_pair)
                         0.01 0.01 0.05 <> []).
    { rewrite <- Em. vm_compute. discriminate. }
    specialize (H N). split; [rewrite <- Em; reflexivity|]. split.
    + intros Hin.
      assert (H0 : exists r, In (0, r) (body merged)
                             /\ le_cell 0.05 (get r "zim_AF") = false).
      { rewrite <- Em. eexists. split; [left; reflexivity|]. vm_compute. reflexivity. }
      destruct H0 as (r & Hr & Hz).
      apply (H 0 r Hr) in Hin. destruct Hin as (_ & Hle & _). congruence.
    + assert (H1 : exists r, In (1, r) (body merged)
                             /\ keep (gnomad_all_name ann_pair) (gnomad_afr_name ann_pair)
                                     0.01 0.01 0.05 r = true).
      { rewrite <- Em. eexists. split; [right; left; reflexivity|].
        vm_compute. reflexivity. }
      destruct H1 as (r & Hr & Hk).
      apply (H 1 r Hr). apply (keep_iff ann_pair). exact Hk.
Defined.

(** The two variants with the cohort threshold at 0.5: both are prioritised,
    and flag_high_zim_af is True on the first (0.10) and False on the second
    (0.0). *)
Lemma debug_flags_some_pass_witness :
  exists merged filtered,
    written (fst (run_with ann_pair zim_hit 0.01 0.01 0.5))
    = [(out_all "out", merged); (out_filtered "out", filtered)]
    /\ ~ In "flag_high_zim_af" (columns merged)
    /\ In "flag_high_zim_af" (columns filtered)
    /\ In "flag_common_gnomad" (columns filtered)
    /\ In "flag_common_gnomad_afr" (columns filtered)
    /\ index filtered = [0; 1]
    /\ column filtered "flag_high_zim_af" = [Bool true; Bool false]
    /\ forall i r', In (i, r') (body filtered) ->
         get r' "flag_high_zim_af" = Bool (gt_cell 0.01 (get r' "zim_AF"))
         /\ get r' "flag_common_gnomad" = Bool (gt_cell 0.01 (get r' "gnomad_AF_max"))
         /\ get r' "flag_common_gnomad_afr"
            = Bool (gt_cell 0.01 (get r' "gnomad_AFR_AF_max")).
Proof.
  destruct (debug_flags_some_pass (scenario ann_pair zim_hit)
              "ann.txt" "zim.tsv" "out" 0.01 0.01 0.5
              (fst (run_with ann_pair zim_hit 0.01 0.01 0.5)) ann_pair)
    as (merged & filtered & Hw & Hm & Hz & Ha & Hr & H).
  - vm_compute. reflexivity.
  - reflexivity.
  - exists merged, filtered. split; [exact Hw|].
    pose proof Hw as E. vm_compute in E. injection E as Em Ef.
    split.
    { apply Hm; [now left|]. vm_compute. intuition discriminate. }
    split; [exact Hz|]. split; [apply Ha; discriminate|].
    split; [apply Hr; discriminate|].
    destruct H as (Ei & Hf).
    + rewrite <- Em. vm_compute. discriminate.
    + split; [rewrite Ei, <- Em; vm_compute; reflexivity|].
      split; [rewrite <- Ef; vm_compute; reflexivity|].
      intros i r' Hin. destruct (Hf i r' Hin) as (Fz & Fa & Fr).
      split; [exact Fz|]. split; [apply Fa|apply Fr]; discriminate.
Defined.

(** An annotation without Func.refGene whose only variant is within every
    frequency threshold: the annotated table has the row, with tier unknown,
    and the prioritised table has one row without a value. *)
Lemma degraded_mode_run_witness :
  exists tr merged filtered,
    run ann_no_func zim_empty = (tr, inr tt)
    /\ In (Printed impact_warning) tr
    /\ written tr = [(out_all "out", merged); (out_filtered "out", filtered)]
    /\ column merged "impact_tier" = [Str "unknown"]
    /\ passing ann_no_func (run ann_no_func zim_empty) 0.01 0.01 0.05 = []
    /\ index filtered = [0]
    /\ forall i r', In (i, r') (body filtered) -> blank r'.
Proof.
  destruct (degraded_mode_run (scenario ann_no_func zim_empty)
              "ann.txt" "zim.tsv" "out" 0.01 0.01 0.05
              ann_no_func (loaded zim_empty) [] []
              (joined_table ann_no_func zim_empty))
    as (tr & merged & filtered & H1 & H2 & H3 & H4 & _ & _ & _ & Es & HF).
  - reflexivity.
  - intros c Hc. vm_compute in Hc. vm_compute. tauto.
  - left. vm_compute. intuition discriminate.
  - vm_compute. reflexivity.
  - intros z Hz. vm_compute in Hz. contradiction.
  - vm_compute. reflexivity.
  - exists tr, merged, filtered.
    split; [exact H1|]. split; [exact H2|]. split; [exact H3|].
    assert (Ea : annotated (run ann_no_func zim_empty) = merged).
    { unfold annotated, run. rewrite H1. cbn [fst]. now rewrite H3. }
    split; [rewrite H4; vm_compute; reflexivity|].
    unfold passing. rewrite Ea. split; [exact Es|]. split.
    + unfold index.
      rewrite (Forall2_index (R := fun a b =>
                 blank (snd a)
                 /\ flags_from (gnomad_all_name ann_no_func)
                               (gnomad_afr_name ann_no_func) (snd a) (snd b))
                 _ _ HF).
      rewrite H4. vm_compute. reflexivity.
    + intros i r' Hin.
      destruct (Forall2_In_l _ _ _ _ HF Hin) as (ir & _ & _ & Hb & _). exact Hb.
Defined.
